(** * Self-play game driver of lc0 (selfplay/game.cc): a shallow embedding

    The development follows [src/selfplay/game.cc]:
    - [ply_to_lc0_move]      the resolver of opening-book plies,
    - [SelfPlayGame]         construction, [Play], [GetMoves], [Abort],
                             [GetWorstEvalForWinnerOrDraw],
                             [WriteTrainingData],
    - [MakeSearchStopper]    the stopper factory of [SelfPlayLimits],
    and [src/version.cc]: [GetVersionInt] and [GetVersionStr].

    C++ [float] is IEEE-754 binary32; it is embedded with the parameterised
    specification of floating-point arithmetic of the standard library
    ([SpecFloat], precision 24, maximal exponent 128), so every float
    expression of the source evaluates bit-exactly.  Fixed-width integers are
    [Z] with the conversions written out. *)

From Stdlib Require Import ZArith List Bool String Ascii Lia.
From Stdlib Require Import Floats.SpecFloat.
From Stdlib Require DecimalString DecimalZ DecimalPos.
Import ListNotations.
Local Open Scope Z_scope.

(* ================================================================== *)
(** * Part I: definitions                                              *)
(* ================================================================== *)

(** ** binary32 arithmetic, as used by the [float] expressions of [Play] *)

Module F32.

Definition prec : Z := 24.
Definition emax : Z := 128.

Definition float : Type := spec_float.

Definition add : float -> float -> float := SFadd prec emax.
Definition sub : float -> float -> float := SFsub prec emax.
Definition div : float -> float -> float := SFdiv prec emax.

(** [a < b] and [a > b] of C++: false as soon as one side is a NaN. *)
Definition ltb (a b : float) : bool := SFltb a b.
Definition gtb (a b : float) : bool := SFltb b a.
Definition leb (a b : float) : bool := SFleb a b.

(** The usual arithmetic conversion of an [int] operand to [float]
    (round to nearest even). *)
Definition of_int (z : Z) : float := binary_normalize prec emax z 0 false.

(** [std::max(a, b)] is [(a < b) ? b : a]; [std::min(a, b)] is
    [(b < a) ? b : a]. *)
Definition max (a b : float) : float := if ltb a b then b else a.
Definition min (a b : float) : float := if ltb b a then b else a.

Definition valid (x : float) : bool := valid_binary prec emax x.

Definition zero : float := S754_zero false.
Definition one : float := of_int 1.
Definition two : float := of_int 2.
Definition hundred : float := of_int 100.

(** The float nearest to the decimal [n / 100] (a literal such as
    [0.96f]). *)
Definition percent (n : Z) : float := div (of_int n) hundred.



End F32.

(** ** Board squares, moves and boards (chess/bitboard.h, chess/board.h) *)

(** Modelled from the spec: [lczero::BoardSquare] (chess/bitboard.h is not
    under src/).  Only its interface is used by the driver: the constructor
    [BoardSquare(row, col)] and the accessors [row()] and [col()]. *)
Record BoardSquare : Type := mkSquare { row : Z; col : Z }.

(** Modelled from the spec: [lczero::Move::Promotion]. *)
Inductive Promotion : Type :=
  | PromoNone | PromoQueen | PromoRook | PromoBishop | PromoKnight.

(** Modelled from the spec: [lczero::Move] (chess/bitboard.h is not under
    src/): a source square, a destination square and a promotion piece, with
    the setters the resolver calls. *)
Record Move : Type := mkMove {
  from : BoardSquare;
  to : BoardSquare;
  promotion_of : Promotion
}.

(** The default-constructed move [lczero::Move m;]. *)
Definition Move_default : Move := mkMove (mkSquare 0 0) (mkSquare 0 0) PromoNone.

Definition SetFrom (m : Move) (sq : BoardSquare) : Move :=
  mkMove sq (to m) (promotion_of m).
Definition SetTo (m : Move) (sq : BoardSquare) : Move :=
  mkMove (from m) sq (promotion_of m).
Definition SetPromotion (m : Move) (p : Promotion) : Move :=
  mkMove (from m) (to m) p.

(** Modelled from the spec: [Move::Mirror] ("mirror each candidate's
    coordinates if resolving from the opposing perspective"): ranks are
    flipped, files are kept. *)
Definition Mirror_square (sq : BoardSquare) : BoardSquare :=
  mkSquare (7 - row sq) (col sq).
Definition Mirror (m : Move) : Move :=
  mkMove (Mirror_square (from m)) (Mirror_square (to m)) (promotion_of m).

Definition BoardSquare_eqb (a b : BoardSquare) : bool :=
  (row a =? row b) && (col a =? col b).

Definition Promotion_eqb (a b : Promotion) : bool :=
  match a, b with
  | PromoNone, PromoNone | PromoQueen, PromoQueen | PromoRook, PromoRook
  | PromoBishop, PromoBishop | PromoKnight, PromoKnight => true
  | _, _ => false
  end.

(** [operator==] of [Move]. *)
Definition Move_eqb (a b : Move) : bool :=
  BoardSquare_eqb (from a) (from b) && BoardSquare_eqb (to a) (to b)
  && Promotion_eqb (promotion_of a) (promotion_of b).

(** Modelled from the spec: [lczero::BitBoard], through its only use here,
    [get(square)]. *)
Definition BitBoard : Type := BoardSquare -> bool.
Definition get (b : BitBoard) (sq : BoardSquare) : bool := b sq.

(** Modelled from the spec: [lczero::ChessBoard] (chess/board.h is not under
    src/), as the observations [ply_to_lc0_move] makes of a board: the
    legal-move list and the piece bitboards.  The board is kept from the
    side to move's point of view, as the spec's "perspective-normalized move
    coordinates" says. *)
Record ChessBoard : Type := mkBoard {
  GenerateLegalMoves : list Move;
  our_knights : BitBoard;
  bishops : BitBoard;
  rooks : BitBoard;
  queens : BitBoard;
  our_king : BitBoard;
  pawns : BitBoard
}.

(** ** Opening-book plies (the pgn library) *)

(** Modelled from the spec: [pgn::Piece], a piece letter compared with
    [operator==] against [pgn::Piece::Knight()] and the like. *)
Record PgnPiece : Type := mkPiece { letter : ascii }.

Definition PgnPiece_eqb (a b : PgnPiece) : bool :=
  Ascii.eqb (letter a) (letter b).

Module Piece.
Definition Pawn : PgnPiece := mkPiece "P".
Definition Knight : PgnPiece := mkPiece "N".
Definition Bishop : PgnPiece := mkPiece "B".
Definition Rook : PgnPiece := mkPiece "R".
Definition Queen : PgnPiece := mkPiece "Q".
Definition King : PgnPiece := mkPiece "K".
End Piece.

(** Modelled from the spec: [pgn::Square]; an index is negative when the
    notation leaves that coordinate out. *)
Record PgnSquare : Type := mkPgnSquare { rowIndex : Z; colIndex : Z }.

(** Modelled from the spec: [pgn::Ply] ("target square, moved-piece type,
    optional source file and/or rank, promotion piece, castle flags"), with
    [str] the original notation and [valid] the presence of the half-move. *)
Record Ply : Type := mkPly {
  isShortCastle : bool;
  isLongCastle : bool;
  toSquare : PgnSquare;
  fromSquare : PgnSquare;
  piece : PgnPiece;
  promotion : bool;
  promoted : PgnPiece;
  str : string;
  valid : bool
}.

(** ** Results of fallible code *)

(** A C++ call either returns, throws [lczero::Exception] with a message, or
    stops at a failed [assert]. *)
Inductive outcome (A : Type) : Type :=
  | Returned (a : A)
  | Thrown (msg : string)
  | AssertionFailed.
Arguments Returned {A} a.
Arguments Thrown {A} msg.
Arguments AssertionFailed {A}.

(** ** [ply_to_lc0_move] (game.cc, lines 38-113) *)

(** The promotion [switch] of lines 83-97.  The second component tells
    whether control reached [assert(false)] of the [default] label: cases
    'Q', 'R' and 'B' end in [break]; case 'N' has none and falls through. *)
Definition promotion_switch (c : ascii) (legal_move : Move) : Move * bool :=
  if Ascii.eqb c "Q" then (SetPromotion legal_move PromoQueen, false)
  else if Ascii.eqb c "R" then (SetPromotion legal_move PromoRook, false)
  else if Ascii.eqb c "B" then (SetPromotion legal_move PromoBishop, false)
  else if Ascii.eqb c "N" then (SetPromotion legal_move PromoKnight, true)
  else (legal_move, true).

(** The condition of lines 63-68 under which a candidate is skipped. *)
Definition piece_mismatch (p : PgnPiece)
    (knight_move bishop_move rook_move queen_move king_move pawn_move : bool)
    : bool :=
  PgnPiece_eqb p Piece.Knight && negb knight_move ||
  PgnPiece_eqb p Piece.Bishop && negb bishop_move ||
  PgnPiece_eqb p Piece.Rook && negb rook_move ||
  PgnPiece_eqb p Piece.Queen && negb queen_move ||
  PgnPiece_eqb p Piece.King && negb king_move ||
  PgnPiece_eqb p Piece.Pawn && negb pawn_move.

Definition unrecognized (ply : Ply) : string :=
  String.append "Didn't understood move: " (str ply).

Section Resolver.

(** [assertions] is true in a build where [assert] is active (no NDEBUG). *)
Variable assertions : bool.

(** The [for] loop of lines 48-109 over the legal moves still to visit;
    leaving the loop reaches the [throw] of line 111. *)
Fixpoint resolve_candidates (ply : Ply) (board : ChessBoard) (mirror : bool)
    (candidates : list Move) : outcome Move :=
  match candidates with
  | [] => Thrown (unrecognized ply)
  | legal_move :: rest =>
    let knight_move := get (our_knights board) (from legal_move) in
    let bishop_move := get (bishops board) (from legal_move) in
    let rook_move := get (rooks board) (from legal_move) in
    let queen_move := get (queens board) (from legal_move) in
    let king_move := get (our_king board) (from legal_move) in
    let pawn_move := get (pawns board) (from legal_move) in
    let legal_move := if mirror then Mirror legal_move else legal_move in
    if (row (to legal_move) =? rowIndex (toSquare ply)) &&
       (col (to legal_move) =? colIndex (toSquare ply))
    then
      if piece_mismatch (piece ply) knight_move bishop_move rook_move
           queen_move king_move pawn_move
      then resolve_candidates ply board mirror rest
      else
        let colIndex := colIndex (fromSquare ply) in
        if (colIndex >=? 0) && negb (col (from legal_move) =? colIndex)
        then resolve_candidates ply board mirror rest
        else
          let rowIndex := rowIndex (fromSquare ply) in
          if (rowIndex >=? 0) && negb (row (from legal_move) =? rowIndex)
          then resolve_candidates ply board mirror rest
          else if promotion ply then
            let '(legal_move, reached_assert) :=
              promotion_switch (letter (promoted ply)) legal_move in
            if reached_assert && assertions then AssertionFailed
            else Returned legal_move
          else Returned legal_move
    else resolve_candidates ply board mirror rest
  end.

Definition ply_to_lc0_move (ply : Ply) (board : ChessBoard) (mirror : bool)
    : outcome Move :=
  if isShortCastle ply || isLongCastle ply then
    let m := Move_default in
    let file_to := if isShortCastle ply then 7 else 0 in
    let rowIndex := if mirror then 7 else 0 in
    let m := SetFrom m (mkSquare rowIndex 4) in
    let m := SetTo m (mkSquare rowIndex file_to) in
    Returned m
  else resolve_candidates ply board mirror (GenerateLegalMoves board).

End Resolver.

(** ** Search limits and stoppers (game.cc, lines 393-405) *)

(** Modelled from the spec: [SelfPlayLimits] of selfplay/game.h ("optional
    visit-count, playout-count, move-time budget (unset = sentinel)"); the
    source tests each field with [>= 0]. *)
Record SelfPlayLimits : Type := mkLimits {
  visits : Z;
  playouts : Z;
  movetime : Z
}.

(** The stoppers the factory creates, each with its constructor argument. *)
Inductive SearchStopper : Type :=
  | VisitsStopper (limit : Z)
  | PlayoutsStopper (limit : Z)
  | TimeLimitStopper (limit_ms : Z).

(** Modelled from the spec: [ChainedSearchStopper] (mcts/stoppers is not
    under src/), the sub-stoppers in the order [AddStopper] received them. *)
Definition ChainedSearchStopper : Type := list SearchStopper.

Definition AddStopper (chain : ChainedSearchStopper) (s : SearchStopper)
    : ChainedSearchStopper := chain ++ [s].

Definition MakeSearchStopper (limits : SelfPlayLimits) : ChainedSearchStopper :=
  let result : ChainedSearchStopper := [] in
  let result :=
    if visits limits >=? 0
    then AddStopper result (VisitsStopper (visits limits)) else result in
  let result :=
    if playouts limits >=? 0
    then AddStopper result (PlayoutsStopper (playouts limits)) else result in
  let result :=
    if movetime limits >=? 0
    then AddStopper result (TimeLimitStopper (movetime limits)) else result in
  result.

Section Stopping.

(** The statistics a stopper is asked about, and the verdict of each single
    stopper on them, are the search's business. *)
Variable IterationStats : Type.
Variable signals : SearchStopper -> IterationStats -> bool.

(** Modelled from the spec: [ChainedSearchStopper::ShouldStop] ("signals as
    soon as any configured sub-stopper signals (first-to-trigger wins)"):
    the sub-stoppers are asked in order and the first that signals decides. *)
Fixpoint ShouldStop (chain : ChainedSearchStopper) (stats : IterationStats)
    : bool :=
  match chain with
  | [] => false
  | s :: rest => if signals s stats then true else ShouldStop rest stats
  end.

End Stopping.

(** ** Game results and training records *)

Inductive GameResult : Type := UNDECIDED | WHITE_WON | BLACK_WON | DRAW.

Definition GameResult_eqb (a b : GameResult) : bool :=
  match a, b with
  | UNDECIDED, UNDECIDED | WHITE_WON, WHITE_WON
  | BLACK_WON, BLACK_WON | DRAW, DRAW => true
  | _, _ => false
  end.

(** Modelled from the spec: [V4TrainingData] (neural/writer.h is not under
    src/): "board-derived features, side-to-move flag, target value/draw
    estimate from the search's best evaluation, and a placeholder outcome
    label patched only at game end".  [side_to_move] is an unsigned byte and
    [result] a signed byte. *)
Record V4TrainingData : Type := mkChunk {
  features : list Z;
  side_to_move : Z;
  result : Z;
  best_q : F32.float;
  best_d : F32.float
}.

Definition set_result (chunk : V4TrainingData) (r : Z) : V4TrainingData :=
  mkChunk (features chunk) (side_to_move chunk) r (best_q chunk) (best_d chunk).

(** Modelled from the spec: [TrainingDataWriter], "a training-record writer
    exposing write(record)"; its state is the sequence of chunks written. *)
Definition TrainingDataWriter : Type := list V4TrainingData.
Definition WriteChunk (writer : TrainingDataWriter) (chunk : V4TrainingData)
    : TrainingDataWriter := writer ++ [chunk].

(** The body of the [for] loop of [WriteTrainingData] (lines 381-389) on the
    loop's own copy [chunk] of a stored record. *)
Definition patch_chunk (game_result_ : GameResult) (chunk : V4TrainingData)
    : V4TrainingData :=
  let black_to_move := negb (side_to_move chunk =? 0) in
  match game_result_ with
  | WHITE_WON => set_result chunk (if black_to_move then -1 else 1)
  | BLACK_WON => set_result chunk (if black_to_move then 1 else -1)
  | _ => set_result chunk 0
  end.

Fixpoint write_chunks (game_result_ : GameResult)
    (training_data_ : list V4TrainingData) (writer : TrainingDataWriter)
    : TrainingDataWriter :=
  match training_data_ with
  | [] => writer
  | chunk :: rest =>
    write_chunks game_result_ rest
      (WriteChunk writer (patch_chunk game_result_ chunk))
  end.

(** ** Player options *)

(** The options registered by [PopulateUciParams] (lines 138-146), as read
    back through [uci_options->Get<T>(id)]. *)
Record UciOptions : Type := mkUci {
  ReuseTree : bool;
  ResignPercentage : F32.float;
  ResignWDLStyle : bool;
  ResignEarliestMove : Z;
  MinimumAllowedVisits : Z;
  UCI_Chess960 : bool
}.

(** The defaults [PopulateUciParams] registers. *)
Definition PopulateUciParams_defaults : UciOptions :=
  mkUci false (F32.of_int 0) false 0 0 false.

Record PlayerOptions : Type := mkPlayer {
  uci_options : UciOptions;
  search_limits : SelfPlayLimits
}.

(** The responder handed to the search: the side's callbacks, wrapped or not
    in the transformer that remaps castling to the legacy encoding. *)
Inductive UciResponder : Type :=
  | CallbackUciResponder (blacks_callbacks : bool)
  | Chess960Transformer (inner : UciResponder) (board : ChessBoard).

(** Modelled from the spec: an edge of the current head with its visit count
    (an unsigned 32-bit integer) and its move; [GetMove(as_opponent)] gives
    the move mirrored when asked from the opponent's side. *)
Record Edge : Type := mkEdge { GetN : Z; edge_move : Move }.

Definition GetMove (e : Edge) (as_opponent : bool) : Move :=
  if as_opponent then Mirror (edge_move e) else edge_move e.

(** [static_cast<int>] of an unsigned 32-bit value. *)
Definition static_cast_int (n : Z) : Z :=
  if n mod 2 ^ 32 <? 2 ^ 31 then n mod 2 ^ 32 else n mod 2 ^ 32 - 2 ^ 32.

(** A pair of half-moves of the opening line. *)
Record PgnMove : Type := mkPgnMove { white : Ply; black : Ply }.

(** ** The collaborators of the driver *)

(** The node tree, the position history, the search and the random source
    are not under src/: the driver is embedded over their interface, one
    field per member function it calls.  Member functions that change their
    object return the changed object. *)
Class Collaborators : Type := {
  NodeTree : Type;
  PositionHistory : Type;
  Position : Type;
  Search : Type;
  SyzygyTablebase : Type;
  Rng : Type;

  (* std::random_shuffle on a back rank *)
  random_shuffle : Rng -> string -> string * Rng;

  (* NodeTree *)
  NodeTree_new : NodeTree;
  ResetToPosition : NodeTree -> string -> list Move -> NodeTree;
  MakeMove : NodeTree -> Move -> NodeTree;
  TrimTreeAtHead : NodeTree -> NodeTree;
  GetPlyCount : NodeTree -> Z;
  GetPositionHistory : NodeTree -> PositionHistory;
  Tree_IsBlackToMove : NodeTree -> bool;
  HeadPosition : NodeTree -> Position;
  (* GetCurrentHead()->Edges() *)
  HeadEdges : NodeTree -> list Edge;
  (* the moves of the edges met walking [GetParent] from the current head
     up to the game-begin node, head first *)
  MovesFromHead : NodeTree -> list Move;
  GetV4TrainingData :
    NodeTree -> GameResult -> PositionHistory -> Search ->
    F32.float -> F32.float -> V4TrainingData;

  (* PositionHistory and Position *)
  ComputeGameResult : PositionHistory -> GameResult;
  GetLength : PositionHistory -> Z;
  Append : PositionHistory -> Move -> PositionHistory;
  Last : PositionHistory -> Position;
  Starting : PositionHistory -> Position;
  GetBoard : Position -> ChessBoard;
  Position_after : Position -> Move -> Position;
  IsBlackToMove : Position -> bool;
  GetLegacyMove : ChessBoard -> Move -> Move;

  (* Search *)
  PopulateIntrinsicStoppers :
    ChainedSearchStopper -> UciOptions -> ChainedSearchStopper;
  Search_new :
    NodeTree -> UciResponder -> ChainedSearchStopper -> PlayerOptions ->
    option SyzygyTablebase -> Search;
  (* RunBlocking(threads) works on the tree the search was built on *)
  RunBlocking : Search -> Z -> NodeTree -> Search * NodeTree;
  GetTotalPlayouts : Search -> Z;
  GetBestEval : Search -> F32.float * F32.float;
  GetBestMove : Search -> Move;
  ResetBestMove : Search -> Search;
  Search_Abort : Search -> Search
}.

(** ** [SelfPlayGame] *)

Section Driver.

Context {C : Collaborators}.

(** The data members of [SelfPlayGame].  [tree_[0]] and [tree_[1]] are
    shared pointers: [tree1 = None] stands for [tree_[1] == tree_[0]] (one
    tree object, every change through either handle seen by both), and
    [tree1 = Some t] for a second tree object. *)
Record SelfPlayGame : Type := mkGame {
  options_ : PlayerOptions * PlayerOptions;
  chess960_ : bool;
  tree0 : NodeTree;
  tree1 : option NodeTree;
  search_ : option Search;
  abort_ : bool;
  game_result_ : GameResult;
  min_eval_ : F32.float * F32.float;
  max_eval_ : F32.float * F32.float * F32.float;
  training_data_ : list V4TrainingData;
  move_count_ : Z;
  nodes_total_ : Z
}.

Definition set_trees (g : SelfPlayGame) (t0 : NodeTree) (t1 : option NodeTree) :=
  mkGame (options_ g) (chess960_ g) t0 t1 (search_ g) (abort_ g)
    (game_result_ g) (min_eval_ g) (max_eval_ g) (training_data_ g)
    (move_count_ g) (nodes_total_ g).
Definition set_search (g : SelfPlayGame) (s : option Search) :=
  mkGame (options_ g) (chess960_ g) (tree0 g) (tree1 g) s (abort_ g)
    (game_result_ g) (min_eval_ g) (max_eval_ g) (training_data_ g)
    (move_count_ g) (nodes_total_ g).
Definition set_abort (g : SelfPlayGame) (b : bool) :=
  mkGame (options_ g) (chess960_ g) (tree0 g) (tree1 g) (search_ g) b
    (game_result_ g) (min_eval_ g) (max_eval_ g) (training_data_ g)
    (move_count_ g) (nodes_total_ g).
Definition set_game_result (g : SelfPlayGame) (r : GameResult) :=
  mkGame (options_ g) (chess960_ g) (tree0 g) (tree1 g) (search_ g) (abort_ g)
    r (min_eval_ g) (max_eval_ g) (training_data_ g)
    (move_count_ g) (nodes_total_ g).
Definition set_evals (g : SelfPlayGame) (mn : F32.float * F32.float)
    (mx : F32.float * F32.float * F32.float) :=
  mkGame (options_ g) (chess960_ g) (tree0 g) (tree1 g) (search_ g) (abort_ g)
    (game_result_ g) mn mx (training_data_ g)
    (move_count_ g) (nodes_total_ g).
Definition set_training_data (g : SelfPlayGame) (d : list V4TrainingData) :=
  mkGame (options_ g) (chess960_ g) (tree0 g) (tree1 g) (search_ g) (abort_ g)
    (game_result_ g) (min_eval_ g) (max_eval_ g) d
    (move_count_ g) (nodes_total_ g).
Definition set_counters (g : SelfPlayGame) (moves nodes : Z) :=
  mkGame (options_ g) (chess960_ g) (tree0 g) (tree1 g) (search_ g) (abort_ g)
    (game_result_ g) (min_eval_ g) (max_eval_ g) (training_data_ g)
    moves nodes.

(** [options_[idx]] and [tree_[idx]], with [idx = blacks_move ? 1 : 0]. *)
Definition options_at (g : SelfPlayGame) (blacks : bool) : PlayerOptions :=
  if blacks then snd (options_ g) else fst (options_ g).

Definition tree_at (g : SelfPlayGame) (blacks : bool) : NodeTree :=
  if blacks then match tree1 g with Some t => t | None => tree0 g end
  else tree0 g.

(** An update of the object [tree_[idx]] points to. *)
Definition update_tree (g : SelfPlayGame) (blacks : bool) (t : NodeTree)
    : SelfPlayGame :=
  if blacks then
    match tree1 g with
    | Some _ => set_trees g (tree0 g) (Some t)
    | None => set_trees g t None
    end
  else set_trees g t (tree1 g).

(** *** Construction (lines 148-173) *)

(** Modelled from the spec: the default member initialisers of
    selfplay/game.h (not under src/) for the members the constructor does
    not name: no search, no abort, result UNDECIDED, minima at 1, maxima
    at 0, no training data, counters at 0. *)
Definition fresh_members (options : PlayerOptions * PlayerOptions)
    (chess960 : bool) (t : NodeTree) : SelfPlayGame :=
  mkGame options chess960 t None None false UNDECIDED
    (F32.one, F32.one) (F32.zero, F32.zero, F32.zero) [] 0 0.

Fixpoint replay_opening (opening : list Move) (t0 : NodeTree)
    (t1 : option NodeTree) : NodeTree * option NodeTree :=
  match opening with
  | [] => (t0, t1)
  | m :: rest =>
    replay_opening rest (MakeMove t0 m)
      (match t1 with Some t => Some (MakeMove t m) | None => None end)
  end.

Definition startPosFen (whiteNonPawns blackNonPawns : string) : string :=
  String.append whiteNonPawns
    (String.append "/pppppppp/8/8/8/8/PPPPPPPP/"
       (String.append blackNonPawns " w - - 0 1")).

Definition SelfPlayGame_new (rng : Rng) (player1 player2 : PlayerOptions)
    (shared_tree : bool) (opening : list Move) : SelfPlayGame :=
  let chess960 :=
    UCI_Chess960 (uci_options player1) || UCI_Chess960 (uci_options player2) in
  let '(whiteNonPawns, rng) := random_shuffle rng "rnbqkbnr" in
  let '(blackNonPawns, rng) := random_shuffle rng "RNBQKBNR" in
  let fen := startPosFen whiteNonPawns blackNonPawns in
  let t0 := ResetToPosition NodeTree_new fen [] in
  let t1 :=
    if shared_tree then None
    else Some (ResetToPosition NodeTree_new fen []) in
  let '(t0, t1) := replay_opening opening t0 t1 in
  set_trees (fresh_members (player1, player2) chess960 t0) t0 t1.

(** *** [GetMoves] (lines 336-354) *)

(** The [while (!moves.empty())] loop: [stack] is [moves] read from its
    back. *)
Fixpoint GetMoves_replay (chess960 : bool) (stack : list Move)
    (pos : Position) (result : list Move) : list Move :=
  match stack with
  | [] => result
  | move :: rest =>
    let move :=
      if negb chess960 then GetLegacyMove (GetBoard pos) move else move in
    let pos := Position_after pos move in
    let move := if negb (IsBlackToMove pos) then Mirror move else move in
    GetMoves_replay chess960 rest pos (result ++ [move])
  end.

Definition GetMoves (g : SelfPlayGame) : list Move :=
  let moves := MovesFromHead (tree0 g) in
  let pos := Starting (GetPositionHistory (tree0 g)) in
  GetMoves_replay (chess960_ g) (rev moves) pos [].

(** *** [GetWorstEvalForWinnerOrDraw] (lines 356-371) *)

Definition GetWorstEvalForWinnerOrDraw (g : SelfPlayGame) : F32.float :=
  let '(min0, min1) := min_eval_ g in
  let '(max0, max1, max2) := max_eval_ g in
  if ResignWDLStyle (uci_options (fst (options_ g))) then
    match game_result_ g with
    | WHITE_WON => F32.max max1 max2
    | BLACK_WON => F32.max max1 max0
    | _ => F32.max max2 max0
    end
  else
    match game_result_ g with
    | WHITE_WON => min0
    | BLACK_WON => min1
    | _ => F32.min min0 min1
    end.

(** *** [Abort] (lines 373-377) *)

Definition Abort (g : SelfPlayGame) : SelfPlayGame :=
  let g := set_abort g true in
  match search_ g with
  | Some s => set_search g (Some (Search_Abort s))
  | None => g
  end.

(** *** [WriteTrainingData] (lines 379-391) *)

Definition WriteTrainingData (g : SelfPlayGame) (writer : TrainingDataWriter)
    : TrainingDataWriter :=
  write_chunks (game_result_ g) (training_data_ g) writer.

End Driver.

(** ** [Play] (lines 175-334) *)

(** What the driver does to the outside during a ply, in program order. *)
Inductive Event : Type :=
  | EvSearch (blacks : bool) (responder : UciResponder)
             (stoppers : ChainedSearchStopper)
  | EvDiscarded (blacks : bool) (moves : list Move)
  | EvResetBestMove
  | EvMakeMove (m : Move).

(** Where a call of [Abort] from another thread lands within one iteration
    of the ply loop: before the guarded section, while the search runs, or
    after the check that follows the search. *)
Record Interleaving : Type := mkInterleaving {
  abort_before_guard : bool;
  abort_during_search : bool;
  abort_after_search : bool
}.

Definition no_abort : Interleaving := mkInterleaving false false false.

Section PlayLoop.

Context {C : Collaborators}.

(** The variables of [Play] that live across iterations, and the events
    so far. *)
Record PlayState : Type := mkPlayState {
  game : SelfPlayGame;
  blacks_move : bool;
  openingMove : list PgnMove;
  events : list Event
}.

Definition with_game (st : PlayState) (g : SelfPlayGame) : PlayState :=
  mkPlayState g (blacks_move st) (openingMove st) (events st).
Definition emit (st : PlayState) (evs : list Event) : PlayState :=
  mkPlayState (game st) (blacks_move st) (openingMove st) (events st ++ evs).

(** How one iteration of [while (!abort_)] ends. *)
Inductive LoopStep : Type :=
  | Break (st : PlayState)
  | Continue (st : PlayState)
  | Throws (msg : string) (st : PlayState)
  | AssertStops (st : PlayState)
  | RetryDiverges (st : PlayState).

Definition landed (b : bool) (g : SelfPlayGame) : SelfPlayGame :=
  if b then Abort g else g.

(** The [for] loop over the edges of the head (lines 283-292); the pair is
    [(max_n, cur_n)]. *)
Definition scan_edge (as_opponent : bool) (move : Move) (acc : Z * Z)
    (edge : Edge) : Z * Z :=
  let '(max_n, cur_n) := acc in
  let max_n := if GetN edge >? max_n then GetN edge else max_n in
  let cur_n :=
    if Move_eqb (GetMove edge as_opponent) move then GetN edge else cur_n in
  (max_n, cur_n).

Definition scan_edges (edges : list Edge) (as_opponent : bool) (move : Move)
    : Z * Z :=
  fold_left (scan_edge as_opponent move) edges (0, 0).

(** The test of lines 295-297. *)
Definition accepted (max_n cur_n minimum_allowed_visits : Z) : bool :=
  (cur_n =? max_n) || (static_cast_int cur_n >=? minimum_allowed_visits).

(** How one iteration of the [while (true)] loop of lines 281-313 ends:
    at [break] with the move, or at [ResetBestMove] with the changed search
    and what was reported meanwhile. *)
Inductive RetryStep : Type :=
  | Accepted (move : Move)
  | Retried (s : Search) (reported : list Event).

(** The body of the loop (lines 282-312).  It reads the game but never its
    [abort_] member. *)
Definition retry_iteration (g : SelfPlayGame) (blacks : bool) (s : Search)
    : RetryStep :=
  let tree := tree_at g blacks in
  let move := GetBestMove s in
  let '(max_n, cur_n) :=
    scan_edges (HeadEdges tree) (Tree_IsBlackToMove tree) move in
  if accepted max_n cur_n
       (MinimumAllowedVisits (uci_options (options_at g blacks)))
  then Accepted move
  else
    let history_copy := GetPositionHistory tree in
    let move_for_history :=
      if Tree_IsBlackToMove tree then Mirror move else move in
    let history_copy := Append history_copy move_for_history in
    let reported :=
      if GameResult_eqb (ComputeGameResult history_copy) UNDECIDED
      then [EvDiscarded blacks (GetMoves g ++ [move])]
      else [] in
    Retried (ResetBestMove s) (reported ++ [EvResetBestMove]).

(** The loop itself; [fuel] bounds the number of iterations the embedding
    follows, and [None] is the loop still running after them. *)
Fixpoint retry_loop (fuel : nat) (g : SelfPlayGame) (blacks : bool)
    (s : Search) (evs : list Event) : option (Move * Search * list Event) :=
  match fuel with
  | O => None
  | S fuel =>
    match retry_iteration g blacks s with
    | Accepted move => Some (move, s, evs)
    | Retried s reported => retry_loop fuel g blacks s (evs ++ reported)
    end
  end.

(** The quantities of lines 240-246, from the search's best evaluation
    [(q, d)]: [eval], [best_w], [best_l] and [move_number]. *)
Definition normalized_eval (q : F32.float) : F32.float :=
  F32.div (F32.add q (F32.of_int 1)) (F32.of_int 2).

Definition win_probability (q d : F32.float) : F32.float :=
  F32.div (F32.sub (F32.add q F32.one) d) F32.two.

Definition loss_probability (q d : F32.float) : F32.float :=
  F32.sub (win_probability q d) q.

Definition move_number_of (g : SelfPlayGame) : Z :=
  Z.quot (GetLength (GetPositionHistory (tree0 g))) 2 + 1.

(** The resignation test of lines 250-278: [Some r] when the game result is
    set to [r] and the loop left. *)
Definition resign_check (enable_resign : bool) (o : UciOptions)
    (blacks : bool) (move_number : Z) (eval best_w best_d best_l : F32.float)
    : option GameResult :=
  if enable_resign && (move_number >=? ResignEarliestMove o) then
    let resignpct := F32.div (ResignPercentage o) (F32.of_int 100) in
    if ResignWDLStyle o then
      let threshold := F32.sub F32.one resignpct in
      if F32.gtb best_w threshold then
        Some (if blacks then BLACK_WON else WHITE_WON)
      else if F32.gtb best_l threshold then
        Some (if blacks then WHITE_WON else BLACK_WON)
      else if F32.gtb best_d threshold then Some DRAW
      else None
    else
      if F32.ltb eval resignpct then
        Some (if blacks then WHITE_WON else BLACK_WON)
      else None
  else None.

(** [*search_] after line 216, where the pointer is never null again. *)
Definition the_search (g : SelfPlayGame) (s : Search) : Search :=
  match search_ g with Some s' => s' | None => s end.

Section Ply.

Variable assertions : bool.
Variable retry_fuel : nat.
Variables white_threads black_threads : Z.
Variables training enable_resign : bool.
Variable syzygy_tb : option SyzygyTablebase.

(** Lines 315-332: the move is determined and added to the tree(s). *)
Definition commit (inBook : bool) (s : Search) (st : PlayState) : LoopStep :=
  let g := game st in
  let blacks := blacks_move st in
  let determined :=
    if inBook then
      match openingMove st with
      | om :: _ =>
        let pgn_move := if blacks then black om else white om in
        ply_to_lc0_move assertions pgn_move
          (GetBoard (Last (GetPositionHistory (tree_at g blacks)))) blacks
      | [] => Returned (GetBestMove s)
      end
    else Returned (GetBestMove s) in
  match determined with
  | Thrown msg => Throws msg st
  | AssertionFailed => AssertStops st
  | Returned move_ =>
    let cursor :=
      match openingMove st with
      | _ :: rest => if blacks then rest else openingMove st
      | [] => []
      end in
    let g :=
      set_trees g (MakeMove (tree0 g) move_)
        (match tree1 g with
         | Some t => Some (MakeMove t move_)
         | None => None
         end) in
    Continue (mkPlayState g (negb blacks) cursor
                (events st ++ [EvMakeMove move_]))
  end.

(** Lines 230-249: the training record of the ply and the evaluation
    extrema, for the search [s] that just returned. *)
Definition record_evaluation (s : Search) (st : PlayState) : SelfPlayGame :=
  let g := game st in
  let blacks := blacks_move st in
  let best_eval := GetBestEval s in
  let g :=
    if training then
      let best_q := fst best_eval in
      let best_d := snd best_eval in
      set_training_data g
        (training_data_ g ++
         [GetV4TrainingData (tree_at g blacks) UNDECIDED
            (GetPositionHistory (tree_at g blacks)) s best_q best_d])
    else g in
  let eval := fst best_eval in
  let eval := normalized_eval eval in
  let '(min0, min1) := min_eval_ g in
  let min_eval :=
    if blacks then (min0, if F32.ltb eval min1 then eval else min1)
    else (if F32.ltb eval min0 then eval else min0, min1) in
  let best_w := win_probability (fst best_eval) (snd best_eval) in
  let best_d := snd best_eval in
  let best_l := loss_probability (fst best_eval) (snd best_eval) in
  let '(max0, max1, max2) := max_eval_ g in
  let max_eval :=
    (F32.max max0 (if blacks then best_l else best_w),
     F32.max max1 best_d,
     F32.max max2 (if blacks then best_w else best_l)) in
  set_evals g min_eval max_eval.

(** Lines 230-313: evaluation and extrema, resignation, and the retry
    loop. *)
Definition after_search (il : Interleaving) (inBook : bool) (s : Search)
    (st : PlayState) : LoopStep :=
  let blacks := blacks_move st in
  let best_eval := GetBestEval s in
  let g := record_evaluation s st in
  let eval := normalized_eval (fst best_eval) in
  let move_number := move_number_of g in
  let best_w := win_probability (fst best_eval) (snd best_eval) in
  let best_d := snd best_eval in
  let best_l := loss_probability (fst best_eval) (snd best_eval) in
  match resign_check enable_resign (uci_options (options_at g blacks))
          blacks move_number eval best_w best_d best_l with
  | Some r => Break (with_game st (set_game_result g r))
  | None =>
    let g := landed (abort_after_search il) g in
    match retry_loop retry_fuel g blacks (the_search g s) [] with
    | None => RetryDiverges (with_game st g)
    | Some (_, s, evs) =>
      commit inBook s
        (emit (with_game st (set_search g (Some s))) evs)
    end
  end.

(** Lines 184-228 of an iteration of [while (!abort_)]: either the loop
    is left, or the search has run and returned unaborted. *)
Definition begin_ply (il : Interleaving) (st : PlayState)
    : LoopStep + (bool * Search * PlayState) :=
  let g := game st in
  let blacks := blacks_move st in
  if abort_ g then inl (Break st)
  else
    let g :=
      set_game_result g
        (ComputeGameResult (GetPositionHistory (tree0 g))) in
    if negb (GameResult_eqb (game_result_ g) UNDECIDED)
    then inl (Break (with_game st g))
    else
      let inBook :=
        match openingMove st with
        | om :: _ => valid (if blacks then black om else white om)
        | [] => false
        end in
      let o := options_at g blacks in
      let g :=
        if negb (ReuseTree (uci_options o))
        then update_tree g blacks (TrimTreeAtHead (tree_at g blacks))
        else g in
      let g := landed (abort_before_guard il) g in
      (* std::lock_guard<std::mutex> lock(mutex_); *)
      if abort_ g then inl (Break (with_game st g))
      else
        let stoppers := MakeSearchStopper (search_limits o) in
        let stoppers := PopulateIntrinsicStoppers stoppers (uci_options o) in
        let responder := CallbackUciResponder blacks in
        let responder :=
          if negb (chess960_ g)
          then Chess960Transformer responder
                 (GetBoard (HeadPosition (tree_at g blacks)))
          else responder in
        let s :=
          Search_new (tree_at g blacks) responder stoppers o syzygy_tb in
        let g := set_search g (Some s) in
        let st := emit st [EvSearch blacks responder stoppers] in
        (* end of the guarded section *)
        let g := landed (abort_during_search il) g in
        let '(s, t) :=
          RunBlocking (the_search g s)
            (if blacks then black_threads else white_threads)
            (tree_at g blacks) in
        let g := update_tree (set_search g (Some s)) blacks t in
        let g :=
          set_counters g (move_count_ g + 1)
            (nodes_total_ g + GetTotalPlayouts s) in
        if abort_ g then inl (Break (with_game st g))
        else inr (inBook, s, with_game st g).

(** One iteration of [while (!abort_)] (lines 184-333). *)
Definition play_ply (il : Interleaving) (st : PlayState) : LoopStep :=
  match begin_ply il st with
  | inl stop => stop
  | inr (inBook, s, st) => after_search il inBook s st
  end.

(** The loop, followed for as many iterations as the schedule of aborts
    is long; [Continue] is returned when the schedule is used up. *)
Fixpoint Play_loop (schedule : list Interleaving) (st : PlayState)
    : LoopStep :=
  match schedule with
  | [] => Continue st
  | il :: schedule =>
    match play_ply il st with
    | Continue st => Play_loop schedule st
    | stop => stop
    end
  end.

Definition Play (schedule : list Interleaving) (g : SelfPlayGame)
    (opening : option (list PgnMove)) : LoopStep :=
  let blacks_move := Z.rem (GetPlyCount (tree0 g)) 2 =? 1 in
  let openingMovelist :=
    match opening with Some moves => moves | None => [] end in
  Play_loop schedule (mkPlayState g blacks_move openingMovelist []).

End Ply.

End PlayLoop.

(** ** A scripted instance of the collaborators *)

(** A small, fully executable instance on which the driver can be run: the
    tree is the list of the moves made, the search answers from a script
    (its state counts the calls of [ResetBestMove]). *)
Module Scripted.

Record Script : Type := mkScript {
  script_edges : list Edge;
  script_eval : F32.float * F32.float;
  script_best : nat -> Move;
  script_result : list Move -> GameResult;
  script_board : ChessBoard
}.

Definition side (played : list Move) : bool := Nat.odd (List.length played).

Definition collaborators (sc : Script) : Collaborators := {|
  NodeTree := list Move;
  PositionHistory := list Move;
  Position := list Move;
  Search := nat;
  SyzygyTablebase := unit;
  Rng := unit;
  random_shuffle := fun rng back_rank => (back_rank, rng);
  NodeTree_new := [];
  ResetToPosition := fun _ _ moves => moves;
  MakeMove := fun t m => t ++ [m];
  TrimTreeAtHead := fun t => t;
  GetPlyCount := fun t => Z.of_nat (List.length t);
  GetPositionHistory := fun t => t;
  Tree_IsBlackToMove := side;
  HeadPosition := fun t => t;
  HeadEdges := fun _ => script_edges sc;
  MovesFromHead := fun t => rev t;
  GetV4TrainingData := fun t r _ _ q d =>
    mkChunk [] (if side t then 1 else 0) 0 q d;
  ComputeGameResult := script_result sc;
  GetLength := fun h => Z.of_nat (List.length h);
  Append := fun h m => h ++ [m];
  Last := fun h => h;
  Starting := fun _ => [];
  GetBoard := fun _ => script_board sc;
  Position_after := fun p m => p ++ [m];
  IsBlackToMove := side;
  GetLegacyMove := fun _ m => m;
  PopulateIntrinsicStoppers := fun chain _ => chain;
  Search_new := fun _ _ _ _ _ => O;
  RunBlocking := fun s _ t => (s, t);
  GetTotalPlayouts := fun _ => 0;
  GetBestEval := fun _ => script_eval sc;
  GetBestMove := script_best sc;
  ResetBestMove := S;
  Search_Abort := fun s => s
|}.

Definition sq (r c : Z) : BoardSquare := mkSquare r c.
Definition mv (r1 c1 r2 c2 : Z) : Move :=
  mkMove (sq r1 c1) (sq r2 c2) PromoNone.

Definition on (s : BoardSquare) : BitBoard := fun x => BoardSquare_eqb x s.
Definition nowhere : BitBoard := fun _ => false.

(** King's pawn and king's knight openings, seen from the side to move. *)
Definition e2e4 : Move := mv 1 4 3 4.
Definition g1f3 : Move := mv 0 6 2 5.

Definition opening_board : ChessBoard :=
  mkBoard [e2e4; g1f3] (on (sq 0 6)) nowhere nowhere nowhere (on (sq 0 4))
    (on (sq 1 4)).

Definition undecided (_ : list Move) : GameResult := UNDECIDED.

(** A search whose first answer has 3 visits where the most visited move
    has 10, and whose answer after one [ResetBestMove] is that move. *)
Definition low_then_best (n : nat) : Move :=
  match n with O => g1f3 | _ => e2e4 end.

Definition two_edges : list Edge := [mkEdge 10 e2e4; mkEdge 3 g1f3].

(** The same two moves with visit counts that no longer fit an [int]. *)
Definition huge_edges : list Edge :=
  [mkEdge (2 ^ 31 + 1) e2e4; mkEdge (2 ^ 31) g1f3].

Definition script (edges : list Edge) (eval : F32.float * F32.float)
    : Script :=
  mkScript edges eval low_then_best undecided opening_board.

Definition player (pct : Z) (wdl : bool) (min_visits : Z) : PlayerOptions :=
  mkPlayer (mkUci false (F32.of_int pct) wdl 0 min_visits false)
    (mkLimits (-1) (-1) (-1)).

Definition new_game (sc : Script) (p : PlayerOptions) : @SelfPlayGame (collaborators sc) :=
  @SelfPlayGame_new (collaborators sc) tt p p true [].

Definition start (sc : Script) (p : PlayerOptions) : @PlayState (collaborators sc) :=
  @mkPlayState (collaborators sc) (new_game sc p) false [] [].

(** The example of the specification for the WDL style: q = 0.96 and
    d = 0.02, that is best_w = 0.97, best_d = 0.02 and best_l = 0.01. *)
Definition wdl_script : Script :=
  script two_edges (F32.percent 96, F32.percent 2).

(** The example of the specification for the simple style: q = -0.8, a
    normalised evaluation of 0.10. *)
Definition simple_script : Script :=
  script two_edges (F32.percent (-80), F32.percent 2).

(** The visit counts of [huge_edges], and nothing to resign about. *)
Definition huge_script : Script :=
  script huge_edges (F32.percent 0, F32.percent 2).

Definition abort_after_the_search : Interleaving :=
  mkInterleaving false false true.

(** Plies of an opening line. *)
Definition unset : PgnSquare := mkPgnSquare (-1) (-1).
Definition no_piece : PgnPiece := mkPiece Ascii.zero.

Definition san (notation : string) (p : PgnPiece) (r c : Z) : Ply :=
  mkPly false false (mkPgnSquare r c) unset p false no_piece notation true.

Definition Nf3 : Ply := san "Nf3" Piece.Knight 2 5.
Definition Bc4 : Ply := san "Bc4" Piece.Bishop 3 2.

Definition castles (short : bool) : Ply :=
  mkPly short (negb short) unset unset Piece.King false no_piece
    (if short then "O-O" else "O-O-O") true.

(** A back rank as the constructor may shuffle it: the king of the side to
    move stands on the c-file, a rook on the h-file. *)
Definition shuffled_board : ChessBoard :=
  mkBoard [mv 0 2 0 3] nowhere nowhere (on (sq 0 7)) nowhere (on (sq 0 2))
    nowhere.

(** A pawn on e7 that may promote on e8, and the ply "e8=N". *)
Definition e7e8 : Move := mv 6 4 7 4.
Definition promotion_board : ChessBoard :=
  mkBoard [e7e8] nowhere nowhere nowhere nowhere (on (sq 0 4)) (on (sq 6 4)).

Definition promotes (notation : string) (p : PgnPiece) : Ply :=
  mkPly false false (mkPgnSquare 7 4) unset Piece.Pawn true p notation true.

Definition e8N : Ply := promotes "e8=N" Piece.Knight.
Definition e8Q : Ply := promotes "e8=Q" Piece.Queen.

End Scripted.

(** ** The vocabulary of the specification *)

(** The definitions of this section follow the words of the specification,
    not the source; the properties of Part II compare the two. *)
Module Spec.

(** "mirror each candidate's coordinates if resolving from the opposing
    perspective" *)
Definition candidate (mirror : bool) (legal_move : Move) : Move :=
  if mirror then Mirror legal_move else legal_move.

(** "moved-piece type cross-checked against the piece actually occupying the
    source square": a description naming a piece kind wants that kind on
    the source square; any other letter asks for nothing. *)
Definition piece_on_source_agrees (p : PgnPiece) (board : ChessBoard)
    (source : BoardSquare) : bool :=
  if PgnPiece_eqb p Piece.Knight then get (our_knights board) source
  else if PgnPiece_eqb p Piece.Bishop then get (bishops board) source
  else if PgnPiece_eqb p Piece.Rook then get (rooks board) source
  else if PgnPiece_eqb p Piece.Queen then get (queens board) source
  else if PgnPiece_eqb p Piece.King then get (our_king board) source
  else if PgnPiece_eqb p Piece.Pawn then get (pawns board) source
  else true.

(** "optional source file/rank constraints": a negative index is no
    constraint. *)
Definition optional_matches (wanted actual : Z) : bool :=
  (wanted <? 0) || (actual =? wanted).

(** A legal move satisfies all the constraints of a description. *)
Definition satisfies_description (ply : Ply) (board : ChessBoard)
    (mirror : bool) (legal_move : Move) : bool :=
  let c := candidate mirror legal_move in
  (row (to c) =? rowIndex (toSquare ply)) &&
  (col (to c) =? colIndex (toSquare ply)) &&
  piece_on_source_agrees (piece ply) board (from legal_move) &&
  optional_matches (colIndex (fromSquare ply)) (col (from c)) &&
  optional_matches (rowIndex (fromSquare ply)) (row (from c)).

(** The promotion piece a letter stands for. *)
Definition promotion_piece (c : ascii) : option Promotion :=
  if Ascii.eqb c "Q" then Some PromoQueen
  else if Ascii.eqb c "R" then Some PromoRook
  else if Ascii.eqb c "B" then Some PromoBishop
  else if Ascii.eqb c "N" then Some PromoKnight
  else None.

(** "the king's home square on that board": the square of the back rank
    of the side to move on which the board has that side's king. *)
Definition kings_home_square (board : ChessBoard) (sq : BoardSquare) : Prop :=
  row sq = 0 /\ get (our_king board) sq = true.

(** The side a training record was taken for won, or lost, the game. *)
Definition recorded_side_won (r : GameResult) (chunk : V4TrainingData)
    : bool :=
  match r with
  | WHITE_WON => side_to_move chunk =? 0
  | BLACK_WON => negb (side_to_move chunk =? 0)
  | _ => false
  end.

Definition recorded_side_lost (r : GameResult) (chunk : V4TrainingData)
    : bool :=
  match r with
  | WHITE_WON => negb (side_to_move chunk =? 0)
  | BLACK_WON => side_to_move chunk =? 0
  | _ => false
  end.

(** A written record is the stored one with its label patched for the
    final result. *)
Definition labelled (r : GameResult) (stored written : V4TrainingData)
    : Prop :=
  features written = features stored /\
  side_to_move written = side_to_move stored /\
  best_q written = best_q stored /\
  best_d written = best_d stored /\
  (recorded_side_won r stored = true -> result written = 1) /\
  (recorded_side_lost r stored = true -> result written = -1) /\
  (recorded_side_won r stored = false ->
   recorded_side_lost r stored = false -> result written = 0) /\
  (result written = -1 \/ result written = 0 \/ result written = 1).

(** The number of limits that are set. *)
Definition limits_set (limits : SelfPlayLimits) : nat :=
  Nat.b2n (0 <=? visits limits) + Nat.b2n (0 <=? playouts limits) +
  Nat.b2n (0 <=? movetime limits).

(** "the maximum visit count among all legal continuations at the head" *)
Definition max_visits (edges : list Edge) : Z :=
  fold_right Z.max 0 (map GetN edges).

Definition is_commit (e : Event) : bool :=
  match e with EvMakeMove _ => true | _ => false end.

Definition is_retry (e : Event) : bool :=
  match e with EvResetBestMove => true | _ => false end.

Definition wrapped (r : UciResponder) : bool :=
  match r with Chess960Transformer _ _ => true | _ => false end.

End Spec.


Section SpecPlay.

Context {C : Collaborators}.

(** The state a step of the loop ends in. *)
Definition state_of (step : LoopStep) : PlayState :=
  match step with
  | Break st | Continue st | Throws _ st | AssertStops st
  | RetryDiverges st => st
  end.

(** "set result and stop the loop without committing a move": the
    iteration that began in [before] and whose search returned in
    [searched] leaves the loop with the result [verdict], the trees as the
    search left them, and nothing done to the outside but that search. *)
Definition stops_without_commit (before searched : PlayState)
    (step : LoopStep) (verdict : GameResult) : Prop :=
  exists st',
    step = Break st' /\
    game_result_ (game st') = verdict /\
    tree0 (game st') = tree0 (game searched) /\
    tree1 (game st') = tree1 (game searched) /\
    exists responder stoppers,
      events st' =
      events before ++ [EvSearch (blacks_move before) responder stoppers].

(** [GetMoves] with a conversion applied to every move before it is
    played on the position cursor. *)
Fixpoint replay_with (convert : ChessBoard -> Move -> Move)
    (stack : list Move) (pos : Position) (result : list Move) : list Move :=
  match stack with
  | [] => result
  | move :: rest =>
    let move := convert (GetBoard pos) move in
    let pos := Position_after pos move in
    let move := if IsBlackToMove pos then move else Mirror move in
    replay_with convert rest pos (result ++ [move])
  end.

(** Every search so far was given a responder that is wrapped in the
    castling transformer, or that is not, as [wrap] says. *)
Definition responders_wrapped (wrap : bool) (evs : list Event) : Prop :=
  forall blacks responder stoppers,
    In (EvSearch blacks responder stoppers) evs ->
    Spec.wrapped responder = wrap.

(** What holds of the state between two iterations: the flag is the one
    of the construction and every search got its responder wrapped, or
    not, accordingly. *)
Definition flag_kept (flag : bool) (st : PlayState) : Prop :=
  chess960_ (game st) = flag /\
  responders_wrapped (negb flag) (events st).

Definition no_search (evs : list Event) : Prop :=
  forall blacks responder stoppers,
    ~ In (EvSearch blacks responder stoppers) evs.

End SpecPlay.

(** ** What a run of the ply loop can be observed to do *)

Definition is_search (e : Event) : bool :=
  match e with EvSearch _ _ _ => true | _ => false end.

Definition is_discard (e : Event) : bool :=
  match e with EvDiscarded _ _ => true | _ => false end.

(** How many searches were created, moves committed, best moves reset and
    discarded moves reported. *)
Definition searches (evs : list Event) : nat :=
  List.length (filter is_search evs).
Definition commits (evs : list Event) : nat :=
  List.length (filter Spec.is_commit evs).
Definition resets (evs : list Event) : nat :=
  List.length (filter Spec.is_retry evs).
Definition discards (evs : list Event) : nat :=
  List.length (filter is_discard evs).

(** The side each search was created for, in program order. *)
Fixpoint search_sides (evs : list Event) : list bool :=
  match evs with
  | [] => []
  | EvSearch blacks _ _ :: rest => blacks :: search_sides rest
  | _ :: rest => search_sides rest
  end.

(** [n] sides taking turns, [b] first. *)
Fixpoint alternating (b : bool) (n : nat) : list bool :=
  match n with
  | O => []
  | S n => b :: alternating (negb b) n
  end.

(** How many of [n] turns, [b] first, are Black's. *)
Definition black_turns (b : bool) (n : nat) : nat :=
  List.length (filter (fun side => side) (alternating b n)).

Definition is_nan (x : F32.float) : bool :=
  match x with S754_nan => true | _ => false end.


Section Observations.

Context {C : Collaborators}.

(** Both tree handles are at the same position of the game: there is one
    tree, or the two trees hold the same position history. *)
Definition in_lockstep (g : SelfPlayGame) : Prop :=
  match tree1 g with
  | None => True
  | Some t => GetPositionHistory t = GetPositionHistory (tree0 g)
  end.

(** [tree_[0] == tree_[1]]. *)
Definition shares_tree (g : SelfPlayGame) : bool :=
  match tree1 g with None => true | Some _ => false end.

(** The stoppers and the responder [Play] builds for a side (lines
    203-208), before the castling transformer is put around the
    responder. *)
Definition stoppers_of (g : SelfPlayGame) (blacks : bool)
    : ChainedSearchStopper :=
  PopulateIntrinsicStoppers
    (MakeSearchStopper (search_limits (options_at g blacks)))
    (uci_options (options_at g blacks)).

Fixpoint callbacks_of (r : UciResponder) : bool :=
  match r with
  | CallbackUciResponder blacks => blacks
  | Chess960Transformer inner _ => callbacks_of inner
  end.

(** The half-move of the opening line the cursor stands on, for the side
    to move. *)
Definition book_ply (st : PlayState) : option Ply :=
  match openingMove st with
  | om :: _ => Some (if blacks_move st then black om else white om)
  | [] => None
  end.

(** What a ply does to the tree of the side to move before the move is
    made: nothing, [TrimTreeAtHead], or the search run on it. *)
Inductive searched_from (t : NodeTree) : NodeTree -> Prop :=
  | searched_not : searched_from t t
  | searched_trimmed t' :
      searched_from t t' -> searched_from t (TrimTreeAtHead t')
  | searched_run t' s threads :
      searched_from t t' ->
      searched_from t (snd (RunBlocking s threads t')).


(** No evaluation extremum of the game is a NaN. *)
Definition extrema_are_numbers (g : SelfPlayGame) : Prop :=
  is_nan (fst (min_eval_ g)) = false /\
  is_nan (snd (min_eval_ g)) = false /\
  is_nan (fst (fst (max_eval_ g))) = false /\
  is_nan (snd (fst (max_eval_ g))) = false /\
  is_nan (snd (max_eval_ g)) = false.

(** From [g] to [g'] no minimum went up and no maximum went down. *)
Definition extrema_widened (g g' : SelfPlayGame) : Prop :=
  F32.leb (fst (min_eval_ g')) (fst (min_eval_ g)) = true /\
  F32.leb (snd (min_eval_ g')) (snd (min_eval_ g)) = true /\
  F32.leb (fst (fst (max_eval_ g))) (fst (fst (max_eval_ g'))) = true /\
  F32.leb (snd (fst (max_eval_ g))) (snd (fst (max_eval_ g'))) = true /\
  F32.leb (snd (max_eval_ g)) (snd (max_eval_ g')) = true.

End Observations.

(** ** Version numbers (version.cc) *)

(** [int] is 32 bits wide; an [int] operation whose result does not fit
    has undefined behaviour. *)
Definition int_fits (z : Z) : bool := (- 2 ^ 31 <=? z) && (z <? 2 ^ 31).

(** [GetVersionInt] (version.cc, lines 3-5).  The sum is computed in [int]
    and converted to [std::uint32_t] by the [return]; [None] stands for
    the undefined behaviour of an [int] overflow. *)
Definition GetVersionInt (major minor patch : Z) : option Z :=
  let a := major * 1000000 in
  let b := minor * 1000 in
  let c := a + b in
  let d := c + patch in
  if int_fits a && int_fits b && int_fits c && int_fits d
  then Some (d mod 2 ^ 32)
  else None.

(** [std::to_string(int)] of the C++ standard library: the decimal digits,
    after a minus sign for a negative number. *)
Definition to_string (z : Z) : string :=
  DecimalString.NilZero.string_of_int (Z.to_int z).

(** The character [c] occurs in [s]. *)
Fixpoint occurs (c : ascii) (s : string) : bool :=
  match s with
  | EmptyString => false
  | String a s => Ascii.eqb a c || occurs c s
  end.

(** [GetVersionStr] (version.cc, lines 7-12). *)
Definition GetVersionStr (major minor patch : Z) (release : bool) : string :=
  let v :=
    String.append
      (String.append
         (String.append (String.append (to_string major) ".")
            (to_string minor)) ".")
      (to_string patch) in
  if release then v else String.append v "-dev".

(** The order of version triples: major first, then minor, then patch. *)
Definition version_lt (v w : Z * Z * Z) : Prop :=
  let '(major, minor, patch) := v in
  let '(major', minor', patch') := w in
  major < major' \/
  (major = major' /\ (minor < minor' \/ (minor = minor' /\ patch < patch'))).


(** ** More scripted samples *)

Module Samples.
(** The half-move "Nf3" for White, with nothing for Black. *)
Definition knight_first : list PgnMove :=
  [mkPgnMove Scripted.Nf3 Scripted.Nf3].
Definition in_book (sc : Scripted.Script) (p : PlayerOptions)
    (book : list PgnMove) : @PlayState (Scripted.collaborators sc) :=
  @mkPlayState (Scripted.collaborators sc) (Scripted.new_game sc p) false
    book [].
(** Two knights, on d2 and g1, that can both go to f3; the move of the
    knight on d2 is generated first. *)
Definition d2f3 : Move := Scripted.mv 1 3 2 5.
Definition two_knights_board : ChessBoard :=
  mkBoard [d2f3; Scripted.g1f3]
    (fun x => Scripted.on (Scripted.sq 1 3) x || Scripted.on (Scripted.sq 0 6) x)
    Scripted.nowhere Scripted.nowhere Scripted.nowhere
    (Scripted.on (Scripted.sq 0 4)) Scripted.nowhere.
(** A search that answers g1-f3 whatever the number of resets. *)
Definition stubborn (n : nat) : Move := Scripted.g1f3.
Definition stubborn_script : Scripted.Script :=
  Scripted.mkScript Scripted.two_edges (F32.percent 0, F32.percent 2)
    stubborn Scripted.undecided Scripted.opening_board.
(** A game with two trees. *)
Definition two_trees (sc : Scripted.Script) (p : PlayerOptions)
    : @SelfPlayGame (Scripted.collaborators sc) :=
  @SelfPlayGame_new (Scripted.collaborators sc) tt p p false [].
(** A search whose evaluation is a NaN. *)
Definition nan_script : Scripted.Script :=
  Scripted.script Scripted.two_edges (S754_nan, F32.percent 2).
Definition abort_during_the_search : Interleaving :=
  mkInterleaving false true false.
(** A side that may resign from move 10 on at a resign percentage of 20. *)
Definition patient_player : PlayerOptions :=
  mkPlayer (mkUci false (F32.of_int 20) false 10 0 false)
    (mkLimits (-1) (-1) (-1)).
(** The half-move "e4" and opening lines that begin with it, or with a
    bishop move that no legal move satisfies. *)
Definition e4 : Ply := Scripted.san "e4" Piece.Pawn 3 4.
Definition kings_pawn : list PgnMove := [mkPgnMove e4 e4].
Definition bishop_first : list PgnMove := [mkPgnMove Scripted.Bc4 e4].
End Samples.

(* ================================================================== *)
(** * Part II: properties                                              *)
(* ================================================================== *)

(** ** binary32: signs through rounding *)

Module F32Facts.

Import F32.
















(** *** Magnitudes through rounding *)


Lemma Zdigits2_nonneg (m : Z) : 0 <= Zdigits2 m.
Proof. destruct m; cbn; lia. Qed.



















End F32Facts.

(** ** Training data *)

Section TrainingData.

Lemma patch_chunk_labelled (r : GameResult) (chunk : V4TrainingData) :
  Spec.labelled r chunk (patch_chunk r chunk).
Proof.
  unfold Spec.labelled, Spec.recorded_side_won, Spec.recorded_side_lost,
    patch_chunk.
  destruct r, (side_to_move chunk =? 0); cbn;
    repeat split; intros; try discriminate; auto.
Qed.

Lemma write_chunks_appends (r : GameResult) (data : list V4TrainingData) :
  forall writer,
    write_chunks r data writer = writer ++ map (patch_chunk r) data.
Proof.
  induction data as [|chunk rest IH]; intros writer; cbn [write_chunks map].
  - now rewrite app_nil_r.
  - rewrite IH. unfold WriteChunk. now rewrite <- app_assoc.
Qed.

(** C9.  [WriteTrainingData] hands every stored record, in order, to the
    writer, changed only in its outcome label: 1 when the side the record
    was taken for won the game, -1 when it lost, 0 otherwise; a written
    label is always -1, 0 or 1. *)
Theorem write_training_data_labels {C : Collaborators}
    (g : SelfPlayGame) (writer : TrainingDataWriter) :
  exists written,
    WriteTrainingData g writer = writer ++ written /\
    Forall2 (Spec.labelled (game_result_ g)) (training_data_ g) written.
Proof.
  exists (map (patch_chunk (game_result_ g)) (training_data_ g)).
  split; [apply write_chunks_appends|].
  induction (training_data_ g) as [|chunk rest IH]; cbn [map];
    constructor; auto using patch_chunk_labelled.
Qed.

End TrainingData.

(** ** The stopper factory *)

Section StopperFactory.

Lemma ShouldStop_exists {Stats : Type}
    (signals : SearchStopper -> Stats -> bool)
    (chain : ChainedSearchStopper) (stats : Stats) :
  ShouldStop Stats signals chain stats = true <->
  exists s, In s chain /\ signals s stats = true.
Proof.
  induction chain as [|s rest IH]; cbn [ShouldStop In].
  - split; [discriminate | intros (s & [] & _)].
  - destruct (signals s stats) eqn:Hs.
    + split; eauto.
    + rewrite IH. split.
      * intros (s' & Hin & Hs'). eauto.
      * intros (s' & [Heq|Hin] & Hs'); [congruence | eauto].
Qed.

(** C5.  The factory builds the composite with one sub-stopper for each
    limit that is set (not negative) and none for the others; the
    composite signals exactly when one of its sub-stoppers does; with the
    three limits unset it is empty and never signals. *)
Theorem make_search_stopper_composite (limits : SelfPlayLimits) :
  (forall s,
      In s (MakeSearchStopper limits) <->
      (s = VisitsStopper (visits limits) /\ 0 <= visits limits) \/
      (s = PlayoutsStopper (playouts limits) /\ 0 <= playouts limits) \/
      (s = TimeLimitStopper (movetime limits) /\ 0 <= movetime limits)) /\
  List.length (MakeSearchStopper limits) = Spec.limits_set limits /\
  (forall (Stats : Type) (signals : SearchStopper -> Stats -> bool) stats,
      ShouldStop Stats signals (MakeSearchStopper limits) stats = true <->
      exists s, In s (MakeSearchStopper limits) /\ signals s stats = true) /\
  (visits limits < 0 -> playouts limits < 0 -> movetime limits < 0 ->
   MakeSearchStopper limits = [] /\
   forall (Stats : Type) (signals : SearchStopper -> Stats -> bool) stats,
     ShouldStop Stats signals (MakeSearchStopper limits) stats = false).
Proof.
  destruct limits as [v p t].
  unfold MakeSearchStopper, AddStopper, Spec.limits_set; cbn [visits playouts movetime].
  rewrite !Z.geb_leb.
  repeat split.
  - destruct (Z.leb_spec 0 v), (Z.leb_spec 0 p), (Z.leb_spec 0 t); cbn;
      intuition (try lia; auto).
  - destruct (Z.leb_spec 0 v), (Z.leb_spec 0 p), (Z.leb_spec 0 t); cbn;
      intuition (subst; try lia; auto).
  - destruct (0 <=? v), (0 <=? p), (0 <=? t); reflexivity.
  - apply ShouldStop_exists.
  - apply ShouldStop_exists.
  - destruct (Z.leb_spec 0 v), (Z.leb_spec 0 p), (Z.leb_spec 0 t);
      try lia; reflexivity.
  - intros Stats signals stats.
    destruct (Z.leb_spec 0 v), (Z.leb_spec 0 p), (Z.leb_spec 0 t);
      try lia; reflexivity.
Qed.

Lemma make_search_stopper_composite_witness :
  MakeSearchStopper (mkLimits (-1) (-1) (-1)) = [] /\
  forall (Stats : Type) (signals : SearchStopper -> Stats -> bool) stats,
    ShouldStop Stats signals (MakeSearchStopper (mkLimits (-1) (-1) (-1)))
      stats = false.
Proof.
  apply (make_search_stopper_composite (mkLimits (-1) (-1) (-1)));
    cbn; lia.
Defined.

(** The example of the specification: visits = 100 and movetime = 500. *)
Example visits_and_movetime :
  MakeSearchStopper (mkLimits 100 (-1) 500) =
  [VisitsStopper 100; TimeLimitStopper 500].
Proof. reflexivity. Qed.

End StopperFactory.

(** ** The move resolver *)

Section ResolverFacts.

Ltac clash :=
  repeat match goal with
    | H : Ascii.eqb _ _ = true |- _ => apply Ascii.eqb_eq in H
    end;
  congruence.

(** The skip condition of lines 63-68 is the failure of the cross-check of
    the moved piece against the source square. *)
Lemma piece_mismatch_spec (p : PgnPiece) (board : ChessBoard)
    (source : BoardSquare) :
  piece_mismatch p
    (get (our_knights board) source) (get (bishops board) source)
    (get (rooks board) source) (get (queens board) source)
    (get (our_king board) source) (get (pawns board) source) =
  negb (Spec.piece_on_source_agrees p board source).
Proof.
  unfold piece_mismatch, Spec.piece_on_source_agrees, PgnPiece_eqb.
  destruct p as [c]; cbn [letter Piece.Knight Piece.Bishop Piece.Rook
                           Piece.Queen Piece.King Piece.Pawn].
  destruct (Ascii.eqb c "N") eqn:HN; destruct (Ascii.eqb c "B") eqn:HB;
    destruct (Ascii.eqb c "R") eqn:HR; destruct (Ascii.eqb c "Q") eqn:HQ;
    destruct (Ascii.eqb c "K") eqn:HK; destruct (Ascii.eqb c "P") eqn:HP;
    try clash; cbn;
    repeat match goal with
      | |- context [get ?b source] => destruct (get b source)
      end; reflexivity.
Qed.

Lemma optional_reject (wanted actual : Z) :
  (wanted >=? 0) && negb (actual =? wanted) =
  negb (Spec.optional_matches wanted actual).
Proof.
  unfold Spec.optional_matches. rewrite Z.geb_leb.
  destruct (Z.leb_spec 0 wanted), (Z.ltb_spec wanted 0); try lia;
    destruct (actual =? wanted); reflexivity.
Qed.

Variable assertions : bool.

(** One turn of the [for] loop, read through the specification's words. *)
Lemma resolve_candidates_cons (ply : Ply) (board : ChessBoard)
    (mirror : bool) (legal_move : Move) (rest : list Move) :
  resolve_candidates assertions ply board mirror (legal_move :: rest) =
  if Spec.satisfies_description ply board mirror legal_move then
    if promotion ply then
      let '(m, reached_assert) :=
        promotion_switch (letter (promoted ply))
          (Spec.candidate mirror legal_move) in
      if reached_assert && assertions then AssertionFailed else Returned m
    else Returned (Spec.candidate mirror legal_move)
  else resolve_candidates assertions ply board mirror rest.
Proof.
  cbn [resolve_candidates].
  unfold Spec.satisfies_description.
  rewrite piece_mismatch_spec, !optional_reject.
  fold (Spec.candidate mirror legal_move).
  destruct (_ =? rowIndex (toSquare ply)),
           (_ =? colIndex (toSquare ply)); cbn [andb]; try reflexivity.
  destruct (Spec.piece_on_source_agrees _ _ _); cbn [andb negb];
    try reflexivity.
  destruct (Spec.optional_matches (colIndex _) _); cbn [andb negb];
    try reflexivity.
  destruct (Spec.optional_matches (rowIndex _) _); cbn [andb negb];
    reflexivity.
Qed.

Lemma resolve_candidates_unmatched (ply : Ply) (board : ChessBoard)
    (mirror : bool) (candidates : list Move) :
  (forall lm, In lm candidates ->
              Spec.satisfies_description ply board mirror lm = false) ->
  resolve_candidates assertions ply board mirror candidates =
  Thrown (unrecognized ply).
Proof.
  induction candidates as [|lm rest IH]; intros Hnone.
  - reflexivity.
  - rewrite resolve_candidates_cons, (Hnone lm) by now left.
    apply IH. intros lm' Hin. apply Hnone. now right.
Qed.

Lemma promotion_switch_squares (c : ascii) (m : Move) :
  from (fst (promotion_switch c m)) = from m /\
  to (fst (promotion_switch c m)) = to m.
Proof.
  unfold promotion_switch.
  repeat match goal with
    | |- context [if ?b then _ else _] => destruct b
    end; split; reflexivity.
Qed.

Lemma resolve_candidates_returned (ply : Ply) (board : ChessBoard)
    (mirror : bool) (candidates : list Move) (m : Move) :
  resolve_candidates assertions ply board mirror candidates = Returned m ->
  exists lm,
    In lm candidates /\
    Spec.satisfies_description ply board mirror lm = true /\
    from m = from (Spec.candidate mirror lm) /\
    to m = to (Spec.candidate mirror lm).
Proof.
  induction candidates as [|lm rest IH].
  - discriminate.
  - rewrite resolve_candidates_cons.
    destruct (Spec.satisfies_description ply board mirror lm) eqn:Hsat.
    + intros Hret. exists lm. split; [now left|]. split; [exact Hsat|].
      destruct (promotion ply).
      * pose proof (promotion_switch_squares (letter (promoted ply))
                      (Spec.candidate mirror lm)) as [Hf Ht].
        destruct (promotion_switch _ _) as [m' reached].
        destruct (reached && assertions); inversion Hret; subst.
        cbn [fst] in Hf, Ht. now split.
      * inversion Hret. now split.
    + intros Hret. destruct (IH Hret) as (lm' & Hin & Hrest).
      exists lm'. split; [now right | exact Hrest].
Qed.

(** C6.  For a description that is no castling: when no legal move of the
    board satisfies its constraints the resolver throws the
    unrecognized-move error, whose message ends in the original notation;
    and a move it returns is always a legal move (seen from the
    description's side) that satisfies every constraint. *)
Theorem resolver_unmatched_fails (ply : Ply) (board : ChessBoard)
    (mirror : bool) :
  isShortCastle ply = false -> isLongCastle ply = false ->
  ((forall lm, In lm (GenerateLegalMoves board) ->
               Spec.satisfies_description ply board mirror lm = false) ->
   ply_to_lc0_move assertions ply board mirror =
   Thrown (String.append "Didn't understood move: " (str ply))) /\
  (forall m,
      ply_to_lc0_move assertions ply board mirror = Returned m ->
      exists lm,
        In lm (GenerateLegalMoves board) /\
        Spec.satisfies_description ply board mirror lm = true /\
        from m = from (Spec.candidate mirror lm) /\
        to m = to (Spec.candidate mirror lm)).
Proof.
  intros Hshort Hlong. unfold ply_to_lc0_move.
  rewrite Hshort, Hlong. cbn [orb]. split.
  - apply resolve_candidates_unmatched.
  - apply resolve_candidates_returned.
Qed.

End ResolverFacts.

Lemma resolver_unmatched_fails_witness :
  ply_to_lc0_move true Scripted.Bc4 Scripted.opening_board false =
  Thrown "Didn't understood move: Bc4".
Proof.
  apply (resolver_unmatched_fails true Scripted.Bc4 Scripted.opening_board false);
    try reflexivity.
  intros lm [<-|[<-|[]]]; reflexivity.
Defined.

(** A description that one legal move satisfies is resolved to it. *)
Example resolves_Nf3 :
  ply_to_lc0_move true Scripted.Nf3 Scripted.opening_board false =
  Returned Scripted.g1f3.
Proof. reflexivity. Qed.

(** *** Castling *)

(** C7, as stated, fails.  On a board whose back rank was shuffled so that
    the king of the side to move stands on c1, the short-castling ply is
    resolved to a move that leaves from e1, where that board has no king. *)
Lemma castling_not_from_kings_square :
  Spec.kings_home_square Scripted.shuffled_board (mkSquare 0 2) /\
  exists m,
    ply_to_lc0_move true (Scripted.castles true) Scripted.shuffled_board false
    = Returned m /\
    from m = mkSquare 0 4 /\
    ~ Spec.kings_home_square Scripted.shuffled_board (from m).
Proof.
  split; [split; reflexivity|].
  eexists. split; [reflexivity|]. split; [reflexivity|].
  intros [_ Hking]. discriminate Hking.
Qed.

(** C7, amended.  A castle-flagged ply is resolved, whatever the board and
    its legal moves, to the move from file 4 (the e-file) to file 7 (short)
    or file 0 (long) on rank 0, or rank 7 when mirrored: the squares are
    constants of the resolver and the board is not consulted. *)
Theorem castling_resolves_to_fixed_squares (assertions : bool) (ply : Ply)
    (board : ChessBoard) (mirror : bool) :
  isShortCastle ply || isLongCastle ply = true ->
  let rank := if mirror then 7 else 0 in
  let file_to := if isShortCastle ply then 7 else 0 in
  ply_to_lc0_move assertions ply board mirror =
  Returned (mkMove (mkSquare rank 4) (mkSquare rank file_to) PromoNone) /\
  forall board',
    ply_to_lc0_move assertions ply board' mirror =
    ply_to_lc0_move assertions ply board mirror.
Proof.
  intros Hcastle. unfold ply_to_lc0_move. rewrite Hcastle.
  split; [reflexivity | intros board'; reflexivity].
Qed.

Lemma castling_resolves_to_fixed_squares_witness :
  ply_to_lc0_move true (Scripted.castles false) Scripted.shuffled_board true =
  Returned (mkMove (mkSquare 7 4) (mkSquare 7 0) PromoNone).
Proof.
  apply (castling_resolves_to_fixed_squares true (Scripted.castles false)
           Scripted.shuffled_board true).
  reflexivity.
Defined.

(** *** Promotions *)

(** The three cases of the promotion switch that end in [break]. *)
Lemma promotion_switch_breaks (c : ascii) (m : Move) :
  snd (promotion_switch c m) = false <->
  c = "Q"%char \/ c = "R"%char \/ c = "B"%char.
Proof.
  unfold promotion_switch.
  destruct (Ascii.eqb_spec c "Q"); [subst; cbn; tauto|].
  destruct (Ascii.eqb_spec c "R"); [subst; cbn; tauto|].
  destruct (Ascii.eqb_spec c "B"); [subst; cbn; tauto|].
  destruct (Ascii.eqb_spec c "N"); cbn; intuition congruence.
Qed.

(** Every one of the four letters has its piece set on the move. *)
Lemma promotion_switch_sets (c : ascii) (m : Move) (p : Promotion) :
  Spec.promotion_piece c = Some p ->
  fst (promotion_switch c m) = SetPromotion m p.
Proof.
  unfold Spec.promotion_piece, promotion_switch.
  repeat match goal with
    | |- context [Ascii.eqb c ?x] => destruct (Ascii.eqb c x)
    end; intros H; inversion H; reflexivity.
Qed.

(** C8, the failing input.  The ply "e8=N" matches the legal move e7-e8; the
    switch sets the knight and, for want of a [break], goes on to the
    [default] label: in a build with assertions the resolver stops at
    [assert(false)] where the queen promotion of the same pawn returns. *)
Theorem knight_promotion_reaches_assert :
  Spec.satisfies_description Scripted.e8N Scripted.promotion_board false
    Scripted.e7e8 = true /\
  promotion_switch "N" Scripted.e7e8 =
    (SetPromotion Scripted.e7e8 PromoKnight, true) /\
  ply_to_lc0_move true Scripted.e8N Scripted.promotion_board false =
    AssertionFailed /\
  ply_to_lc0_move true Scripted.e8Q Scripted.promotion_board false =
    Returned (SetPromotion Scripted.e7e8 PromoQueen).
Proof. repeat split. Qed.

(** ** The ply loop *)

Section PlayFacts.

Context {C : Collaborators}.

(** *** What the helpers keep *)

Lemma landed_abort (b : bool) (g : SelfPlayGame) :
  abort_ (landed b g) = abort_ g || b.
Proof.
  destruct b; cbn; [|now rewrite orb_false_r].
  unfold Abort. destruct (search_ (set_abort g true)); cbn;
    now rewrite orb_true_r.
Qed.

Lemma landed_members (b : bool) (g : SelfPlayGame) :
  options_ (landed b g) = options_ g /\
  chess960_ (landed b g) = chess960_ g /\
  tree0 (landed b g) = tree0 g /\
  tree1 (landed b g) = tree1 g /\
  game_result_ (landed b g) = game_result_ g.
Proof.
  destruct b; cbn; [|tauto].
  unfold Abort. destruct (search_ (set_abort g true)); cbn; tauto.
Qed.

Lemma landed_search (b : bool) (g : SelfPlayGame) (s : Search) :
  search_ g = Some s ->
  the_search (landed b g) s = if b then Search_Abort s else s.
Proof.
  intros Hs. unfold the_search. destruct b; cbn.
  - unfold Abort. cbn. rewrite Hs. reflexivity.
  - now rewrite Hs.
Qed.

Lemma update_tree_members (g : SelfPlayGame) (blacks : bool) (t : NodeTree) :
  options_ (update_tree g blacks t) = options_ g /\
  chess960_ (update_tree g blacks t) = chess960_ g /\
  abort_ (update_tree g blacks t) = abort_ g /\
  search_ (update_tree g blacks t) = search_ g /\
  game_result_ (update_tree g blacks t) = game_result_ g.
Proof.
  unfold update_tree. destruct blacks, (tree1 g); cbn; tauto.
Qed.

(** *** The retry loop *)







(** The move the loop leaves with is the best move of the search it
    leaves with. *)
Lemma retry_loop_move (fuel : nat) (g : SelfPlayGame) (blacks : bool) :
  forall s evs move s' evs',
    retry_loop fuel g blacks s evs = Some (move, s', evs') ->
    move = GetBestMove s'.
Proof.
  induction fuel as [|fuel IH]; intros s evs move s' evs'; cbn [retry_loop].
  - discriminate.
  - destruct (retry_iteration g blacks s) as [m|s1 reported] eqn:Hit.
    + intros H. inversion H; subst.
      unfold retry_iteration in Hit.
      destruct (scan_edges _ _ _) as [mx cur].
      destruct (accepted _ _ _); now inversion Hit.
    + apply IH.
Qed.

(** *** From the top of an iteration to the end of the search *)

Section Iteration.

Variable assertions : bool.
Variable retry_fuel : nat.
Variables white_threads black_threads : Z.
Variable training : bool.
Variable syzygy_tb : option SyzygyTablebase.

Lemma begin_ply_searched (il : Interleaving) (st st1 : PlayState)
    (inBook : bool) (s : Search) :
  begin_ply white_threads black_threads syzygy_tb il st =
  inr (inBook, s, st1) ->
  abort_ (game st1) = false /\
  search_ (game st1) = Some s /\
  blacks_move st1 = blacks_move st /\
  openingMove st1 = openingMove st /\
  options_ (game st1) = options_ (game st) /\
  chess960_ (game st1) = chess960_ (game st) /\
  exists responder stoppers,
    events st1 =
    events st ++ [EvSearch (blacks_move st) responder stoppers] /\
    Spec.wrapped responder = negb (chess960_ (game st)).
Proof.
  unfold begin_ply.
  destruct (abort_ (game st)); [discriminate|].
  destruct (negb (GameResult_eqb _ UNDECIDED)); [discriminate|].
  match goal with
  | |- context [landed (abort_before_guard il) ?g] => set (g1 := g)
  end.
  destruct (abort_ (landed (abort_before_guard il) g1)); [discriminate|].
  match goal with
  | |- context [RunBlocking ?a ?b ?c] =>
      destruct (RunBlocking a b c) as [s' t]
  end.
  match goal with
  | |- context [abort_ ?g] => destruct (abort_ g) eqn:Habort
  end; [discriminate|].
  intros H. inversion H; subst; clear H. cbn [game with_game].
  split; [exact Habort|].
  assert (Hg1 : options_ g1 = options_ (game st) /\
                chess960_ g1 = chess960_ (game st)).
  { subst g1.
    destruct (negb (ReuseTree _)); [|split; reflexivity].
    destruct (update_tree_members
                (set_game_result (game st)
                   (ComputeGameResult
                      (GetPositionHistory (tree0 (game st)))))
                (blacks_move st)
                (TrimTreeAtHead
                   (tree_at
                      (set_game_result (game st)
                         (ComputeGameResult
                            (GetPositionHistory (tree0 (game st)))))
                      (blacks_move st))))
      as (Ho & Hc & _).
    rewrite Ho, Hc. split; reflexivity. }
  destruct Hg1 as [Ho1 Hc1].
  destruct (landed_members (abort_before_guard il) g1)
    as (Ho2 & Hc2 & _).
  match goal with
  | |- context [update_tree ?g ?b ?t] =>
      destruct (update_tree_members g b t) as (Ho3 & Hc3 & _ & Hs3 & _)
  end.
  match goal with
  | Hs3 : context [landed (abort_during_search il) ?g] |- _ =>
      destruct (landed_members (abort_during_search il) g)
        as (Ho4 & Hc4 & _)
  end.
  cbn [search_ options_ chess960_ set_counters set_search blacks_move
       openingMove events emit with_game] in *.
  repeat split.
  - exact Hs3.
  - congruence.
  - congruence.
  - do 2 eexists. split; [reflexivity|].
    rewrite Hc2, Hc1. destruct (chess960_ (game st)); reflexivity.
Qed.

(** With the game undecided and no abort before or during the search, the
    iteration does reach the end of the search. *)
Lemma begin_ply_reaches_search (il : Interleaving) (st : PlayState) :
  abort_ (game st) = false ->
  ComputeGameResult (GetPositionHistory (tree0 (game st))) = UNDECIDED ->
  abort_before_guard il = false -> abort_during_search il = false ->
  exists inBook s st1,
    begin_ply white_threads black_threads syzygy_tb il st =
    inr (inBook, s, st1).
Proof.
  intros Habort Hresult Hguard Hsearch. unfold begin_ply.
  rewrite Habort. cbn [game_result_ set_game_result].
  rewrite Hresult, Hguard, Hsearch. cbn [GameResult_eqb negb landed].
  match goal with
  | |- context [abort_ ?g] =>
      replace (abort_ g) with false
  end.
  2:{ destruct (negb (ReuseTree _)); [|now rewrite <- Habort].
      match goal with
      | |- _ = abort_ (update_tree ?g ?b ?t) =>
          destruct (update_tree_members g b t) as (_ & _ & Ha & _)
      end.
      rewrite Ha. now rewrite <- Habort. }
  match goal with
  | |- context [RunBlocking ?a ?b ?c] =>
      destruct (RunBlocking a b c) as [s' t]
  end.
  match goal with
  | |- context [abort_ ?g] => replace (abort_ g) with false
  end.
  - do 3 eexists. reflexivity.
  - cbn [abort_ set_counters].
    match goal with
    | |- _ = abort_ (update_tree ?g ?b ?t) =>
        destruct (update_tree_members g b t) as (_ & _ & Ha & _)
    end.
    rewrite Ha. cbn [abort_ set_search].
    destruct (negb (ReuseTree _)); [|now rewrite <- Habort].
    match goal with
    | |- _ = abort_ (update_tree ?g ?b ?t) =>
        destruct (update_tree_members g b t) as (_ & _ & Ha' & _)
    end.
    rewrite Ha'. now rewrite <- Habort.
Qed.

(** The bookkeeping of lines 230-249 touches the training data and the
    extrema only. *)
Lemma record_evaluation_members (s : Search) (st : PlayState) :
  let g := record_evaluation training s st in
  options_ g = options_ (game st) /\
  chess960_ g = chess960_ (game st) /\
  tree0 g = tree0 (game st) /\
  tree1 g = tree1 (game st) /\
  search_ g = search_ (game st) /\
  abort_ g = abort_ (game st).
Proof.
  unfold record_evaluation.
  destruct training; cbn [min_eval_ max_eval_ set_training_data];
    destruct (min_eval_ (game st)) as [min0 min1];
    destruct (max_eval_ (game st)) as [[max0 max1] max2];
    cbn; tauto.
Qed.

Lemma resign_check_recorded (enable_resign : bool) (s : Search)
    (st : PlayState) (eval w d l : F32.float) :
  let g := record_evaluation training s st in
  resign_check enable_resign (uci_options (options_at g (blacks_move st)))
    (blacks_move st) (move_number_of g) eval w d l =
  resign_check enable_resign
    (uci_options (options_at (game st) (blacks_move st)))
    (blacks_move st) (move_number_of (game st)) eval w d l.
Proof.
  intros g.
  destruct (record_evaluation_members s st) as (Ho & _ & Ht & _).
  fold g in Ho, Ht. unfold options_at, move_number_of.
  now rewrite Ho, Ht.
Qed.

Lemma after_search_resigns (enable_resign : bool) (il : Interleaving)
    (inBook : bool) (s : Search) (st : PlayState) (r : GameResult) :
  resign_check enable_resign
    (uci_options (options_at (game st) (blacks_move st))) (blacks_move st)
    (move_number_of (game st))
    (normalized_eval (fst (GetBestEval s)))
    (win_probability (fst (GetBestEval s)) (snd (GetBestEval s)))
    (snd (GetBestEval s))
    (loss_probability (fst (GetBestEval s)) (snd (GetBestEval s)))
  = Some r ->
  exists st',
    after_search assertions retry_fuel training enable_resign il inBook s st
    = Break st' /\
    game_result_ (game st') = r /\
    tree0 (game st') = tree0 (game st) /\
    tree1 (game st') = tree1 (game st) /\
    events st' = events st.
Proof.
  intros Hcheck. unfold after_search.
  rewrite resign_check_recorded, Hcheck.
  destruct (record_evaluation_members s st) as (_ & _ & Ht0 & Ht1 & _).
  eexists. split; [reflexivity|]. cbn. auto.
Qed.

Lemma after_search_no_resign (il : Interleaving) (inBook : bool)
    (s : Search) (st : PlayState) :
  resign_check true
    (uci_options (options_at (game st) (blacks_move st))) (blacks_move st)
    (move_number_of (game st))
    (normalized_eval (fst (GetBestEval s)))
    (win_probability (fst (GetBestEval s)) (snd (GetBestEval s)))
    (snd (GetBestEval s))
    (loss_probability (fst (GetBestEval s)) (snd (GetBestEval s)))
  = None ->
  after_search assertions retry_fuel training true il inBook s st =
  after_search assertions retry_fuel training false il inBook s st.
Proof.
  intros Hcheck. unfold after_search.
  rewrite resign_check_recorded, Hcheck. reflexivity.
Qed.

Lemma play_ply_searched (enable_resign : bool) (il : Interleaving)
    (st st1 : PlayState) (inBook : bool) (s : Search) :
  begin_ply white_threads black_threads syzygy_tb il st =
  inr (inBook, s, st1) ->
  play_ply assertions retry_fuel white_threads black_threads training
    enable_resign syzygy_tb il st =
  after_search assertions retry_fuel training enable_resign il inBook s st1.
Proof. intros H. unfold play_ply. now rewrite H. Qed.

Lemma resigns_without_commit (enable_resign : bool) (il : Interleaving)
    (st st1 : PlayState) (inBook : bool) (s : Search) (r : GameResult) :
  begin_ply white_threads black_threads syzygy_tb il st =
  inr (inBook, s, st1) ->
  resign_check enable_resign
    (uci_options (options_at (game st1) (blacks_move st1)))
    (blacks_move st1) (move_number_of (game st1))
    (normalized_eval (fst (GetBestEval s)))
    (win_probability (fst (GetBestEval s)) (snd (GetBestEval s)))
    (snd (GetBestEval s))
    (loss_probability (fst (GetBestEval s)) (snd (GetBestEval s)))
  = Some r ->
  stops_without_commit st st1
    (play_ply assertions retry_fuel white_threads black_threads training
       enable_resign syzygy_tb il st) r.
Proof.
  intros Hbegin Hcheck.
  rewrite (play_ply_searched _ _ _ _ _ _ Hbegin).
  destruct (after_search_resigns _ il inBook _ _ _ Hcheck)
    as (st' & Hstep & Hr & Ht0 & Ht1 & Hev).
  destruct (begin_ply_searched _ _ _ _ _ Hbegin)
    as (_ & _ & _ & _ & _ & _ & responder & stoppers & Hev1 & _).
  exists st'. repeat split; auto.
  exists responder, stoppers. congruence.
Qed.

(** C1.  With resignation enabled, the WDL style configured for the side
    to move and the move number at least its earliest-resign move, let
    the threshold be 1 - resign_percentage / 100.  If the best win
    probability exceeds it the iteration leaves the loop with a win for
    the side to move; otherwise, if the best loss probability exceeds it,
    with a win for the opponent; otherwise, if the best draw probability
    exceeds it, with a draw.  In each case no move is committed. *)
Theorem wdl_resignation (il : Interleaving) (st st1 : PlayState)
    (inBook : bool) (s : Search) :
  begin_ply white_threads black_threads syzygy_tb il st =
  inr (inBook, s, st1) ->
  let blacks := blacks_move st1 in
  let o := uci_options (options_at (game st1) blacks) in
  ResignWDLStyle o = true ->
  ResignEarliestMove o <= move_number_of (game st1) ->
  let threshold :=
    F32.sub F32.one (F32.div (ResignPercentage o) (F32.of_int 100)) in
  let best_w :=
    win_probability (fst (GetBestEval s)) (snd (GetBestEval s)) in
  let best_d := snd (GetBestEval s) in
  let best_l :=
    loss_probability (fst (GetBestEval s)) (snd (GetBestEval s)) in
  let step :=
    play_ply assertions retry_fuel white_threads black_threads training
      true syzygy_tb il st in
  (F32.gtb best_w threshold = true ->
   stops_without_commit st st1 step
     (if blacks then BLACK_WON else WHITE_WON)) /\
  (F32.gtb best_w threshold = false ->
   F32.gtb best_l threshold = true ->
   stops_without_commit st st1 step
     (if blacks then WHITE_WON else BLACK_WON)) /\
  (F32.gtb best_w threshold = false ->
   F32.gtb best_l threshold = false ->
   F32.gtb best_d threshold = true ->
   stops_without_commit st st1 step DRAW).
Proof.
  intros Hbegin blacks o Hwdl Hmove threshold best_w best_d best_l step.
  assert (Hgate :
    true && (move_number_of (game st1) >=? ResignEarliestMove o) = true).
  { rewrite Z.geb_leb. cbn. now apply Z.leb_le. }
  repeat split; intros; apply (resigns_without_commit _ _ _ _ _ _ _ Hbegin);
    unfold resign_check; fold blacks o; rewrite Hgate, Hwdl;
    fold threshold best_w best_l best_d;
    repeat match goal with
      | H : F32.gtb _ _ = _ |- _ => rewrite H; clear H
      end; reflexivity.
Qed.

(** *** Abort and the retry loop *)

(** The loop reads the options, the trees and the castling flag of the
    game, and nothing else of it. *)
Lemma retry_iteration_ext (g g' : SelfPlayGame) (blacks : bool) (s : Search) :
  options_ g = options_ g' -> chess960_ g = chess960_ g' ->
  tree0 g = tree0 g' -> tree1 g = tree1 g' ->
  retry_iteration g blacks s = retry_iteration g' blacks s.
Proof.
  intros Ho Hc Ht0 Ht1.
  unfold retry_iteration, tree_at, options_at, GetMoves.
  now rewrite Ho, Hc, Ht0, Ht1.
Qed.

Lemma retry_loop_ext (g g' : SelfPlayGame) (blacks : bool) (fuel : nat) :
  options_ g = options_ g' -> chess960_ g = chess960_ g' ->
  tree0 g = tree0 g' -> tree1 g = tree1 g' ->
  forall s evs,
    retry_loop fuel g blacks s evs = retry_loop fuel g' blacks s evs.
Proof.
  intros Ho Hc Ht0 Ht1.
  induction fuel as [|fuel IH]; intros s evs; cbn [retry_loop].
  - reflexivity.
  - rewrite (retry_iteration_ext g g') by assumption.
    destruct (retry_iteration g' blacks s); [reflexivity | apply IH].
Qed.

Lemma commit_out_of_book (s : Search) (st : PlayState) :
  commit assertions false s st =
  Continue
    (mkPlayState
       (set_trees (game st) (MakeMove (tree0 (game st)) (GetBestMove s))
          (option_map (fun t => MakeMove t (GetBestMove s))
             (tree1 (game st))))
       (negb (blacks_move st))
       (match openingMove st with
        | _ :: rest => if blacks_move st then rest else openingMove st
        | [] => []
        end)
       (events st ++ [EvMakeMove (GetBestMove s)])).
Proof. unfold commit. destruct (tree1 (game st)); reflexivity. Qed.

(** *** The castling flag along the game *)

Lemma responders_wrapped_app (wrap : bool) (evs more : list Event) :
  responders_wrapped wrap evs -> responders_wrapped wrap more ->
  responders_wrapped wrap (evs ++ more).
Proof.
  intros H1 H2 blacks r stoppers Hin.
  apply in_app_or in Hin. destruct Hin; eauto.
Qed.

Lemma no_search_wrapped (wrap : bool) (evs : list Event) :
  no_search evs -> responders_wrapped wrap evs.
Proof. intros Hno blacks r stoppers Hin. now apply Hno in Hin. Qed.

Lemma retry_loop_events (fuel : nat) (g : SelfPlayGame) (blacks : bool) :
  forall s evs move s' evs',
    retry_loop fuel g blacks s evs = Some (move, s', evs') ->
    exists more, evs' = evs ++ more /\ no_search more.
Proof.
  induction fuel as [|fuel IH]; intros s evs move s' evs';
    cbn [retry_loop]; [discriminate|].
  destruct (retry_iteration g blacks s) as [m|s1 reported] eqn:Hit.
  - intros H. inversion H; subst. exists []. split.
    + now rewrite app_nil_r.
    + intros b r stp [].
  - intros H. apply IH in H. destruct H as (more & -> & Hno).
    exists (reported ++ more). split; [now rewrite app_assoc|].
    unfold retry_iteration in Hit.
    destruct (scan_edges _ _ _) as [mx cur].
    destruct (accepted _ _ _); [discriminate|].
    inversion Hit; subst; clear Hit.
    intros b r stp Hin. apply in_app_or in Hin.
    destruct Hin as [Hin|Hin]; [|now apply Hno in Hin].
    apply in_app_or in Hin. destruct Hin as [Hin|[Hin|[]]];
      [|discriminate].
    destruct (GameResult_eqb _ _); [|destruct Hin].
    destruct Hin as [Hin|[]]. discriminate.
Qed.

Lemma commit_flag_kept (flag : bool) (inBook : bool) (s : Search)
    (st : PlayState) :
  flag_kept flag st -> flag_kept flag (state_of (commit assertions inBook s st)).
Proof.
  intros [Hflag Hwrapped]. unfold commit.
  match goal with
  | |- context [match ?d with Returned _ => _ | Thrown _ => _
                           | AssertionFailed => _ end] =>
      destruct d as [move_| |]
  end; cbn [state_of]; try (split; assumption).
  split; [exact Hflag|]. cbn [events].
  apply responders_wrapped_app; [assumption|].
  apply no_search_wrapped. intros b r stp [Hin|[]]. discriminate.
Qed.

Lemma after_search_flag_kept (flag : bool) (enable_resign : bool)
    (il : Interleaving) (inBook : bool) (s : Search) (st : PlayState) :
  flag_kept flag st ->
  flag_kept flag
    (state_of
       (after_search assertions retry_fuel training enable_resign il
          inBook s st)).
Proof.
  intros [Hflag Hwrapped]. unfold after_search.
  destruct (record_evaluation_members s st) as (_ & Hc & _).
  set (g1 := record_evaluation training s st) in *. cbv zeta in Hc.
  destruct (resign_check _ _ _ _ _ _ _ _).
  - split; cbn; [congruence | assumption].
  - destruct (landed_members (abort_after_search il) g1) as (_ & Hc' & _).
    destruct (retry_loop _ _ _ _ _) as [[[move s'] evs]|] eqn:Hloop.
    + apply commit_flag_kept. split; cbn; [congruence|].
      apply retry_loop_events in Hloop. destruct Hloop as (more & -> & Hno).
      apply responders_wrapped_app; [assumption|].
      now apply no_search_wrapped.
    + split; cbn; [congruence | assumption].
Qed.

Lemma begin_ply_stop_flag_kept (flag : bool) (il : Interleaving)
    (st : PlayState) (stop : LoopStep) :
  flag_kept flag st ->
  begin_ply white_threads black_threads syzygy_tb il st = inl stop ->
  flag_kept flag (state_of stop).
Proof.
  intros [Hflag Hwrapped]. unfold begin_ply.
  destruct (abort_ (game st)).
  { intros [= <-]. now split. }
  destruct (negb (GameResult_eqb _ UNDECIDED)).
  { intros [= <-]. now split. }
  match goal with
  | |- context [landed (abort_before_guard il) ?g] => set (g1 := g)
  end.
  assert (Hc1 : chess960_ g1 = flag).
  { subst g1. destruct (negb (ReuseTree _)); [|exact Hflag].
    match goal with
    | |- chess960_ (update_tree ?g ?b ?t) = _ =>
        destruct (update_tree_members g b t) as (_ & Hc & _)
    end.
    now rewrite Hc. }
  destruct (landed_members (abort_before_guard il) g1) as (_ & Hc2 & _).
  destruct (abort_ (landed (abort_before_guard il) g1)).
  { intros [= <-]. split; cbn; [congruence | assumption]. }
  match goal with
  | |- context [RunBlocking ?a ?b ?c] =>
      destruct (RunBlocking a b c) as [s' t]
  end.
  match goal with
  | |- context [abort_ ?g] => destruct (abort_ g)
  end; [|discriminate].
  intros [= <-].
  match goal with
  | |- context [update_tree ?g ?b ?t] =>
      destruct (update_tree_members g b t) as (_ & Hc3 & _)
  end.
  match goal with
  | Hc3 : context [landed (abort_during_search il) ?g] |- _ =>
      destruct (landed_members (abort_during_search il) g)
        as (_ & Hc4 & _)
  end.
  split.
  - cbn [state_of game with_game chess960_ set_counters].
    rewrite Hc3. cbn [chess960_ set_search]. rewrite Hc4.
    cbn [chess960_ set_search]. congruence.
  - cbn [state_of events emit with_game].
    apply responders_wrapped_app; [assumption|].
    intros b r stp [[= _ <- _]|[]].
    rewrite Hc2, Hc1. destruct flag; reflexivity.
Qed.

Lemma play_ply_flag_kept (flag : bool) (enable_resign : bool)
    (il : Interleaving) (st : PlayState) :
  flag_kept flag st ->
  flag_kept flag
    (state_of
       (play_ply assertions retry_fuel white_threads black_threads
          training enable_resign syzygy_tb il st)).
Proof.
  intros Hkept. unfold play_ply.
  destruct (begin_ply _ _ _ il st) as [stop|[[inBook s] st1]] eqn:Hbegin.
  - eapply begin_ply_stop_flag_kept; eassumption.
  - apply after_search_flag_kept.
    destruct Hkept as [Hflag Hwrapped].
    destruct (begin_ply_searched _ _ _ _ _ Hbegin)
      as (_ & _ & _ & _ & _ & Hc & r & stp & Hev & Hwrap).
    split; [congruence|]. rewrite Hev.
    apply responders_wrapped_app; [assumption|].
    intros b r' stp' [Hin|[]]. inversion Hin; subst. congruence.
Qed.

Lemma Play_loop_flag_kept (flag : bool) (enable_resign : bool)
    (schedule : list Interleaving) :
  forall st,
    flag_kept flag st ->
    flag_kept flag
      (state_of
         (Play_loop assertions retry_fuel white_threads black_threads
            training enable_resign syzygy_tb schedule st)).
Proof.
  induction schedule as [|il schedule IH]; intros st Hkept;
    cbn [Play_loop]; [exact Hkept|].
  pose proof (play_ply_flag_kept flag enable_resign il st Hkept) as Hstep.
  destruct (play_ply _ _ _ _ _ _ _ il st); cbn [state_of] in Hstep;
    auto.
Qed.

End Iteration.

Lemma GetMoves_replay_with (chess960 : bool) (stack : list Move) :
  forall pos result,
    GetMoves_replay chess960 stack pos result =
    replay_with (if chess960 then fun _ m => m else GetLegacyMove)
      stack pos result.
Proof.
  induction stack as [|move rest IH]; intros pos result;
    cbn [GetMoves_replay replay_with]; [reflexivity|].
  rewrite IH. destruct chess960; cbn [negb];
    destruct (IsBlackToMove _); reflexivity.
Qed.

Lemma SelfPlayGame_new_flag (rng : Rng) (player1 player2 : PlayerOptions)
    (shared_tree : bool) (opening : list Move) :
  chess960_ (SelfPlayGame_new rng player1 player2 shared_tree opening) =
  UCI_Chess960 (uci_options player1) || UCI_Chess960 (uci_options player2).
Proof.
  unfold SelfPlayGame_new.
  destruct (random_shuffle rng _) as [whiteNonPawns rng1].
  destruct (random_shuffle rng1 _) as [blackNonPawns rng2].
  destruct (replay_opening _ _ _) as [t0 t1]. reflexivity.
Qed.

(** C10.  The flag [chess960_] fixed by the constructor is the disjunction
    of the two sides' chess960 options, and it is the flag of the whole
    game: however far [Play] is followed, every search of either side got
    its callbacks wrapped in the legacy castling transformer exactly when
    neither side has chess960 enabled, and [GetMoves] converts every move
    to the legacy encoding exactly then. *)
Theorem legacy_castling_is_game_wide (rng : Rng)
    (player1 player2 : PlayerOptions) (shared_tree : bool)
    (opening : list Move) :
  let g := SelfPlayGame_new rng player1 player2 shared_tree opening in
  let neither :=
    negb (UCI_Chess960 (uci_options player1)) &&
    negb (UCI_Chess960 (uci_options player2)) in
  chess960_ g =
  UCI_Chess960 (uci_options player1) || UCI_Chess960 (uci_options player2) /\
  forall assertions retry_fuel white_threads black_threads training
         enable_resign syzygy_tb schedule book,
    let st' :=
      state_of
        (Play assertions retry_fuel white_threads black_threads training
           enable_resign syzygy_tb schedule g book) in
    responders_wrapped neither (events st') /\
    GetMoves (game st') =
    replay_with (if neither then GetLegacyMove else fun _ m => m)
      (rev (MovesFromHead (tree0 (game st'))))
      (Starting (GetPositionHistory (tree0 (game st')))) [].
Proof.
  intros g neither.
  pose proof (SelfPlayGame_new_flag rng player1 player2 shared_tree opening)
    as Hflag.
  fold g in Hflag. split; [exact Hflag|].
  intros assertions retry_fuel white_threads black_threads training
    enable_resign syzygy_tb schedule book st'.
  assert (Hkept : flag_kept (chess960_ g) st').
  { subst st'. unfold Play. apply Play_loop_flag_kept.
    split; [reflexivity|]. intros b r stp []. }
  destruct Hkept as [Hc Hwrapped].
  assert (Hneither : neither = negb (chess960_ g)).
  { subst neither. rewrite Hflag. now rewrite negb_orb. }
  rewrite Hneither. split; [exact Hwrapped|].
  unfold GetMoves. rewrite GetMoves_replay_with, Hc.
  destruct (chess960_ g); reflexivity.
Qed.

End PlayFacts.

(** ** The retry loop on the visit counts of a head *)

Section RetryLoop.

Context {C : Collaborators}.




End RetryLoop.

(** ** An abort while a ply is in flight *)

Section AbortInFlight.

Context {C : Collaborators}.
Variable assertions : bool.
Variable retry_fuel : nat.
Variables white_threads black_threads : Z.
Variable training : bool.
Variable syzygy_tb : option SyzygyTablebase.

(** What lines 315-332 do, case by case. *)
Lemma commit_effects (inBook : bool) (s : Search) (st : PlayState) :
  let board :=
    GetBoard (Last (GetPositionHistory (tree_at (game st) (blacks_move st)))) in
  let determined :=
    match book_ply st with
    | Some ply =>
      if inBook then ply_to_lc0_move assertions ply board (blacks_move st)
      else Returned (GetBestMove s)
    | None => Returned (GetBestMove s)
    end in
  match determined with
  | Returned m =>
    commit assertions inBook s st =
    Continue
      (mkPlayState
         (set_trees (game st) (MakeMove (tree0 (game st)) m)
            (option_map (fun t => MakeMove t m) (tree1 (game st))))
         (negb (blacks_move st))
         (match openingMove st with
          | _ :: rest => if blacks_move st then rest else openingMove st
          | [] => []
          end)
         (events st ++ [EvMakeMove m]))
  | Thrown msg => commit assertions inBook s st = Throws msg st
  | AssertionFailed => commit assertions inBook s st = AssertStops st
  end.
Proof.
  unfold commit, book_ply.
  destruct inBook, (openingMove st) as [|om rest]; cbn [option_map];
    try (destruct (tree1 (game st)); reflexivity).
  destruct (ply_to_lc0_move _ _ _ _); try reflexivity.
Qed.

(** C3, amended.  No iteration of the retry loop reads the abort flag:
    the loop runs the same way whether or not the flag is set.  When
    [Abort] lands after the check that follows the search, the ply goes
    on: once the loop accepts a move, lines 315-332 run with the flag set
    and with no further check of it.  Out of book the accepted move is
    committed; in book the move the resolver gives for the half-move of
    the opening line is committed, or the resolver's exception or failed
    assertion leaves [Play] with nothing committed.  The flag is read
    again by the test of the next iteration of the ply loop, which leaves
    the loop at once. *)
Theorem retry_ignores_abort (enable_resign : bool) (il : Interleaving)
    (st : PlayState) :
  let play :=
    play_ply assertions retry_fuel white_threads black_threads training
      enable_resign syzygy_tb il in
  (forall fuel g blacks s evs b,
      retry_loop fuel (set_abort g b) blacks s evs =
      retry_loop fuel g blacks s evs) /\
  (forall st1 inBook s move s' evs,
      begin_ply white_threads black_threads syzygy_tb il st =
      inr (inBook, s, st1) ->
      abort_after_search il = true ->
      resign_check enable_resign
        (uci_options (options_at (game st1) (blacks_move st1)))
        (blacks_move st1) (move_number_of (game st1))
        (normalized_eval (fst (GetBestEval s)))
        (win_probability (fst (GetBestEval s)) (snd (GetBestEval s)))
        (snd (GetBestEval s))
        (loss_probability (fst (GetBestEval s)) (snd (GetBestEval s)))
      = None ->
      retry_loop retry_fuel (game st1) (blacks_move st1) (Search_Abort s) []
      = Some (move, s', evs) ->
      let board :=
        GetBoard (Last (GetPositionHistory
                          (tree_at (game st1) (blacks_move st1)))) in
      let determined :=
        match book_ply st1 with
        | Some ply =>
          if inBook
          then ply_to_lc0_move assertions ply board (blacks_move st1)
          else Returned move
        | None => Returned move
        end in
      exists st',
        abort_ (game st') = true /\
        match determined with
        | Returned m =>
          play st = Continue st' /\
          tree0 (game st') = MakeMove (tree0 (game st1)) m /\
          events st' = events st1 ++ evs ++ [EvMakeMove m]
        | Thrown msg =>
          play st = Throws msg st' /\
          tree0 (game st') = tree0 (game st1) /\
          events st' = events st1 ++ evs
        | AssertionFailed =>
          play st = AssertStops st' /\
          tree0 (game st') = tree0 (game st1) /\
          events st' = events st1 ++ evs
        end) /\
  (abort_ (game st) = true -> play st = Break st).
Proof.
  intros play. split; [|split].
  - intros fuel g blacks s evs b.
    now apply retry_loop_ext.
  - intros st1 inBook s move s' evs Hbegin Hland Hcheck Hloop board
      determined.
    subst play. cbv beta.
    rewrite (play_ply_searched _ _ _ _ _ _ _ _ _ _ _ _ Hbegin).
    destruct (begin_ply_searched _ _ _ _ _ _ _ _ Hbegin)
      as (_ & Hsearch & _).
    unfold after_search.
    rewrite resign_check_recorded, Hcheck, Hland.
    destruct (record_evaluation_members training s st1)
      as (Ho & Hc & Ht0 & Ht1 & Hs & _).
    set (g1 := record_evaluation training s st1) in *. cbv zeta in *.
    destruct (landed_members true g1) as (Ho' & Hc' & Ht0' & Ht1' & _).
    rewrite (landed_search true g1 s) by congruence.
    rewrite (retry_loop_ext (landed true g1) (game st1)) by congruence.
    rewrite Hloop.
    pose proof (retry_loop_move _ _ _ _ _ _ _ _ Hloop) as Hmove.
    match goal with
    | |- context [commit assertions inBook s' ?x] =>
        set (st3 := x);
        pose proof (commit_effects inBook s' st3) as Heff
    end.
    cbv zeta in Heff.
    assert (Hst3 :
      book_ply st3 = book_ply st1 /\
      blacks_move st3 = blacks_move st1 /\
      tree_at (game st3) (blacks_move st3) =
      tree_at (game st1) (blacks_move st1) /\
      abort_ (game st3) = true /\
      tree0 (game st3) = tree0 (game st1) /\
      events st3 = events st1 ++ evs).
    { subst st3. cbn [game blacks_move events emit with_game abort_
                      set_search tree0].
      rewrite landed_abort, orb_true_r.
      unfold book_ply, tree_at. cbn [tree0 tree1 set_search openingMove
        blacks_move game emit with_game].
      rewrite Ht0', Ht1', Ht0, Ht1. auto 10. }
    destruct Hst3 as (Hbook & Hb3 & Htree3 & Hab3 & Ht03 & Hev3).
    rewrite Htree3, Hbook, Hb3, <- Hmove in Heff. fold board in Heff.
    fold determined in Heff. clearbody st3.
    destruct determined as [m|msg|]; rewrite Heff.
    + eexists. split; [|split; [reflexivity|]];
        cbn [game events abort_ set_trees tree0].
      * exact Hab3.
      * rewrite Ht03, Hev3, <- app_assoc. auto.
    + exists st3. auto.
    + exists st3. auto.
  - intros Habort. subst play. cbv beta.
    unfold play_ply, begin_ply. now rewrite Habort.
Qed.

End AbortInFlight.

(** ** Resignation in the simple style *)

Section SimpleStyle.

Context {C : Collaborators}.
Variable assertions : bool.
Variable retry_fuel : nat.
Variables white_threads black_threads : Z.
Variable training : bool.
Variable syzygy_tb : option SyzygyTablebase.


End SimpleStyle.

(** ** The properties on a scripted game *)

Lemma wdl_resignation_witness :
  exists st1,
    stops_without_commit (C := Scripted.collaborators Scripted.wdl_script)
      (Scripted.start Scripted.wdl_script (Scripted.player 5 true 0)) st1
      (play_ply false 5 1 1 true true None no_abort
         (Scripted.start Scripted.wdl_script (Scripted.player 5 true 0)))
      WHITE_WON.
Proof.
  eexists.
  eassert (Hbegin :
    begin_ply (C := Scripted.collaborators Scripted.wdl_script) 1 1 None
      no_abort (Scripted.start Scripted.wdl_script (Scripted.player 5 true 0))
    = inr (_, _, _))
    by (vm_compute; reflexivity).
  apply (wdl_resignation false 5 1 1 true None _ _ _ _ _ Hbegin).
  - reflexivity.
  - vm_compute. discriminate.
  - vm_compute. reflexivity.
Defined.



(** Where the bound on the visits of the head is used.  With counts that
    no head of a tree with 32-bit visit counters can show, 2^31 + 1 and
    2^31 on two edges of one head, the count of the engine's best move
    g1-f3 converts to a negative [int]: the move is reported as discarded
    and the best move is reset although the count is above the minimum of
    5 allowed visits. *)
Remark int_cast_rejects_visited_move :
  let g := Scripted.new_game Scripted.huge_script (Scripted.player 0 false 5) in
  let move := GetBestMove (Collaborators := Scripted.collaborators Scripted.huge_script) O in
  let cur_n := snd (scan_edges Scripted.huge_edges false move) in
  move = Scripted.g1f3 /\
  cur_n = 2 ^ 31 /\
  Spec.max_visits Scripted.huge_edges = 2 ^ 31 + 1 /\
  5 <= cur_n /\
  static_cast_int cur_n = - 2 ^ 31 /\
  retry_iteration (C := Scripted.collaborators Scripted.huge_script) g false O
  <> Accepted move /\
  retry_iteration (C := Scripted.collaborators Scripted.huge_script) g false O
  = Retried (C := Scripted.collaborators Scripted.huge_script) 1%nat
      [EvDiscarded false [Scripted.g1f3]; EvResetBestMove].
Proof.
  cbv zeta. repeat split; try reflexivity; vm_compute; discriminate.
Qed.

(** With visit counts that fit an [int] the loop does what the option's
    description says: 3 visits are below both the maximum 10 and the
    minimum 5, so the move is discarded; after the reset the most visited
    move is accepted. *)
Example discards_then_accepts :
  let sc := Scripted.script Scripted.two_edges (F32.percent 0, F32.percent 2) in
  let g := Scripted.new_game sc (Scripted.player 0 false 5) in
  retry_loop (C := Scripted.collaborators sc) 5 g false O [] =
  Some (Scripted.e2e4, 1%nat,
        [EvDiscarded false [Scripted.g1f3]; EvResetBestMove]).
Proof. reflexivity. Qed.


(** C3, as stated, fails.  [Abort] sets the flag right after the check that
    follows the search, before the retry loop starts; the loop still
    discards the low-visit move, resets the best move and goes round again,
    and the move it then accepts is committed. *)
Lemma abort_before_retry_still_commits :
  let sc := Scripted.script Scripted.two_edges (F32.percent 0, F32.percent 2) in
  exists st',
    play_ply (C := Scripted.collaborators sc) false 5 1 1 false false None
      Scripted.abort_after_the_search
      (Scripted.start sc (Scripted.player 0 false 5)) = Continue st' /\
    abort_ (game st') = true /\
    filter Spec.is_retry (events st') = [EvResetBestMove] /\
    filter Spec.is_commit (events st') = [EvMakeMove Scripted.e2e4] /\
    tree0 (game st') = [Scripted.e2e4].
Proof.
  intros sc. eexists. split; [vm_compute; reflexivity|]. repeat split.
Qed.

(** In book the ply goes on as well: [Abort] lands after the search, the
    retry loop discards g1-f3, resets and accepts e2-e4, and the move that
    is committed is the one of the opening line, g1-f3. *)
Lemma retry_ignores_abort_witness :
  let sc := Scripted.script Scripted.two_edges (F32.percent 0, F32.percent 2) in
  let st := Samples.in_book sc (Scripted.player 0 false 5) Samples.knight_first in
  exists st1 st',
    abort_ (game st') = true /\
    play_ply (C := Scripted.collaborators sc) false 5 1 1 false false None
      Scripted.abort_after_the_search st = Continue st' /\
    tree0 (game st') = MakeMove (tree0 (game st1)) Scripted.g1f3 /\
    events st' =
    events st1 ++
    [EvDiscarded false [Scripted.g1f3]; EvResetBestMove] ++
    [EvMakeMove Scripted.g1f3].
Proof.
  intros sc st. eexists.
  eassert (Hbegin :
    begin_ply (C := Scripted.collaborators sc) 1 1 None
      Scripted.abort_after_the_search st = inr (true, _, _))
    by (vm_compute; reflexivity).
  refine (proj1 (proj2
    (retry_ignores_abort (C := Scripted.collaborators sc) false 5 1 1 false
       None false Scripted.abort_after_the_search st))
    _ true _ Scripted.e2e4 1%nat _ Hbegin eq_refl eq_refl eq_refl).
Defined.

(** ** Version numbers *)

Section VersionFacts.

Lemma version_sum_fits (major minor patch : Z) :
  0 <= major <= 2146 -> 0 <= minor < 1000 -> 0 <= patch < 1000 ->
  GetVersionInt major minor patch =
  Some (major * 1000000 + minor * 1000 + patch).
Proof.
  intros Hmajor Hminor Hpatch. unfold GetVersionInt, int_fits.
  repeat match goal with
    | |- context [?a <=? ?b] =>
        destruct (Z.leb_spec a b); [|lia]
    | |- context [?a <? ?b] =>
        destruct (Z.ltb_spec a b); [|lia]
    end.
  cbn [andb]. f_equal. apply Z.mod_small. lia.
Qed.

(** X1.  For a major number up to 2146 and minor and patch numbers below
    1000, [GetVersionInt] is defined and the three numbers can be read back
    from its decimal digits. *)
Theorem version_int_decodes (major minor patch : Z) :
  0 <= major <= 2146 -> 0 <= minor < 1000 -> 0 <= patch < 1000 ->
  exists v,
    GetVersionInt major minor patch = Some v /\
    0 <= v < 2 ^ 31 /\
    v / 1000000 = major /\ (v / 1000) mod 1000 = minor /\ v mod 1000 = patch.
Proof.
  intros Hmajor Hminor Hpatch.
  exists (major * 1000000 + minor * 1000 + patch).
  split; [now apply version_sum_fits|].
  split; [lia|].
  repeat split.
  - symmetry. apply (Z.div_unique _ _ _ (minor * 1000 + patch)); lia.
  - replace (major * 1000000 + minor * 1000 + patch)
      with ((major * 1000 + minor) * 1000 + patch) by lia.
    rewrite Z.div_add_l by lia. rewrite (Z.div_small patch) by lia.
    rewrite Z.add_0_r, Z.add_comm, Z.mod_add by lia.
    apply Z.mod_small; lia.
  - replace (major * 1000000 + minor * 1000 + patch)
      with (patch + (major * 1000 + minor) * 1000) by lia.
    rewrite Z.mod_add by lia. apply Z.mod_small; lia.
Qed.

Lemma version_int_decodes_witness :
  exists v,
    GetVersionInt 0 27 3 = Some v /\
    0 <= v < 2 ^ 31 /\
    v / 1000000 = 0 /\ (v / 1000) mod 1000 = 27 /\ v mod 1000 = 3.
Proof. apply (version_int_decodes 0 27 3); lia. Defined.

(** X2.  On that range the order of the integers is the order of the
    versions. *)
Theorem version_int_orders (major minor patch major' minor' patch' : Z) :
  0 <= major <= 2146 -> 0 <= minor < 1000 -> 0 <= patch < 1000 ->
  0 <= major' <= 2146 -> 0 <= minor' < 1000 -> 0 <= patch' < 1000 ->
  exists v w,
    GetVersionInt major minor patch = Some v /\
    GetVersionInt major' minor' patch' = Some w /\
    (v < w <-> version_lt (major, minor, patch) (major', minor', patch')) /\
    (v = w <-> (major, minor, patch) = (major', minor', patch')).
Proof.
  intros H1 H2 H3 H4 H5 H6.
  do 2 eexists.
  split; [now apply version_sum_fits|].
  split; [now apply version_sum_fits|].
  unfold version_lt. split; split.
  - lia.
  - lia.
  - intros H. assert (major = major' /\ minor = minor' /\ patch = patch')
      as (-> & -> & ->) by lia. reflexivity.
  - intros [= -> -> ->]. reflexivity.
Qed.

Lemma version_int_orders_witness :
  exists v w,
    GetVersionInt 0 26 999 = Some v /\
    GetVersionInt 0 27 0 = Some w /\
    (v < w <-> version_lt (0, 26, 999) (0, 27, 0)) /\
    (v = w <-> (0, 26, 999) = (0, 27, 0)).
Proof. apply (version_int_orders 0 26 999 0 27 0); lia. Defined.

(** X3.  A minor or patch number of 1000 or more runs into the next
    field: two different versions get the same integer. *)
Theorem version_int_carries (major minor patch v w : Z) :
  (GetVersionInt major (minor + 1000) patch = Some v ->
   GetVersionInt (major + 1) minor patch = Some w -> v = w) /\
  (GetVersionInt major minor (patch + 1000) = Some v ->
   GetVersionInt major (minor + 1) patch = Some w -> v = w).
Proof.
  unfold GetVersionInt.
  split; intros Hv Hw;
    repeat match goal with
      | H : (if ?c then _ else _) = Some _ |- _ =>
          destruct c; [injection H as <-|discriminate H]
      end; f_equal; lia.
Qed.

(** Version 0.1000.0 is version 1.0.0; a negative number wraps around. *)
Example version_int_edges :
  GetVersionInt 0 1000 0 = GetVersionInt 1 0 0 /\
  GetVersionInt 0 0 (-1) = Some 4294967295 /\
  GetVersionInt 2148 0 0 = None.
Proof. repeat split. Qed.

End VersionFacts.

(** ** Version strings *)

Section VersionStrings.

Lemma occurs_append (c : ascii) (s t : string) :
  occurs c (String.append s t) = occurs c s || occurs c t.
Proof.
  induction s as [|a s IH]; cbn; [reflexivity|].
  now rewrite IH, orb_assoc.
Qed.

Lemma append_assoc (s t u : string) :
  String.append (String.append s t) u = String.append s (String.append t u).
Proof. induction s as [|a s IH]; cbn; [reflexivity | now rewrite IH]. Qed.

Lemma list_ascii_of_append (s t : string) :
  list_ascii_of_string (String.append s t) =
  (list_ascii_of_string s ++ list_ascii_of_string t)%list.
Proof. induction s as [|a s IH]; cbn; [reflexivity | now rewrite IH]. Qed.

Lemma append_inv_tail (s s' t : string) :
  String.append s t = String.append s' t -> s = s'.
Proof.
  intros H. apply (f_equal list_ascii_of_string) in H.
  rewrite !list_ascii_of_append in H. apply app_inv_tail in H.
  rewrite <- (string_of_list_ascii_of_string s),
          <- (string_of_list_ascii_of_string s').
  now rewrite H.
Qed.

(** A string is cut in one way only at the first occurrence of a
    character. *)
Lemma first_occurrence_unique (c : ascii) (s s' t t' : string) :
  occurs c s = false -> occurs c s' = false ->
  String.append s (String c t) = String.append s' (String c t') ->
  s = s' /\ t = t'.
Proof.
  revert s'. induction s as [|a s IH]; intros [|a' s']; cbn.
  - intros _ _ [= ->]. now split.
  - intros _ H [= <- _]. rewrite Ascii.eqb_refl in H. discriminate.
  - intros H _ [= -> _]. rewrite Ascii.eqb_refl in H. discriminate.
  - intros H H' [= <- Heq].
    apply orb_false_elim in H, H'.
    destruct (IH s' (proj2 H) (proj2 H') Heq) as [-> ->]. now split.
Qed.

Lemma digits_only (c : ascii) (d : Decimal.uint) :
  c = "."%char \/ c = "d"%char \/ c = "v"%char ->
  occurs c (DecimalString.NilEmpty.string_of_uint d) = false.
Proof.
  intros Hc. induction d; cbn; try rewrite IHd;
    destruct Hc as [->|[->| ->]]; reflexivity.
Qed.

Lemma to_string_digits (c : ascii) (z : Z) :
  c = "."%char \/ c = "d"%char \/ c = "v"%char ->
  occurs c (to_string z) = false.
Proof.
  intros Hc. unfold to_string.
  assert (Hu : forall d,
    occurs c (DecimalString.NilZero.string_of_uint d) = false).
  { intros d. destruct d; try apply (digits_only c _ Hc).
    destruct Hc as [->|[->| ->]]; reflexivity. }
  destruct (Z.to_int z) as [d|d]; cbn; [apply Hu|].
  rewrite Hu. destruct Hc as [->|[->| ->]]; reflexivity.
Qed.

Lemma to_int_proper (z : Z) :
  Z.to_int z <> Decimal.Pos Decimal.Nil /\
  Z.to_int z <> Decimal.Neg Decimal.Nil.
Proof.
  destruct z as [|p|p]; cbn; split; try discriminate;
    intros [= H]; now apply DecimalPos.Unsigned.to_uint_nonnil in H.
Qed.

Lemma to_string_inj (z z' : Z) : to_string z = to_string z' -> z = z'.
Proof.
  unfold to_string. intros H.
  apply DecimalZ.to_int_inj.
  destruct (to_int_proper z) as [Hp Hn], (to_int_proper z') as [Hp' Hn'].
  pose proof (DecimalString.NilZero.isi _ Hp Hn) as E.
  pose proof (DecimalString.NilZero.isi _ Hp' Hn') as E'.
  rewrite H in E. congruence.
Qed.

(** X4.  The version string tells the three numbers and the release flag
    apart: two calls return the same string only when they were given the
    same arguments. *)
Theorem version_str_injective
    (major minor patch major' minor' patch' : Z) (release release' : bool) :
  GetVersionStr major minor patch release =
  GetVersionStr major' minor' patch' release' <->
  (major, minor, patch, release) = (major', minor', patch', release').
Proof.
  split; [|now intros [= -> -> -> ->]].
  enough (H :
    GetVersionStr major minor patch release =
    GetVersionStr major' minor' patch' release' ->
    major = major' /\ minor = minor' /\ patch = patch' /\ release = release')
    by (intros Heq; destruct (H Heq) as (-> & -> & -> & ->); reflexivity).
  unfold GetVersionStr. rewrite !append_assoc. cbn [String.append].
  assert (Hdot := fun z => to_string_digits "." z (or_introl eq_refl)).
  assert (Hd := fun z => to_string_digits "d" z (or_intror (or_introl eq_refl))).
  assert (Hv := fun z => to_string_digits "v" z (or_intror (or_intror eq_refl))).
  assert (Hcut : forall a b a' b' rest rest',
    String.append (to_string a)
      (String "." (String.append (to_string b) (String "." rest))) =
    String.append (to_string a')
      (String "." (String.append (to_string b') (String "." rest'))) ->
    a = a' /\ b = b' /\ rest = rest').
  { intros a b a' b' rest rest' H.
    apply first_occurrence_unique in H; auto. destruct H as [Ha H].
    apply first_occurrence_unique in H; auto. destruct H as [Hb H].
    apply to_string_inj in Ha, Hb. auto. }
  assert (Hrelease : forall c c',
    to_string c <> String.append (to_string c') "-dev").
  { intros c c' H.
    apply (f_equal (occurs "v")) in H.
    rewrite occurs_append, !Hv in H. discriminate. }
  destruct release, release'; intros H;
    apply Hcut in H; destruct H as (-> & -> & H).
  - apply to_string_inj in H. now subst.
  - now apply Hrelease in H.
  - symmetry in H. now apply Hrelease in H.
  - apply append_inv_tail, to_string_inj in H. now subst.
Qed.

(** The strings of a development version and of a release. *)
Example version_str_samples :
  GetVersionStr 0 27 0 false = "0.27.0-dev"%string /\
  GetVersionStr 1 2 3 true = "1.2.3"%string.
Proof. split; reflexivity. Qed.

End VersionStrings.

(** ** The move resolver: the order of the candidates, promotions *)

Section ResolverOrder.

Variable assertions : bool.

(** What the resolver does with the candidate it stops at. *)
Lemma resolve_candidates_find (ply : Ply) (board : ChessBoard)
    (mirror : bool) (candidates : list Move) :
  resolve_candidates assertions ply board mirror candidates =
  match find (Spec.satisfies_description ply board mirror) candidates with
  | None => Thrown (unrecognized ply)
  | Some lm =>
    if promotion ply then
      let '(m, reached_assert) :=
        promotion_switch (letter (promoted ply)) (Spec.candidate mirror lm) in
      if reached_assert && assertions then AssertionFailed else Returned m
    else Returned (Spec.candidate mirror lm)
  end.
Proof.
  induction candidates as [|lm rest IH]; [reflexivity|].
  rewrite resolve_candidates_cons. cbn [find].
  destruct (Spec.satisfies_description ply board mirror lm);
    [reflexivity | exact IH].
Qed.

(** X5.  For a ply that is neither a castling nor a promotion the resolver
    returns the first legal move, in the order of generation, that
    satisfies the description: whether later legal moves satisfy it too is
    never looked at.  It throws only when no legal move satisfies it. *)
Theorem resolver_returns_first_match (ply : Ply) (board : ChessBoard)
    (mirror : bool) :
  isShortCastle ply = false -> isLongCastle ply = false ->
  promotion ply = false ->
  (forall skipped lm later,
      GenerateLegalMoves board = skipped ++ lm :: later ->
      (forall lm', In lm' skipped ->
                   Spec.satisfies_description ply board mirror lm' = false) ->
      Spec.satisfies_description ply board mirror lm = true ->
      ply_to_lc0_move assertions ply board mirror =
      Returned (Spec.candidate mirror lm)) /\
  (forall msg,
      ply_to_lc0_move assertions ply board mirror = Thrown msg ->
      msg = unrecognized ply /\
      forall lm, In lm (GenerateLegalMoves board) ->
                 Spec.satisfies_description ply board mirror lm = false) /\
  ply_to_lc0_move assertions ply board mirror <> AssertionFailed.
Proof.
  intros Hshort Hlong Hpromo. unfold ply_to_lc0_move.
  rewrite Hshort, Hlong. cbn [orb].
  rewrite resolve_candidates_find, Hpromo.
  split; [|split].
  - intros skipped lm later -> Hskipped Hsat.
    induction skipped as [|lm' skipped IH]; cbn [app find].
    + now rewrite Hsat.
    + rewrite (Hskipped lm') by now left.
      apply IH. intros lm'' Hin. apply Hskipped. now right.
  - intros msg.
    destruct (find _ _) as [lm|] eqn:Hfind; [discriminate|].
    intros [= <-]. split; [reflexivity|].
    intros lm Hin. now apply (find_none _ _ Hfind).
  - destruct (find _ _); discriminate.
Qed.


End ResolverOrder.

Lemma resolver_returns_first_match_witness :
  Spec.satisfies_description Scripted.Nf3 Samples.two_knights_board false
    Scripted.g1f3 = true /\
  ply_to_lc0_move true Scripted.Nf3 Samples.two_knights_board false =
  Returned Samples.d2f3.
Proof.
  split; [reflexivity|].
  apply (proj1 (resolver_returns_first_match true Scripted.Nf3
                  Samples.two_knights_board false eq_refl eq_refl eq_refl)
           [] Samples.d2f3 [Scripted.g1f3]).
  - reflexivity.
  - intros lm' [].
  - reflexivity.
Defined.


(** ** The ply loop, member by member *)

Section Frames.

Context {C : Collaborators}.

Ltac by_cases_on_tree :=
  intros; unfold update_tree, landed, Abort, shares_tree, tree_at;
  repeat match goal with
    | b : bool |- _ => destruct b
    | g : SelfPlayGame |- _ => destruct g as [? ? ? [?|] [?|] ? ? ? ? ? ? ?]
    end; reflexivity.

Lemma update_tree_options g b t : options_ (update_tree g b t) = options_ g.
Proof. by_cases_on_tree. Qed.
Lemma update_tree_chess960 g b t : chess960_ (update_tree g b t) = chess960_ g.
Proof. by_cases_on_tree. Qed.
Lemma update_tree_abort g b t : abort_ (update_tree g b t) = abort_ g.
Proof. by_cases_on_tree. Qed.
Lemma update_tree_search g b t : search_ (update_tree g b t) = search_ g.
Proof. by_cases_on_tree. Qed.
Lemma update_tree_result g b t :
  game_result_ (update_tree g b t) = game_result_ g.
Proof. by_cases_on_tree. Qed.
Lemma update_tree_min g b t : min_eval_ (update_tree g b t) = min_eval_ g.
Proof. by_cases_on_tree. Qed.
Lemma update_tree_max g b t : max_eval_ (update_tree g b t) = max_eval_ g.
Proof. by_cases_on_tree. Qed.
Lemma update_tree_data g b t :
  training_data_ (update_tree g b t) = training_data_ g.
Proof. by_cases_on_tree. Qed.
Lemma update_tree_moves g b t : move_count_ (update_tree g b t) = move_count_ g.
Proof. by_cases_on_tree. Qed.
Lemma update_tree_nodes g b t :
  nodes_total_ (update_tree g b t) = nodes_total_ g.
Proof. by_cases_on_tree. Qed.
Lemma update_tree_shares g b t :
  shares_tree (update_tree g b t) = shares_tree g.
Proof. by_cases_on_tree. Qed.
Lemma update_tree_at g b t : tree_at (update_tree g b t) b = t.
Proof. by_cases_on_tree. Qed.

Lemma update_tree_same g b :
  update_tree g b (tree_at g b) = set_trees g (tree0 g) (tree1 g).
Proof. by_cases_on_tree. Qed.
Lemma update_tree_twice g b t t' :
  update_tree (update_tree g b t) b t' = update_tree g b t'.
Proof. by_cases_on_tree. Qed.

Lemma update_tree_ext g g' b t :
  tree0 g = tree0 g' -> tree1 g = tree1 g' ->
  tree0 (update_tree g b t) = tree0 (update_tree g' b t) /\
  tree1 (update_tree g b t) = tree1 (update_tree g' b t).
Proof.
  unfold update_tree. intros -> ->.
  destruct b, (tree1 g'); cbn; auto.
Qed.

Lemma landed_options b g : options_ (landed b g) = options_ g.
Proof. by_cases_on_tree. Qed.
Lemma landed_chess960 b g : chess960_ (landed b g) = chess960_ g.
Proof. by_cases_on_tree. Qed.
Lemma landed_tree0 b g : tree0 (landed b g) = tree0 g.
Proof. by_cases_on_tree. Qed.
Lemma landed_tree1 b g : tree1 (landed b g) = tree1 g.
Proof. by_cases_on_tree. Qed.
Lemma landed_result b g : game_result_ (landed b g) = game_result_ g.
Proof. by_cases_on_tree. Qed.
Lemma landed_min b g : min_eval_ (landed b g) = min_eval_ g.
Proof. by_cases_on_tree. Qed.
Lemma landed_max b g : max_eval_ (landed b g) = max_eval_ g.
Proof. by_cases_on_tree. Qed.
Lemma landed_data b g : training_data_ (landed b g) = training_data_ g.
Proof. by_cases_on_tree. Qed.
Lemma landed_moves b g : move_count_ (landed b g) = move_count_ g.
Proof. by_cases_on_tree. Qed.
Lemma landed_nodes b g : nodes_total_ (landed b g) = nodes_total_ g.
Proof. by_cases_on_tree. Qed.
Lemma landed_tree_at b g blacks : tree_at (landed b g) blacks = tree_at g blacks.
Proof. unfold tree_at. now rewrite landed_tree0, landed_tree1. Qed.
Lemma landed_shares b g : shares_tree (landed b g) = shares_tree g.
Proof. unfold shares_tree. now rewrite landed_tree1. Qed.

Lemma shares_tree_set_search g s : shares_tree (set_search g s) = shares_tree g.
Proof. reflexivity. Qed.
Lemma shares_tree_set_abort g b : shares_tree (set_abort g b) = shares_tree g.
Proof. reflexivity. Qed.
Lemma shares_tree_set_result g r :
  shares_tree (set_game_result g r) = shares_tree g.
Proof. reflexivity. Qed.
Lemma shares_tree_set_evals g mn mx :
  shares_tree (set_evals g mn mx) = shares_tree g.
Proof. reflexivity. Qed.
Lemma shares_tree_set_data g d :
  shares_tree (set_training_data g d) = shares_tree g.
Proof. reflexivity. Qed.
Lemma shares_tree_set_counters g m n :
  shares_tree (set_counters g m n) = shares_tree g.
Proof. reflexivity. Qed.

Lemma tree_at_set_search g s b : tree_at (set_search g s) b = tree_at g b.
Proof. reflexivity. Qed.
Lemma tree_at_set_abort g a b : tree_at (set_abort g a) b = tree_at g b.
Proof. reflexivity. Qed.
Lemma tree_at_set_result g r b : tree_at (set_game_result g r) b = tree_at g b.
Proof. reflexivity. Qed.
Lemma tree_at_set_evals g mn mx b : tree_at (set_evals g mn mx) b = tree_at g b.
Proof. reflexivity. Qed.
Lemma tree_at_set_data g d b : tree_at (set_training_data g d) b = tree_at g b.
Proof. reflexivity. Qed.
Lemma tree_at_set_counters g m n b :
  tree_at (set_counters g m n) b = tree_at g b.
Proof. reflexivity. Qed.

End Frames.

Create Rewrite HintDb frame.
#[export] Hint Rewrite
  @update_tree_options @update_tree_chess960 @update_tree_abort
  @update_tree_search @update_tree_result @update_tree_min @update_tree_max
  @update_tree_data @update_tree_moves @update_tree_nodes
  @update_tree_shares @update_tree_at
  @landed_options @landed_chess960 @landed_tree0 @landed_tree1
  @landed_result @landed_min @landed_max @landed_data @landed_moves
  @landed_nodes @landed_tree_at @landed_shares @landed_abort
  @shares_tree_set_search @shares_tree_set_abort @shares_tree_set_result
  @shares_tree_set_evals @shares_tree_set_data @shares_tree_set_counters
  @tree_at_set_search @tree_at_set_abort @tree_at_set_result
  @tree_at_set_evals @tree_at_set_data @tree_at_set_counters : frame.

Ltac frame :=
  repeat (autorewrite with frame;
          cbn [options_ chess960_ tree0 tree1 search_ abort_ game_result_
               min_eval_ max_eval_ training_data_ move_count_ nodes_total_
               set_trees set_search set_abort set_game_result set_evals
               set_training_data set_counters game blacks_move openingMove
               events with_game emit state_of]).

Section Effects.

Context {C : Collaborators}.
Variable assertions : bool.
Variable retry_fuel : nat.
Variables white_threads black_threads : Z.
Variables training enable_resign : bool.
Variable syzygy_tb : option SyzygyTablebase.

(** What the first half of an iteration (lines 184-228) does to the game,
    case by case. *)
Lemma begin_ply_effects (il : Interleaving) (st : PlayState) :
  let g := game st in
  let b := blacks_move st in
  let verdict := ComputeGameResult (GetPositionHistory (tree0 g)) in
  (abort_ g = true /\
   begin_ply white_threads black_threads syzygy_tb il st = inl (Break st)) \/
  (abort_ g = false /\ verdict <> UNDECIDED /\
   begin_ply white_threads black_threads syzygy_tb il st =
   inl (Break (with_game st (set_game_result g verdict)))) \/
  (abort_ g = false /\ verdict = UNDECIDED /\
   exists g',
     options_ g' = options_ g /\ chess960_ g' = chess960_ g /\
     min_eval_ g' = min_eval_ g /\ max_eval_ g' = max_eval_ g /\
     training_data_ g' = training_data_ g /\
     shares_tree g' = shares_tree g /\
     game_result_ g' = UNDECIDED /\
     (exists t,
        searched_from (tree_at g b) t /\
        tree0 g' = tree0 (update_tree g b t) /\
        tree1 g' = tree1 (update_tree g b t)) /\
     ((abort_before_guard il = true /\ abort_ g' = true /\
       move_count_ g' = move_count_ g /\
       nodes_total_ g' = nodes_total_ g /\
       begin_ply white_threads black_threads syzygy_tb il st =
       inl (Break (with_game st g'))) \/
      (abort_before_guard il = false /\
       exists responder s,
         let st' :=
           with_game (emit st [EvSearch b responder (stoppers_of g b)]) g' in
         callbacks_of responder = b /\
         Spec.wrapped responder = negb (chess960_ g) /\
         search_ g' = Some s /\
         move_count_ g' = move_count_ g + 1 /\
         nodes_total_ g' = nodes_total_ g + GetTotalPlayouts s /\
         abort_ g' = abort_during_search il /\
         begin_ply white_threads black_threads syzygy_tb il st =
         if abort_during_search il then inl (Break st')
         else inr (match book_ply st with
                   | Some ply => valid ply
                   | None => false
                   end, s, st')))).
Proof.
  intros g b verdict. subst g b. unfold begin_ply.
  destruct (abort_ (game st)) eqn:Habort; [left; now split|].
  right. cbn [game_result_ set_game_result]. fold verdict.
  destruct verdict eqn:Hverdict; cbn [GameResult_eqb negb];
    try (left; split; [reflexivity|split; [discriminate|reflexivity]]).
  right. split; [reflexivity|]. split; [reflexivity|].
  match goal with
  | |- context [landed (abort_before_guard il) ?g] => set (g1 := g)
  end.
  assert (Hg1 :
    options_ g1 = options_ (game st) /\ chess960_ g1 = chess960_ (game st) /\
    min_eval_ g1 = min_eval_ (game st) /\ max_eval_ g1 = max_eval_ (game st) /\
    training_data_ g1 = training_data_ (game st) /\
    shares_tree g1 = shares_tree (game st) /\
    game_result_ g1 = UNDECIDED /\ abort_ g1 = false /\
    move_count_ g1 = move_count_ (game st) /\
    nodes_total_ g1 = nodes_total_ (game st)).
  { subst g1. destruct (negb (ReuseTree _)); frame; tauto. }
  destruct Hg1 as (Ho & Hc & Hmin & Hmax & Hdata & Hshare & Hres & Hab & Hmc & Hnt).
  assert (Htrees : exists t,
    searched_from (tree_at (game st) (blacks_move st)) t /\
    tree_at g1 (blacks_move st) = t /\
    tree0 g1 = tree0 (update_tree (game st) (blacks_move st) t) /\
    tree1 g1 = tree1 (update_tree (game st) (blacks_move st) t)).
  { subst g1. destruct (negb (ReuseTree _)).
    - eexists. split; [apply searched_trimmed, searched_not|].
      rewrite update_tree_at. split; [reflexivity|].
      apply update_tree_ext; reflexivity.
    - exists (tree_at (game st) (blacks_move st)).
      split; [apply searched_not|].
      rewrite update_tree_same. cbn. auto. }
  destruct Htrees as (t1 & Hfrom & Hat1 & Ht01 & Ht11).
  rewrite landed_abort, Hab. cbn [orb].
  destruct (abort_before_guard il) eqn:Hguard.
  { exists (landed true g1). frame.
    repeat (split; [assumption|]).
    split; [exists t1; auto|].
    left. rewrite Hab.
    repeat (split; [first [assumption | reflexivity]|]). reflexivity. }
  cbn [landed].
  match goal with
  | |- context [RunBlocking ?a ?b ?c] =>
      set (s0 := a); set (threads := b); set (tr := c)
  end.
  assert (Htr : tr = t1) by (subst tr; frame; exact Hat1).
  destruct (RunBlocking s0 threads tr) as [s t] eqn:Hrun.
  assert (Ht : t = snd (RunBlocking s0 threads t1))
    by now rewrite <- Htr, Hrun.
  clearbody s0 tr.
  match goal with
  | |- context [inr (_, s, with_game _ ?g)] => exists g
  end.
  frame. repeat (split; [assumption|]).
  split.
  { exists t. split; [rewrite Ht; now apply searched_run|].
    rewrite <- (update_tree_twice (game st) (blacks_move st) t1 t).
    apply update_tree_ext; frame; assumption. }
  right. split; [reflexivity|].
  exists (if negb (chess960_ g1)
          then Chess960Transformer (CallbackUciResponder (blacks_move st))
                 (GetBoard (HeadPosition (tree_at g1 (blacks_move st))))
          else CallbackUciResponder (blacks_move st)), s.
  cbv zeta. frame. rewrite Hab, Hmc, Hnt. cbn [orb].
  split; [destruct (negb (chess960_ g1)); reflexivity|].
  split; [rewrite <- Hc; destruct (chess960_ g1); reflexivity|].
  repeat (split; [reflexivity|]).
  unfold book_ply. destruct (openingMove st), (abort_during_search il);
    reflexivity.
Qed.

End Effects.

(** ** The retry loop: acceptance and termination *)

Section RetryFacts.

Context {C : Collaborators}.



(** What the loop has done when it is left. *)
Lemma retry_loop_trace (fuel : nat) (g : SelfPlayGame) (blacks : bool) :
  forall s evs move s' evs',
    retry_loop fuel g blacks s evs = Some (move, s', evs') ->
    exists k more,
      (k < fuel)%nat /\
      s' = Nat.iter k ResetBestMove s /\
      retry_iteration g blacks s' = Accepted move /\
      (forall j, (j < k)%nat ->
         forall m,
           retry_iteration g blacks (Nat.iter j ResetBestMove s) <>
           Accepted m) /\
      evs' = evs ++ more /\
      resets more = k /\ (discards more <= k)%nat /\
      searches more = O /\ commits more = O.
Proof.
  induction fuel as [|fuel IH]; intros s evs move s' evs';
    cbn [retry_loop]; [discriminate|].
  destruct (retry_iteration g blacks s) as [m|s1 reported] eqn:Hit.
  - intros [= <- <- <-]. exists O, []. cbn [Nat.iter].
    repeat split; try reflexivity; try lia.
    + exact Hit.
    + now rewrite app_nil_r.
  - intros Hloop. apply IH in Hloop.
    destruct Hloop as (k & more & Hk & Hs' & Hacc & Hbefore & -> & Hr & Hd
                       & Hsearch & Hcommit).
    assert (Hstep :
      s1 = ResetBestMove s /\
      resets reported = 1%nat /\ (discards reported <= 1)%nat /\
      searches reported = O /\ commits reported = O).
    { unfold retry_iteration in Hit.
      destruct (scan_edges _ _ _) as [mx cur].
      destruct (accepted _ _ _); [discriminate|].
      injection Hit as <- <-.
      destruct (GameResult_eqb _ _); cbn; repeat split; lia. }
    destruct Hstep as (-> & Hr1 & Hd1 & Hs1 & Hc1).
    exists (S k), (reported ++ more).
    unfold resets, discards, searches, commits in *.
    rewrite !filter_app, !length_app.
    repeat split; try lia.
    + rewrite Hs'. now rewrite Nat.iter_succ_r.
    + exact Hacc.
    + intros [|j] Hj m.
      * simpl Nat.iter. rewrite Hit. discriminate.
      * rewrite Nat.iter_succ_r. apply Hbefore. lia.
    + now rewrite app_assoc.
Qed.

(** X8.  The retry loop is left at the first candidate that passes the
    test of lines 295-297, after one [ResetBestMove] for each candidate
    that failed it and at most one report of a discarded move for each;
    it creates no search and makes no move. *)
Theorem retry_loop_stops_at_first_accepted (fuel : nat) (g : SelfPlayGame)
    (blacks : bool) (s : Search) (evs : list Event) (move : Move)
    (s' : Search) (evs' : list Event) :
  retry_loop fuel g blacks s evs = Some (move, s', evs') ->
  exists k more,
    s' = Nat.iter k ResetBestMove s /\
    move = GetBestMove s' /\
    retry_iteration g blacks s' = Accepted move /\
    (forall j, (j < k)%nat ->
       forall m,
         retry_iteration g blacks (Nat.iter j ResetBestMove s) <>
         Accepted m) /\
    evs' = evs ++ more /\
    resets more = k /\ (discards more <= k)%nat /\
    searches more = O /\ commits more = O.
Proof.
  intros Hloop.
  pose proof (retry_loop_move _ _ _ _ _ _ _ _ Hloop) as Hmove.
  apply retry_loop_trace in Hloop.
  destruct Hloop as (k & more & _ & H).
  exists k, more. tauto.
Qed.

Lemma retry_iteration_resets (g : SelfPlayGame) (blacks : bool)
    (s s1 : Search) (reported : list Event) :
  retry_iteration g blacks s = Retried s1 reported -> s1 = ResetBestMove s.
Proof.
  unfold retry_iteration.
  destruct (scan_edges _ _ _) as [mx cur].
  destruct (accepted _ _ _); [discriminate|]. now intros [= <- _].
Qed.

Lemma retry_loop_reaches (g : SelfPlayGame) (blacks : bool) (k : nat) :
  forall s evs m,
    retry_iteration g blacks (Nat.iter k ResetBestMove s) = Accepted m ->
    exists fuel result, retry_loop fuel g blacks s evs = Some result.
Proof.
  induction k as [|k IH]; intros s evs m Hacc.
  - exists 1%nat. cbn [retry_loop]. simpl Nat.iter in Hacc.
    rewrite Hacc. eauto.
  - destruct (retry_iteration g blacks s) as [m'|s1 reported] eqn:Hit.
    + exists 1%nat. cbn [retry_loop]. rewrite Hit. eauto.
    + pose proof (retry_iteration_resets _ _ _ _ _ Hit) as ->.
      rewrite Nat.iter_succ_r in Hacc.
      destruct (IH _ (evs ++ reported) _ Hacc) as (fuel & result & Hloop).
      exists (S fuel), result. cbn [retry_loop]. now rewrite Hit.
Qed.

(** X9.  The retry loop has no bound of its own: it is left if and only if
    the search, after some number of resets, offers a move that passes the
    test; while every offer fails it the loop keeps running. *)
Theorem retry_loop_ends_iff_accepted (g : SelfPlayGame) (blacks : bool)
    (s : Search) (evs : list Event) :
  ((exists fuel result, retry_loop fuel g blacks s evs = Some result) <->
   (exists k m,
      retry_iteration g blacks (Nat.iter k ResetBestMove s) = Accepted m)) /\
  ((forall k m,
      retry_iteration g blacks (Nat.iter k ResetBestMove s) <> Accepted m) ->
   forall fuel, retry_loop fuel g blacks s evs = None).
Proof.
  assert (Hleft :
    (exists fuel result, retry_loop fuel g blacks s evs = Some result) ->
    exists k m,
      retry_iteration g blacks (Nat.iter k ResetBestMove s) = Accepted m).
  { intros (fuel & [[move s'] evs'] & Hloop).
    apply retry_loop_trace in Hloop.
    destruct Hloop as (k & more & _ & -> & Hacc & _). now exists k, move. }
  split; [split; [exact Hleft|]|].
  - intros (k & m & Hacc). now apply (retry_loop_reaches g blacks k s evs m).
  - intros Hnever fuel.
    destruct (retry_loop fuel g blacks s evs) as [result|] eqn:Hloop;
      [|reflexivity].
    destruct Hleft as (k & m & Hacc); [eauto|].
    now elim (Hnever k m).
Qed.

End RetryFacts.


Lemma retry_loop_stops_at_first_accepted_witness :
  let sc := Scripted.script Scripted.two_edges (F32.percent 0, F32.percent 2) in
  let g := Scripted.new_game sc (Scripted.player 0 false 5) in
  exists k more,
    1%nat = Nat.iter k (ResetBestMove (Collaborators := Scripted.collaborators sc)) O /\
    Scripted.e2e4 = GetBestMove (Collaborators := Scripted.collaborators sc) 1%nat /\
    retry_iteration (C := Scripted.collaborators sc) g false 1%nat =
    Accepted (C := Scripted.collaborators sc) Scripted.e2e4 /\
    (forall j, (j < k)%nat ->
       forall m,
         retry_iteration (C := Scripted.collaborators sc) g false
           (Nat.iter j (ResetBestMove (Collaborators := Scripted.collaborators sc)) O) <>
         Accepted (C := Scripted.collaborators sc) m) /\
    [EvDiscarded false [Scripted.g1f3]; EvResetBestMove] = [] ++ more /\
    resets more = k /\ (discards more <= k)%nat /\
    searches more = O /\ commits more = O.
Proof.
  intros sc g.
  apply (retry_loop_stops_at_first_accepted (C := Scripted.collaborators sc)
           5 g false O [] Scripted.e2e4 1%nat
           [EvDiscarded false [Scripted.g1f3]; EvResetBestMove]).
  reflexivity.
Defined.

Lemma retry_loop_ends_iff_accepted_witness :
  Samples.stubborn O = Scripted.g1f3 /\
  forall fuel,
    retry_loop (C := Scripted.collaborators Samples.stubborn_script) fuel
      (Scripted.new_game Samples.stubborn_script (Scripted.player 0 false 5))
      false O [] = None.
Proof.
  split; [reflexivity|].
  apply (proj2
    (retry_loop_ends_iff_accepted
       (C := Scripted.collaborators Samples.stubborn_script)
       (Scripted.new_game Samples.stubborn_script (Scripted.player 0 false 5))
       false O [])).
  intros k m. vm_compute. discriminate.
Defined.

(** ** One ply, case by case *)

Section Plies.

Context {C : Collaborators}.
Variable assertions : bool.
Variable retry_fuel : nat.
Variables white_threads black_threads : Z.
Variables training enable_resign : bool.
Variable syzygy_tb : option SyzygyTablebase.

(** A rule for the ply loop: [I] holds between iterations, [Q] of the way
    the loop is left. *)
Lemma Play_loop_rule (I : PlayState -> Prop) (Q : LoopStep -> Prop) :
  (forall st, I st -> Q (Continue st)) ->
  (forall il st, I st ->
     match play_ply assertions retry_fuel white_threads black_threads training
             enable_resign syzygy_tb il st with
     | Continue st' => I st'
     | stop => Q stop
     end) ->
  forall schedule st, I st -> Q (Play_loop assertions retry_fuel white_threads black_threads training
         enable_resign syzygy_tb schedule st).
Proof.
  intros Hdone Hstep.
  induction schedule as [|il schedule IH]; intros st Hst; cbn [Play_loop].
  - now apply Hdone.
  - specialize (Hstep il st Hst).
    destruct (play_ply _ _ _ _ _ _ _ il st); auto.
Qed.

Lemma record_evaluation_data (s : Search) (st : PlayState) :
  let g := game st in
  let g1 := record_evaluation training s st in
  game_result_ g1 = game_result_ g /\
  move_count_ g1 = move_count_ g /\
  nodes_total_ g1 = nodes_total_ g /\
  shares_tree g1 = shares_tree g /\
  training_data_ g1 =
  training_data_ g ++
  (if training then
     [GetV4TrainingData (tree_at g (blacks_move st)) UNDECIDED
        (GetPositionHistory (tree_at g (blacks_move st))) s
        (fst (GetBestEval s)) (snd (GetBestEval s))]
   else []).
Proof.
  unfold record_evaluation.
  destruct training; cbn [min_eval_ max_eval_ set_training_data];
    destruct (min_eval_ (game st)) as [min0 min1];
    destruct (max_eval_ (game st)) as [[max0 max1] max2];
    cbn; rewrite ?app_nil_r; tauto.
Qed.

Lemma resign_check_decided (o : UciOptions) (blacks : bool) (n : Z)
    (eval w d l : F32.float) (r : GameResult) :
  resign_check enable_resign o blacks n eval w d l = Some r ->
  r <> UNDECIDED /\ enable_resign = true.
Proof.
  unfold resign_check.
  destruct enable_resign; [|discriminate]. cbn [andb].
  repeat match goal with
    | |- context [if ?c then _ else _] => destruct c
    end; intros [= <-]; split; (discriminate || reflexivity).
Qed.

Lemma cursor_after (st : PlayState) :
  match openingMove st with
  | _ :: rest => if blacks_move st then rest else openingMove st
  | [] => []
  end =
  if blacks_move st then tl (openingMove st) else openingMove st.
Proof. destruct (openingMove st), (blacks_move st); reflexivity. Qed.

(** What the second half of an iteration (lines 230-332) does, case by
    case, after a search that returned unaborted. *)
Lemma after_search_effects (il : Interleaving) (inBook : bool) (s : Search)
    (st : PlayState) :
  abort_ (game st) = false ->
  let step :=
    after_search assertions retry_fuel training enable_resign il inBook s st in
  let st' := state_of step in
  let g := game st in
  let g' := game st' in
  let b := blacks_move st in
  options_ g' = options_ g /\ chess960_ g' = chess960_ g /\
  shares_tree g' = shares_tree g /\
  move_count_ g' = move_count_ g /\ nodes_total_ g' = nodes_total_ g /\
  exists recs more,
    training_data_ g' = training_data_ g ++ recs /\
    List.length recs = (if training then 1 else 0)%nat /\
    events st' = events st ++ more /\
    searches more = O /\
    ((step = Break st' /\ game_result_ g' <> UNDECIDED /\
      enable_resign = true /\ more = [] /\ abort_ g' = false /\
      tree0 g' = tree0 g /\ tree1 g' = tree1 g /\
      blacks_move st' = b /\ openingMove st' = openingMove st) \/
     (step = RetryDiverges st' /\ more = [] /\
      game_result_ g' = game_result_ g /\
      tree0 g' = tree0 g /\ tree1 g' = tree1 g /\
      blacks_move st' = b /\ openingMove st' = openingMove st) \/
     (exists ply msg,
        step = Throws msg st' /\ inBook = true /\
        book_ply st = Some ply /\
        ply_to_lc0_move assertions ply
          (GetBoard (Last (GetPositionHistory (tree_at g b)))) b =
        Thrown msg /\
        commits more = O /\ game_result_ g' = game_result_ g /\
        tree0 g' = tree0 g /\ tree1 g' = tree1 g /\
        blacks_move st' = b /\ openingMove st' = openingMove st) \/
     (exists ply,
        step = AssertStops st' /\ inBook = true /\
        book_ply st = Some ply /\
        ply_to_lc0_move assertions ply
          (GetBoard (Last (GetPositionHistory (tree_at g b)))) b =
        AssertionFailed /\
        commits more = O /\ game_result_ g' = game_result_ g /\
        tree0 g' = tree0 g /\ tree1 g' = tree1 g /\
        blacks_move st' = b /\ openingMove st' = openingMove st) \/
     (exists m retry s',
        step = Continue st' /\
        more = retry ++ [EvMakeMove m] /\ commits retry = O /\
        game_result_ g' = game_result_ g /\
        abort_ g' = abort_after_search il /\
        blacks_move st' = negb b /\
        openingMove st' =
        (if b then tl (openingMove st) else openingMove st) /\
        tree0 g' = MakeMove (tree0 g) m /\
        tree1 g' = option_map (fun t => MakeMove t m) (tree1 g) /\
        match book_ply st with
        | Some ply =>
          if inBook then
            ply_to_lc0_move assertions ply
              (GetBoard (Last (GetPositionHistory (tree_at g b)))) b =
            Returned m
          else m = GetBestMove s'
        | None => m = GetBestMove s'
        end)).
Proof.
  intros Habort step st' g g' b. subst step st' g g' b.
  unfold after_search.
  destruct (record_evaluation_members training s st)
    as (Ho & Hc & Ht0 & Ht1 & Hs & Ha).
  destruct (record_evaluation_data s st) as (Hr & Hmc & Hnt & Hsh & Hdata).
  set (g1 := record_evaluation training s st) in *. cbv zeta in *.
  assert (Htree : forall blacks, tree_at g1 blacks = tree_at (game st) blacks).
  { intros blacks. unfold tree_at. now rewrite Ht0, Ht1. }
  assert (Hrecs : exists recs,
    training_data_ g1 = training_data_ (game st) ++ recs /\
    List.length recs = (if training then 1 else 0)%nat).
  { eexists. split; [exact Hdata|]. destruct training; reflexivity. }
  destruct Hrecs as (recs & Hrecs & Hlen).
  destruct (resign_check _ _ _ _ _ _ _ _) as [r|] eqn:Hcheck.
  { apply resign_check_decided in Hcheck. destruct Hcheck as [Hr' Hen].
    frame. repeat (split; [assumption|]).
    exists recs, []. rewrite app_nil_r.
    repeat (split; [first [assumption | reflexivity]|]).
    left. repeat split; congruence. }
  set (g2 := landed (abort_after_search il) g1).
  destruct (retry_loop _ _ _ _ _) as [[[move s'] evs]|] eqn:Hloop.
  2:{ subst g2. frame.
      repeat (split; [assumption|]).
      exists recs, []. rewrite app_nil_r.
      repeat (split; [first [assumption | reflexivity]|]).
      right. left. repeat split; congruence. }
  apply retry_loop_trace in Hloop.
  destruct Hloop as (k & retry & _ & _ & _ & _ & Hevs & _ & _ & Hsearch
                     & Hcommit).
  cbn [app] in Hevs. subst evs.
  match goal with
  | |- context [commit assertions inBook s' ?x] =>
      set (st3 := x);
      pose proof (commit_effects assertions inBook s' st3) as Heff
  end.
  cbv zeta in Heff.
  assert (Hbook : book_ply st3 = book_ply st) by reflexivity.
  assert (Htree3 : tree_at (game st3) (blacks_move st3) =
                   tree_at (game st) (blacks_move st)).
  { subst st3 g2. frame. apply Htree. }
  rewrite Hbook, Htree3 in Heff. rewrite cursor_after in Heff.
  assert (Hframe3 :
    options_ (game st3) = options_ (game st) /\
    chess960_ (game st3) = chess960_ (game st) /\
    shares_tree (game st3) = shares_tree (game st) /\
    move_count_ (game st3) = move_count_ (game st) /\
    nodes_total_ (game st3) = nodes_total_ (game st) /\
    training_data_ (game st3) = training_data_ (game st) ++ recs /\
    game_result_ (game st3) = game_result_ (game st) /\
    abort_ (game st3) = abort_after_search il /\
    tree0 (game st3) = tree0 (game st) /\
    tree1 (game st3) = tree1 (game st) /\
    events st3 = events st ++ retry /\
    blacks_move st3 = blacks_move st /\
    openingMove st3 = openingMove st).
  { subst st3 g2. frame. rewrite Ha, Habort. cbn [orb].
    repeat split; assumption. }
  destruct Hframe3 as (Ho3 & Hc3 & Hsh3 & Hmc3 & Hnt3 & Hd3 & Hr3 & Ha3 & Ht03
                       & Ht13 & Hev3 & Hb3 & Hom3).
  rewrite Hb3 in Heff. clearbody st3.
  destruct (match book_ply st with
            | Some ply =>
              if inBook then
                ply_to_lc0_move assertions ply
                  (GetBoard (Last (GetPositionHistory
                     (tree_at (game st) (blacks_move st)))))
                  (blacks_move st)
              else Returned (GetBestMove s')
            | None => Returned (GetBestMove s')
            end) as [m|msg|] eqn:Hdet; rewrite Heff; clear Heff.
  - cbn [state_of game]. frame. unfold shares_tree in *. cbn [tree1 set_trees].
    rewrite ?Ho3, ?Hc3, ?Hmc3, ?Hnt3, ?Hd3, ?Hev3, ?Hb3, ?Hom3, ?Hr3, ?Ha3,
      ?Ht03, ?Ht13.
    split; [reflexivity|]. split; [reflexivity|].
    split; [destruct (tree1 (game st)); reflexivity|].
    split; [reflexivity|]. split; [reflexivity|].
    exists recs, (retry ++ [EvMakeMove m]).
    split; [reflexivity|]. split; [assumption|].
    split; [now rewrite app_assoc|].
    split.
    { unfold searches in *. rewrite filter_app, length_app, Hsearch.
      reflexivity. }
    do 4 right. exists m, retry, s'.
    repeat (split; [first [assumption | reflexivity]|]).
    destruct (book_ply st) as [ply|]; [destruct inBook|];
      congruence.
  - cbn [state_of]. rewrite Ho3, Hc3, Hsh3, Hmc3, Hnt3, Hd3, Hev3, Hr3.
    repeat (split; [reflexivity|]).
    exists recs, retry.
    repeat (split; [first [assumption | reflexivity]|]).
    do 2 right. left.
    destruct (book_ply st) as [ply|]; [destruct inBook|]; try discriminate.
    exists ply, msg. repeat split; assumption.
  - cbn [state_of]. rewrite Ho3, Hc3, Hsh3, Hmc3, Hnt3, Hd3, Hev3, Hr3.
    repeat (split; [reflexivity|]).
    exists recs, retry.
    repeat (split; [first [assumption | reflexivity]|]).
    do 3 right. left.
    destruct (book_ply st) as [ply|]; [destruct inBook|]; try discriminate.
    exists ply. repeat split; assumption.
Qed.

(** What one iteration of the ply loop does, case by case. *)
Lemma play_ply_effects (il : Interleaving) (st : PlayState) :
  let step :=
    play_ply assertions retry_fuel white_threads black_threads training
      enable_resign syzygy_tb il st in
  let st' := state_of step in
  let g := game st in
  let g' := game st' in
  let b := blacks_move st in
  let verdict := ComputeGameResult (GetPositionHistory (tree0 g)) in
  options_ g' = options_ g /\ chess960_ g' = chess960_ g /\
  shares_tree g' = shares_tree g /\
  exists new recs,
    events st' = events st ++ new /\
    training_data_ g' = training_data_ g ++ recs /\
    move_count_ g' = move_count_ g + Z.of_nat (searches new) /\
    (searches new <= 1)%nat /\
    search_sides new = repeat b (searches new) /\
    (forall blacks responder stoppers,
        In (EvSearch blacks responder stoppers) new ->
        stoppers = stoppers_of g blacks /\
        callbacks_of responder = blacks /\
        Spec.wrapped responder = negb (chess960_ g)) /\
    match step with
    | Break _ =>
      commits new = O /\
      blacks_move st' = b /\ openingMove st' = openingMove st /\
      ((abort_ g = true /\ st' = st /\ new = [] /\ recs = []) \/
       (abort_ g = false /\ verdict <> UNDECIDED /\
        g' = set_game_result g verdict /\ new = [] /\ recs = []) \/
       (abort_ g = false /\ verdict = UNDECIDED /\
        abort_ g' = true /\ game_result_ g' = UNDECIDED /\ recs = [] /\
        ((abort_before_guard il = true /\ new = []) \/
         (abort_before_guard il = false /\ abort_during_search il = true /\
          searches new = 1%nat))) \/
       (abort_ g = false /\ verdict = UNDECIDED /\
        abort_before_guard il = false /\ abort_during_search il = false /\
        abort_ g' = false /\ game_result_ g' <> UNDECIDED /\
        enable_resign = true /\ searches new = 1%nat /\
        List.length recs = (if training then 1 else 0)%nat))
    | Continue _ =>
      abort_ g = false /\ verdict = UNDECIDED /\
      abort_before_guard il = false /\ abort_during_search il = false /\
      searches new = 1%nat /\ commits new = 1%nat /\
      List.length recs = (if training then 1 else 0)%nat /\
      game_result_ g' = UNDECIDED /\
      abort_ g' = abort_after_search il /\
      blacks_move st' = negb b /\
      openingMove st' = (if b then tl (openingMove st) else openingMove st)
    | Throws msg _ =>
      searches new = 1%nat /\ commits new = O /\
      List.length recs = (if training then 1 else 0)%nat /\
      game_result_ g' = UNDECIDED /\ blacks_move st' = b /\
      exists ply,
        book_ply st = Some ply /\ valid ply = true /\
        ply_to_lc0_move assertions ply
          (GetBoard (Last (GetPositionHistory (tree_at g' b)))) b =
        Thrown msg
    | AssertStops _ =>
      searches new = 1%nat /\ commits new = O /\
      List.length recs = (if training then 1 else 0)%nat /\
      game_result_ g' = UNDECIDED /\ blacks_move st' = b /\
      exists ply,
        book_ply st = Some ply /\ valid ply = true /\
        ply_to_lc0_move assertions ply
          (GetBoard (Last (GetPositionHistory (tree_at g' b)))) b =
        AssertionFailed
    | RetryDiverges _ =>
      searches new = 1%nat /\ commits new = O /\
      List.length recs = (if training then 1 else 0)%nat /\
      game_result_ g' = UNDECIDED /\ blacks_move st' = b
    end.
Proof.
  intros step st' g g' b verdict. subst step st' g g' b.
  unfold play_ply.
  destruct (begin_ply_effects white_threads black_threads syzygy_tb il st)
    as [[Habort ->]|[(Habort & Hverdict & ->)|(Habort & Hverdict & g1 & Ho
        & Hc & Hmin & Hmax & Hdata & Hshare & Hres & _ & Hcase)]].
  - cbn [state_of]. repeat (split; [reflexivity|]).
    exists [], []. rewrite !app_nil_r. cbn.
    repeat (split; [first [reflexivity | lia]|]). left. auto.
  - cbn [state_of]. frame. repeat (split; [reflexivity|]).
    exists [], []. rewrite !app_nil_r. cbn.
    repeat (split; [first [reflexivity | lia]|]). right. left. auto.
  - destruct Hcase as [(Hguard & Hab & Hmc & Hnt & ->)
                      |(Hguard & responder & s & Hcb & Hwrap & Hs & Hmc & Hnt
                        & Hab & ->)].
    + cbn [state_of]. frame. repeat (split; [assumption|]).
      exists [], []. rewrite !app_nil_r. cbn. rewrite Z.add_0_r.
      repeat (split; [first [assumption | reflexivity | lia]|]).
      right. right. left.
      repeat (split; [first [assumption | reflexivity]|]). left. auto.
    + set (ev := EvSearch (blacks_move st) responder
                   (stoppers_of (game st) (blacks_move st))) in *.
      assert (Hev : forall blacks r stp,
        In (EvSearch blacks r stp) [ev] ->
        stp = stoppers_of (game st) blacks /\ callbacks_of r = blacks /\
        Spec.wrapped r = negb (chess960_ (game st))).
      { intros blacks r stp [[= <- <- <-]|[]]. auto. }
      destruct (abort_during_search il) eqn:Hduring.
      * cbn [state_of]. frame. repeat (split; [assumption|]).
        exists [ev], []. rewrite !app_nil_r. cbn.
        repeat (split; [first [assumption | reflexivity | lia]|]).
        right. right. left.
        repeat (split; [first [assumption | reflexivity]|]). right. auto.
      * match goal with
        | |- context [after_search _ _ _ _ il ?ib s ?x] =>
            set (inBook := ib);
            set (st1 := x);
            pose proof (after_search_effects il inBook s st1 Hab) as Heff
        end.
        cbv zeta in Heff.
        destruct Heff as (Ho' & Hc' & Hsh' & Hmc' & Hnt' & recs & more & Hd'
                          & Hlen & Hev' & Hsearch & Hcases).
        assert (Hst1 :
          game st1 = g1 /\ blacks_move st1 = blacks_move st /\
          openingMove st1 = openingMove st /\
          events st1 = events st ++ [ev] /\ book_ply st1 = book_ply st)
          by (subst st1; cbn; auto).
        destruct Hst1 as (Hg1 & Hb1 & Hom1 & Hev1 & Hbook1).
        rewrite Hg1, ?Hb1, ?Hom1, ?Hev1, ?Hbook1 in *. clearbody st1.
        set (step := after_search assertions retry_fuel training enable_resign
                       il inBook s st1) in *.
        assert (Hsearches : searches (ev :: more) = 1%nat).
        { unfold searches in *. cbn. now rewrite Hsearch. }
        assert (Hsides :
          search_sides (ev :: more) = repeat (blacks_move st) 1).
        { cbn. f_equal. clear - Hsearch. unfold searches in Hsearch.
          induction more as [|e more IH]; [reflexivity|].
          destruct e; cbn in *; try discriminate; auto. }
        assert (Hin : forall blacks r stp,
          In (EvSearch blacks r stp) (ev :: more) ->
          stp = stoppers_of (game st) blacks /\ callbacks_of r = blacks /\
          Spec.wrapped r = negb (chess960_ (game st))).
        { intros blacks r stp [Hin|Hin]; [apply Hev; now left|].
          exfalso. clear - Hsearch Hin. unfold searches in Hsearch.
          induction more as [|e more IH]; [destruct Hin|].
          destruct Hin as [->|Hin]; [discriminate|].
          destruct e; cbn in *; try discriminate; auto. }
        split; [congruence|]. split; [congruence|]. split; [congruence|].
        exists (ev :: more), recs.
        split; [rewrite Hev', <- app_assoc; reflexivity|].
        split; [congruence|].
        split; [rewrite Hsearches; lia|].
        split; [lia|].
        split; [now rewrite Hsearches|].
        split; [exact Hin|].
        assert (Hcommits : forall n, commits more = n ->
                                     commits (ev :: more) = n) by auto.
        destruct Hcases as
          [(Hstep & Hr & Hen & Hmore & Ha' & Ht0 & Ht1 & Hb' & Hom')
          |[(Hstep & Hmore & Hr & Ht0 & Ht1 & Hb' & Hom')
          |[(ply & msg & Hstep & Hib & Hply & Hthrown & Hcm & Hr & Ht0 & Ht1
             & Hb' & Hom')
          |[(ply & Hstep & Hib & Hply & Hassert & Hcm & Hr & Ht0 & Ht1
             & Hb' & Hom')
          |(m & retry & s' & Hstep & Hmore & Hcm & Hr & Ha' & Hb' & Hom'
            & _)]]]];
          rewrite Hstep in *; cbn [state_of] in *.
        -- subst more.
           repeat (split; [first [assumption | reflexivity]|]).
           do 3 right. repeat split; assumption.
        -- subst more.
           repeat (split; [first [assumption | reflexivity | congruence]|]).
           assumption.
        -- repeat (split; [first [assumption | reflexivity | congruence | now apply Hcommits]|]).
           exists ply. split; [assumption|].
           split.
           { subst inBook. rewrite Hply in Hib. exact Hib. }
           unfold tree_at in *. rewrite Ht0, Ht1. exact Hthrown.
        -- repeat (split; [first [assumption | reflexivity | congruence | now apply Hcommits]|]).
           exists ply. split; [assumption|].
           split.
           { subst inBook. rewrite Hply in Hib. exact Hib. }
           unfold tree_at in *. rewrite Ht0, Ht1. exact Hassert.
        -- repeat (split; [first [assumption | reflexivity | congruence]|]).
           split.
           { subst more. unfold commits in *. cbn.
             rewrite filter_app, length_app, Hcm. reflexivity. }
           repeat (split; [first [assumption | reflexivity | congruence]|]).
           assumption.
Qed.

(** What one iteration does to the trees: the tree of the side to move is
    trimmed and searched, and when the iteration ends with a move, the move
    is made on that tree and on the other. *)
Lemma play_ply_trees (il : Interleaving) (st : PlayState) :
  let step :=
    play_ply assertions retry_fuel white_threads black_threads training
      enable_resign syzygy_tb il st in
  let g := game st in
  let g' := game (state_of step) in
  let b := blacks_move st in
  exists t,
    searched_from (tree_at g b) t /\
    match step with
    | Continue st' =>
      exists m before,
        events st' = before ++ [EvMakeMove m] /\
        tree0 g' = MakeMove (tree0 (update_tree g b t)) m /\
        tree1 g' =
        option_map (fun t1 => MakeMove t1 m) (tree1 (update_tree g b t))
    | _ =>
      tree0 g' = tree0 (update_tree g b t) /\
      tree1 g' = tree1 (update_tree g b t)
    end.
Proof.
  intros step g g' b. subst step g g' b. unfold play_ply.
  assert (Hsame :
    tree0 (game st) =
    tree0 (update_tree (game st) (blacks_move st)
             (tree_at (game st) (blacks_move st))) /\
    tree1 (game st) =
    tree1 (update_tree (game st) (blacks_move st)
             (tree_at (game st) (blacks_move st))))
    by (rewrite update_tree_same; auto).
  destruct (begin_ply_effects white_threads black_threads syzygy_tb il st)
    as [[Habort ->]|[(Habort & Hverdict & ->)|(Habort & Hverdict & g1 & Ho
        & Hc & Hmin & Hmax & Hdata & Hshare & Hres & (t & Hfrom & Ht0 & Ht1)
        & Hcase)]].
  - exists (tree_at (game st) (blacks_move st)).
    split; [apply searched_not | exact Hsame].
  - exists (tree_at (game st) (blacks_move st)).
    split; [apply searched_not | exact Hsame].
  - exists t. split; [exact Hfrom|].
    destruct Hcase as [(Hguard & Hab & Hmc & Hnt & ->)
                      |(Hguard & responder & s & Hcb & Hwrap & Hs & Hmc & Hnt
                        & Hab & ->)]; [cbn; auto|].
    destruct (abort_during_search il); [cbn; auto|].
    match goal with
    | |- context [after_search _ _ _ _ il ?ib s ?x] =>
        pose proof (after_search_effects il ib s x Hab) as Heff;
        destruct (after_search assertions retry_fuel training enable_resign
                    il ib s x) as [st'|st'|msg st'|st'|st']
    end;
      cbv zeta in Heff; cbn [state_of game with_game] in Heff |- *;
      destruct Heff as (_ & _ & _ & _ & _ & recs & more & _ & _ & Hev & _
                        & Hcases);
      destruct Hcases as
        [(Hstep & _ & _ & _ & _ & Ht0' & Ht1' & _)
        |[(Hstep & _ & _ & Ht0' & Ht1' & _)
        |[(ply & msg' & Hstep & _ & _ & _ & _ & _ & Ht0' & Ht1' & _)
        |[(ply & Hstep & _ & _ & _ & _ & _ & Ht0' & Ht1' & _)
        |(m & retry & s' & Hstep & Hmore & _ & _ & _ & _ & _ & Ht0' & Ht1'
          & _)]]]];
      try discriminate Hstep; try (split; congruence).
    exists m. eexists. split.
    + rewrite Hev, Hmore, app_assoc. reflexivity.
    + split; congruence.
Qed.

End Plies.

(** ** Runs of the ply loop *)

Lemma searches_app (a b : list Event) :
  searches (a ++ b) = (searches a + searches b)%nat.
Proof. unfold searches. now rewrite filter_app, length_app. Qed.

Lemma commits_app (a b : list Event) :
  commits (a ++ b) = (commits a + commits b)%nat.
Proof. unfold commits. now rewrite filter_app, length_app. Qed.

Lemma search_sides_app (a b : list Event) :
  search_sides (a ++ b) = search_sides a ++ search_sides b.
Proof.
  induction a as [|e a IH]; [reflexivity|].
  destruct e; cbn; now rewrite IH.
Qed.

Lemma alternating_app (b : bool) (n k : nat) :
  alternating b (n + k) =
  alternating b n ++ alternating (Nat.iter n negb b) k.
Proof.
  revert b. induction n as [|n IH]; intros b; [reflexivity|].
  cbn [Nat.add alternating app]. rewrite IH. do 2 f_equal.
  now rewrite Nat.iter_succ_r.
Qed.

Section Runs.

Context {C : Collaborators}.
Variable assertions : bool.
Variable retry_fuel : nat.
Variables white_threads black_threads : Z.
Variables training enable_resign : bool.
Variable syzygy_tb : option SyzygyTablebase.

(** The counters along a run of the ply loop. *)
Lemma Play_loop_counts (schedule : list Interleaving) (st0 : PlayState) :
  let step :=
    Play_loop assertions retry_fuel white_threads black_threads training
      enable_resign syzygy_tb schedule st0 in
  let st' := state_of step in
  exists new recs,
    events st' = events st0 ++ new /\
    training_data_ (game st') = training_data_ (game st0) ++ recs /\
    move_count_ (game st') =
    move_count_ (game st0) + Z.of_nat (searches new) /\
    (commits new <= searches new <= commits new + 1)%nat /\
    (if training
     then (commits new <= List.length recs <= searches new)%nat
     else recs = []) /\
    match step with
    | Continue _ =>
      commits new = searches new /\
      (training = true -> List.length recs = commits new)
    | _ => True
    end.
Proof.
  intros step st'. subst step st'.
  apply (Play_loop_rule assertions retry_fuel white_threads black_threads
           training enable_resign syzygy_tb
    (fun st =>
       exists new recs,
         events st = events st0 ++ new /\
         training_data_ (game st) = training_data_ (game st0) ++ recs /\
         move_count_ (game st) =
         move_count_ (game st0) + Z.of_nat (searches new) /\
         commits new = searches new /\
         List.length recs = (if training then searches new else O))
    (fun step =>
       exists new recs,
         events (state_of step) = events st0 ++ new /\
         training_data_ (game (state_of step)) =
         training_data_ (game st0) ++ recs /\
         move_count_ (game (state_of step)) =
         move_count_ (game st0) + Z.of_nat (searches new) /\
         (commits new <= searches new <= commits new + 1)%nat /\
         (if training
          then (commits new <= List.length recs <= searches new)%nat
          else recs = []) /\
         match step with
         | Continue _ =>
           commits new = searches new /\
           (training = true -> List.length recs = commits new)
         | _ => True
         end)).
  - intros st (new & recs & Hev & Hd & Hmc & Hcs & Hlen).
    exists new, recs. cbn [state_of].
    repeat (split; [first [assumption | lia]|]).
    split.
    + destruct training; [lia|]. now destruct recs.
    + split; [assumption|]. intros ->. lia.
  - intros il st (new & recs & Hev & Hd & Hmc & Hcs & Hlen).
    destruct (play_ply_effects assertions retry_fuel white_threads
                black_threads training enable_resign syzygy_tb il st)
      as (_ & _ & _ & new' & recs' & Hev' & Hd' & Hmc' & Hle & _ & _ & Hcase).
    assert (Hall :
      events (state_of (play_ply assertions retry_fuel white_threads
                          black_threads training enable_resign syzygy_tb
                          il st)) = events st0 ++ (new ++ new') /\
      training_data_ (game (state_of (play_ply assertions retry_fuel
                          white_threads black_threads training enable_resign
                          syzygy_tb il st))) =
      training_data_ (game st0) ++ (recs ++ recs') /\
      move_count_ (game (state_of (play_ply assertions retry_fuel
                          white_threads black_threads training enable_resign
                          syzygy_tb il st))) =
      move_count_ (game st0) + Z.of_nat (searches (new ++ new'))).
    { rewrite Hev', Hd', Hmc', Hev, Hd, Hmc, searches_app, !app_assoc.
      repeat split. lia. }
    destruct Hall as (Hev2 & Hd2 & Hmc2).
    destruct (play_ply _ _ _ _ _ _ _ il st) as [st'|st'|msg st'|st'|st'];
      cbn [state_of] in *; exists (new ++ new'), (recs ++ recs');
      (split; [exact Hev2|]); (split; [exact Hd2|]); (split; [exact Hmc2|]);
      rewrite ?searches_app, ?commits_app, ?length_app.
    + destruct Hcase as (Hcm & _ & _ & Hcases).
      assert (Hrecs' : (List.length recs' <= searches new')%nat /\
                       (training = false -> recs' = [])).
      { destruct Hcases as [(_ & _ & _ & ->)|[(_ & _ & _ & _ & ->)
          |[(_ & _ & _ & _ & -> & _)|(_ & _ & _ & _ & _ & _ & _ & Hs1 & Hl1)]]];
          try (cbn; split; [lia | reflexivity]).
        rewrite Hs1, Hl1. split; [destruct training; lia|].
        intros Ht. rewrite Ht in Hl1. now destruct recs'. }
      destruct Hrecs' as [Hl Hnil].
      split; [lia|]. split; [|exact I].
      destruct training; [lia|].
      rewrite Hnil by reflexivity. destruct recs; [reflexivity|discriminate].
    + destruct Hcase as (_ & _ & _ & _ & Hs1 & Hc1 & Hl1 & _).
      destruct training; lia.
    + destruct Hcase as (Hs1 & Hc1 & Hl1 & _).
      split; [lia|]. split; [|exact I].
      destruct training; [lia|].
      destruct recs, recs'; try discriminate. reflexivity.
    + destruct Hcase as (Hs1 & Hc1 & Hl1 & _).
      split; [lia|]. split; [|exact I].
      destruct training; [lia|].
      destruct recs, recs'; try discriminate. reflexivity.
    + destruct Hcase as (Hs1 & Hc1 & Hl1 & _).
      split; [lia|]. split; [|exact I].
      destruct training; [lia|].
      destruct recs, recs'; try discriminate. reflexivity.
  - exists [], []. rewrite !app_nil_r. cbn.
    repeat split; try lia. now destruct training.
Qed.

(** X10.  [move_count_] counts the searches that were run, not the moves that
    were made: along any run of [Play] it grows by one for each search, and
    the searches are the committed moves and at most one more, the search
    of a ply that was aborted, resigned or left by an error. *)
Theorem move_count_counts_searches (schedule : list Interleaving)
    (g : SelfPlayGame) (opening : option (list PgnMove)) :
  let st' :=
    state_of
      (Play assertions retry_fuel white_threads black_threads training
         enable_resign syzygy_tb schedule g opening) in
  move_count_ (game st') =
  move_count_ g + Z.of_nat (searches (events st')) /\
  (commits (events st') <= searches (events st') <=
   commits (events st') + 1)%nat.
Proof.
  intros st'. subst st'. unfold Play.
  match goal with
  | |- context [Play_loop _ _ _ _ _ _ _ schedule ?st0] =>
      destruct (Play_loop_counts schedule st0)
        as (new & recs & Hev & _ & Hmc & Hcs & _)
  end.
  cbn [events game app] in Hev, Hmc. rewrite Hev. auto.
Qed.

(** X11.  The training data only grows at its end, by one record for each
    search that returned unaborted when training is on, and not at all when
    it is off: the records added are at least the committed moves and at
    most the searches, and exactly the committed moves when the run ends
    between two plies. *)
Theorem training_records_follow_searches (schedule : list Interleaving)
    (g : SelfPlayGame) (opening : option (list PgnMove)) :
  let step :=
    Play assertions retry_fuel white_threads black_threads training
      enable_resign syzygy_tb schedule g opening in
  let st' := state_of step in
  exists recs,
    training_data_ (game st') = training_data_ g ++ recs /\
    (if training
     then (commits (events st') <= List.length recs <=
           searches (events st'))%nat
     else recs = []) /\
    match step with
    | Continue _ =>
      training = true -> List.length recs = commits (events st')
    | _ => True
    end.
Proof.
  intros step st'. subst step st'. unfold Play.
  match goal with
  | |- context [Play_loop _ _ _ _ _ _ _ schedule ?st0] =>
      destruct (Play_loop_counts schedule st0)
        as (new & recs & Hev & Hd & _ & _ & Hrecs & Hcont)
  end.
  cbn [events game app] in Hev, Hd. rewrite Hev.
  exists recs. split; [exact Hd|]. split; [exact Hrecs|].
  destruct (Play_loop _ _ _ _ _ _ _ schedule _); tauto.
Qed.

(** X12.  When the ply loop is left, either an abort was requested or the
    game is decided.  With resignation disabled and no abort, the result
    is the one the rules give for the position of the game tree. *)
Theorem loop_exit_is_abort_or_decided (schedule : list Interleaving)
    (g : SelfPlayGame) (opening : option (list PgnMove)) (st' : PlayState) :
  Play assertions retry_fuel white_threads black_threads training
    enable_resign syzygy_tb schedule g opening = Break st' ->
  (abort_ (game st') = true \/ game_result_ (game st') <> UNDECIDED) /\
  (enable_resign = false -> abort_ (game st') = false ->
   game_result_ (game st') =
   ComputeGameResult (GetPositionHistory (tree0 (game st'))) /\
   game_result_ (game st') <> UNDECIDED).
Proof.
  unfold Play.
  match goal with
  | |- Play_loop _ _ _ _ _ _ _ schedule ?st0 = _ -> _ =>
      generalize st0
  end.
  intros st0 Hplay.
  pose proof (Play_loop_rule assertions retry_fuel white_threads black_threads
           training enable_resign syzygy_tb
    (fun _ => True)
    (fun step =>
       match step with
       | Break st' =>
         (abort_ (game st') = true \/ game_result_ (game st') <> UNDECIDED) /\
         (enable_resign = false -> abort_ (game st') = false ->
          game_result_ (game st') =
          ComputeGameResult (GetPositionHistory (tree0 (game st'))) /\
          game_result_ (game st') <> UNDECIDED)
       | _ => True
       end) (fun _ _ => I)) as Hrule.
  cbv beta in Hrule.
  assert (Hgoal := fun Hstep => Hrule Hstep schedule st0 I).
  rewrite Hplay in Hgoal. apply Hgoal.
  clear. intros il st _.
  destruct (play_ply_effects assertions retry_fuel white_threads
              black_threads training enable_resign syzygy_tb il st)
    as (_ & _ & _ & new & recs & _ & _ & _ & _ & _ & _ & Hcase).
  destruct (play_ply _ _ _ _ _ _ _ il st) as [st'|st'|msg st'|st'|st'];
    try exact I.
  cbn [state_of] in Hcase.
  destruct Hcase as (_ & _ & _ & [(Ha & -> & _)|[(Ha & Hv & -> & _)
    |[(_ & _ & Ha & _)|(_ & _ & _ & _ & Ha & Hr & Hen & _)]]]).
  - split; [now left|]. congruence.
  - cbn. split; [now right|]. auto.
  - split; [now left|]. congruence.
  - split; [now right|]. congruence.
Qed.

Lemma ply_to_lc0_move_thrown (ply : Ply) (board : ChessBoard)
    (mirror : bool) (msg : string) :
  ply_to_lc0_move assertions ply board mirror = Thrown msg ->
  isShortCastle ply = false /\ isLongCastle ply = false /\
  msg = unrecognized ply /\
  forall lm, In lm (GenerateLegalMoves board) ->
             Spec.satisfies_description ply board mirror lm = false.
Proof.
  unfold ply_to_lc0_move.
  destruct (isShortCastle ply), (isLongCastle ply); cbn [orb];
    try discriminate.
  rewrite resolve_candidates_find.
  destruct (find _ _) as [lm|] eqn:Hfind.
  - destruct (promotion ply); [|discriminate].
    destruct (promotion_switch _ _) as [m reached].
    destruct (reached && assertions); discriminate.
  - intros [= <-]. repeat split.
    intros lm Hin. now apply (find_none _ _ Hfind).
Qed.

Lemma ply_to_lc0_move_asserts (ply : Ply) (board : ChessBoard)
    (mirror : bool) :
  ply_to_lc0_move assertions ply board mirror = AssertionFailed ->
  assertions = true /\ promotion ply = true /\
  letter (promoted ply) <> "Q"%char /\ letter (promoted ply) <> "R"%char /\
  letter (promoted ply) <> "B"%char.
Proof.
  unfold ply_to_lc0_move.
  destruct (isShortCastle ply || isLongCastle ply); [discriminate|].
  rewrite resolve_candidates_find.
  destruct (find _ _) as [lm|]; [|discriminate].
  destruct (promotion ply); [|discriminate].
  pose proof (promotion_switch_breaks (letter (promoted ply))
                (Spec.candidate mirror lm)) as Hbreaks.
  destruct (promotion_switch _ _) as [m reached]. cbn [snd] in Hbreaks.
  destruct reached, assertions; cbn [andb]; try discriminate.
  intros _. repeat split; intros Heq; rewrite Heq in Hbreaks;
    assert (true = false) by (apply Hbreaks; auto); discriminate.
Qed.

(** X13.  [Play] throws nothing but the unrecognized-move error of a
    half-move of the opening line that is present, is no castling and is
    satisfied by no legal move of the position; it stops at an assertion
    only for a promotion half-move of the opening line whose letter is not
    'Q', 'R' or 'B', in a build with assertions.  Without an opening it
    does neither. *)
Theorem play_throws_only_from_book (schedule : list Interleaving)
    (g : SelfPlayGame) (opening : option (list PgnMove)) :
  let book := match opening with Some moves => moves | None => [] end in
  let from_book (ply : Ply) :=
    valid ply = true /\
    exists om, In om book /\ (ply = white om \/ ply = black om) in
  match
    Play assertions retry_fuel white_threads black_threads training
      enable_resign syzygy_tb schedule g opening
  with
  | Throws msg st' =>
    exists ply,
      from_book ply /\
      isShortCastle ply = false /\ isLongCastle ply = false /\
      msg = String.append "Didn't understood move: " (str ply) /\
      forall lm,
        In lm (GenerateLegalMoves
                 (GetBoard (Last (GetPositionHistory
                    (tree_at (game st') (blacks_move st')))))) ->
        Spec.satisfies_description ply
          (GetBoard (Last (GetPositionHistory
             (tree_at (game st') (blacks_move st')))))
          (blacks_move st') lm = false
  | AssertStops st' =>
    assertions = true /\
    exists ply,
      from_book ply /\ promotion ply = true /\
      letter (promoted ply) <> "Q"%char /\
      letter (promoted ply) <> "R"%char /\
      letter (promoted ply) <> "B"%char
  | _ => True
  end.
Proof.
  intros book from_book. unfold Play. fold book.
  match goal with
  | |- context [Play_loop _ _ _ _ _ _ _ schedule ?st0] =>
      assert (Hst0 : forall om, In om (openingMove st0) -> In om book)
        by (cbn; auto);
      generalize dependent st0
  end.
  intros st0 Hst0.
  apply (Play_loop_rule assertions retry_fuel white_threads black_threads
           training enable_resign syzygy_tb
    (fun st => forall om, In om (openingMove st) -> In om book)
    (fun step =>
       match step with
       | Throws msg st' =>
         exists ply,
           from_book ply /\
           isShortCastle ply = false /\ isLongCastle ply = false /\
           msg = String.append "Didn't understood move: " (str ply) /\
           forall lm,
             In lm (GenerateLegalMoves
                      (GetBoard (Last (GetPositionHistory
                         (tree_at (game st') (blacks_move st')))))) ->
             Spec.satisfies_description ply
               (GetBoard (Last (GetPositionHistory
                  (tree_at (game st') (blacks_move st')))))
               (blacks_move st') lm = false
       | AssertStops st' =>
         assertions = true /\
         exists ply,
           from_book ply /\ promotion ply = true /\
           letter (promoted ply) <> "Q"%char /\
           letter (promoted ply) <> "R"%char /\
           letter (promoted ply) <> "B"%char
       | _ => True
       end)); [intros; exact I| |exact Hst0].
  clear st0 Hst0. intros il st Hst.
  assert (Hfrom : forall ply,
    book_ply st = Some ply -> valid ply = true -> from_book ply).
  { intros ply Hply Hvalid. split; [exact Hvalid|].
    unfold book_ply in Hply.
    destruct (openingMove st) as [|om rest] eqn:Hom; [discriminate|].
    exists om. split; [apply Hst; now left|].
    destruct (blacks_move st); injection Hply as <-; auto. }
  destruct (play_ply_effects assertions retry_fuel white_threads
              black_threads training enable_resign syzygy_tb il st)
    as (_ & _ & _ & new & recs & _ & _ & _ & _ & _ & _ & Hcase).
  destruct (play_ply _ _ _ _ _ _ _ il st) as [st'|st'|msg st'|st'|st'];
    cbn [state_of] in Hcase; try exact I.
  - destruct Hcase as (_ & _ & _ & _ & _ & _ & _ & _ & _ & _ & Hom).
    intros om Hin. apply Hst. rewrite Hom in Hin.
    destruct (blacks_move st); [|exact Hin].
    destruct (openingMove st); [destruct Hin | now right].
  - destruct Hcase as (_ & _ & _ & _ & Hb & ply & Hply & Hvalid & Hthrown).
    apply ply_to_lc0_move_thrown in Hthrown.
    destruct Hthrown as (Hshort & Hlong & -> & Hnone).
    exists ply. rewrite Hb. auto.
  - destruct Hcase as (_ & _ & _ & _ & Hb & ply & Hply & Hvalid & Hassert).
    apply ply_to_lc0_move_asserts in Hassert.
    destruct Hassert as (Ha & Hrest). split; [exact Ha|].
    exists ply. auto.
Qed.

(** The sides of the searches and what each search was given. *)
Lemma Play_loop_sides (schedule : list Interleaving) (st0 : PlayState) :
  let st' :=
    state_of
      (Play_loop assertions retry_fuel white_threads black_threads training
         enable_resign syzygy_tb schedule st0) in
  exists new,
    events st' = events st0 ++ new /\
    search_sides new = alternating (blacks_move st0) (searches new) /\
    forall blacks responder stoppers,
      In (EvSearch blacks responder stoppers) new ->
      stoppers = stoppers_of (game st0) blacks /\
      callbacks_of responder = blacks.
Proof.
  intros st'. subst st'.
  apply (Play_loop_rule assertions retry_fuel white_threads black_threads
           training enable_resign syzygy_tb
    (fun st =>
       options_ (game st) = options_ (game st0) /\
       exists new,
         events st = events st0 ++ new /\
         search_sides new = alternating (blacks_move st0) (searches new) /\
         blacks_move st = Nat.iter (searches new) negb (blacks_move st0) /\
         forall blacks responder stoppers,
           In (EvSearch blacks responder stoppers) new ->
           stoppers = stoppers_of (game st0) blacks /\
           callbacks_of responder = blacks)
    (fun step =>
       exists new,
         events (state_of step) = events st0 ++ new /\
         search_sides new = alternating (blacks_move st0) (searches new) /\
         forall blacks responder stoppers,
           In (EvSearch blacks responder stoppers) new ->
           stoppers = stoppers_of (game st0) blacks /\
           callbacks_of responder = blacks)).
  - intros st (_ & new & Hev & Hsides & _ & Hall). exists new. auto.
  - intros il st (Ho & new & Hev & Hsides & Hb & Hall).
    destruct (play_ply_effects assertions retry_fuel white_threads
                black_threads training enable_resign syzygy_tb il st)
      as (Ho' & _ & _ & new' & recs & Hev' & _ & _ & Hle & Hsides' & Hall'
          & Hcase).
    assert (Hnew :
      events (state_of (play_ply assertions retry_fuel white_threads
                          black_threads training enable_resign syzygy_tb
                          il st)) = events st0 ++ (new ++ new') /\
      search_sides (new ++ new') =
      alternating (blacks_move st0) (searches (new ++ new')) /\
      forall blacks responder stoppers,
        In (EvSearch blacks responder stoppers) (new ++ new') ->
        stoppers = stoppers_of (game st0) blacks /\
        callbacks_of responder = blacks).
    { split; [now rewrite Hev', Hev, app_assoc|]. split.
      - rewrite search_sides_app, searches_app, alternating_app, Hsides,
          Hsides', <- Hb.
        f_equal. destruct (searches new') as [|[|n]]; [reflexivity..|lia].
      - intros blacks r stp Hin. apply in_app_or in Hin.
        destruct Hin as [Hin|Hin]; [now apply Hall|].
        apply Hall' in Hin. destruct Hin as (-> & Hcb & _).
        split; [|exact Hcb]. unfold stoppers_of, options_at.
        now rewrite Ho. }
    destruct Hnew as (Hev2 & Hsides2 & Hall2).
    destruct (play_ply _ _ _ _ _ _ _ il st) as [st'|st'|msg st'|st'|st'];
      cbn [state_of] in *; try (exists (new ++ new'); auto).
    split; [congruence|]. exists (new ++ new').
    repeat (split; [assumption|]). split; [|assumption].
    destruct Hcase as (_ & _ & _ & _ & Hs1 & _ & _ & _ & _ & Hb' & _).
    rewrite Hb', Hb, searches_app, Hs1, Nat.add_comm. reflexivity.
  - split; [reflexivity|]. exists []. rewrite app_nil_r. cbn.
    do 3 (split; [reflexivity|]). intros ? ? ? [].
Qed.

(** X14.  Along any run of [Play] the searches are run for the two sides in
    turn, beginning with the side to move in the position [Play] starts
    from, and each search is given the stoppers built from the limits and
    options of the side it is run for, and that side's callbacks. *)
Theorem searches_take_turns (schedule : list Interleaving)
    (g : SelfPlayGame) (opening : option (list PgnMove)) :
  let st' :=
    state_of
      (Play assertions retry_fuel white_threads black_threads training
         enable_resign syzygy_tb schedule g opening) in
  search_sides (events st') =
  alternating (Z.rem (GetPlyCount (tree0 g)) 2 =? 1)
    (searches (events st')) /\
  forall blacks responder stoppers,
    In (EvSearch blacks responder stoppers) (events st') ->
    stoppers =
    PopulateIntrinsicStoppers
      (MakeSearchStopper (search_limits (options_at g blacks)))
      (uci_options (options_at g blacks)) /\
    callbacks_of responder = blacks.
Proof.
  intros st'. subst st'. unfold Play.
  match goal with
  | |- context [Play_loop _ _ _ _ _ _ _ schedule ?st0] =>
      destruct (Play_loop_sides schedule st0) as (new & Hev & Hsides & Hall)
  end.
  cbn [events game blacks_move app] in Hev, Hsides, Hall.
  rewrite Hev. split; [exact Hsides | exact Hall].
Qed.

(** X15.  An abort that lands before the guarded section leaves the ply
    without creating a search; one that lands while the search runs
    leaves it after the search, whose playouts are counted and whose
    evaluation is dropped.  In both cases no training record is stored, no
    move is made and the result stays undecided. *)
Theorem abort_stops_the_ply (il : Interleaving) (st : PlayState) :
  abort_ (game st) = false ->
  ComputeGameResult (GetPositionHistory (tree0 (game st))) = UNDECIDED ->
  abort_before_guard il = true \/ abort_during_search il = true ->
  exists st',
    play_ply assertions retry_fuel white_threads black_threads training
      enable_resign syzygy_tb il st = Break st' /\
    abort_ (game st') = true /\
    game_result_ (game st') = UNDECIDED /\
    training_data_ (game st') = training_data_ (game st) /\
    min_eval_ (game st') = min_eval_ (game st) /\
    max_eval_ (game st') = max_eval_ (game st) /\
    if abort_before_guard il then
      events st' = events st /\
      move_count_ (game st') = move_count_ (game st) /\
      nodes_total_ (game st') = nodes_total_ (game st)
    else
      exists responder s,
        events st' =
        events st ++
        [EvSearch (blacks_move st) responder
           (stoppers_of (game st) (blacks_move st))] /\
        search_ (game st') = Some s /\
        move_count_ (game st') = move_count_ (game st) + 1 /\
        nodes_total_ (game st') =
        nodes_total_ (game st) + GetTotalPlayouts s.
Proof.
  intros Habort Hverdict Hil. unfold play_ply.
  destruct (begin_ply_effects white_threads black_threads syzygy_tb il st)
    as [[Ha _]|[(_ & Hv & _)|(_ & _ & g1 & Ho & Hc & Hmin & Hmax & Hdata
        & Hshare & Hres & _ & Hcase)]]; [congruence..|].
  destruct Hcase as [(Hguard & Hab & Hmc & Hnt & ->)
                    |(Hguard & responder & s & Hcb & Hwrap & Hs & Hmc & Hnt
                      & Hab & ->)].
  - eexists. split; [reflexivity|]. rewrite Hguard. cbn. auto 10.
  - destruct Hil as [Hil|Hil]; [congruence|]. rewrite Hil in *.
    eexists. split; [reflexivity|]. rewrite Hguard. cbn.
    repeat (split; [assumption|]). exists responder, s. auto.
Qed.

End Runs.

(** ** binary32: the order of the comparisons *)

Module F32Order.

Import F32.

Lemma ltb_numbers (a b : float) :
  ltb a b = true -> is_nan a = false /\ is_nan b = false.
Proof. destruct a, b; cbn; try discriminate; auto. Qed.

Lemma ltb_leb (a b : float) : ltb a b = true -> leb a b = true.
Proof.
  unfold ltb, leb, SFltb, SFleb.
  destruct (SFcompare a b) as [[| |]|]; (discriminate || reflexivity).
Qed.

Lemma leb_refl (a : float) : is_nan a = false -> leb a a = true.
Proof.
  unfold leb, SFleb. destruct a as [s|s| |s m e]; cbn; try discriminate;
    intros _; try (destruct s; reflexivity).
  destruct s; rewrite Z.compare_refl;
    change (Pos.compare_cont Eq m m) with (Pos.compare m m);
    now rewrite Pos.compare_refl.
Qed.

Lemma compare_antisym (a b : float) :
  SFcompare b a = option_map CompOpp (SFcompare a b).
Proof.
  destruct a as [s|s| |s m e], b as [s'|s'| |s' m' e']; cbn;
    try reflexivity; try (destruct s; reflexivity);
    try (destruct s'; reflexivity);
    try (destruct s, s'; reflexivity).
  destruct s, s'; try reflexivity; f_equal;
    rewrite (Z.compare_antisym e e');
    destruct (e ?= e'); cbn; try reflexivity;
    change (Pos.compare_cont Eq m m') with (Pos.compare m m');
    change (Pos.compare_cont Eq m' m) with (Pos.compare m' m);
    rewrite (Pos.compare_antisym m m'); destruct (m ?= m')%positive;
    reflexivity.
Qed.

Lemma ltb_asym (a b : float) : ltb a b = true -> ltb b a = false.
Proof.
  unfold ltb, SFltb. rewrite (compare_antisym a b).
  destruct (SFcompare a b) as [[| |]|]; (discriminate || reflexivity).
Qed.

(** Two numbers are always comparable. *)
Lemma not_ltb_leb (a b : float) :
  is_nan a = false -> is_nan b = false -> ltb a b = false -> leb b a = true.
Proof.
  unfold ltb, leb, SFltb, SFleb.
  destruct a as [s|s| |s m e], b as [s'|s'| |s' m' e']; try discriminate;
    cbn;
    repeat match goal with
      | |- context [if ?s then _ else _] => destruct s
      end; cbn; intros _ _; try (discriminate || reflexivity);
    rewrite (Z.compare_antisym e e'); destruct (e ?= e'); cbn;
    try (discriminate || reflexivity);
    change (Pos.compare_cont Eq m m') with (Pos.compare m m');
    change (Pos.compare_cont Eq m' m) with (Pos.compare m' m);
    rewrite (Pos.compare_antisym m m'); destruct (m ?= m')%positive; cbn;
    (discriminate || reflexivity).
Qed.

Lemma leb_trans (a b c : float) :
  leb a b = true -> leb b c = true -> leb a c = true.
Proof.
  unfold leb, SFleb.
  destruct a as [sa|sa| |sa ma ea], b as [sb|sb| |sb mb eb],
           c as [sc|sc| |sc mc ec]; cbn; try discriminate;
    repeat match goal with s : bool |- _ => destruct s end; cbn;
    try (intros; (discriminate || reflexivity));
    change (Pos.compare_cont Eq ma mb) with (Pos.compare ma mb);
    change (Pos.compare_cont Eq mb mc) with (Pos.compare mb mc);
    change (Pos.compare_cont Eq ma mc) with (Pos.compare ma mc);
    destruct (Z.compare_spec ea eb), (Z.compare_spec eb ec),
             (Z.compare_spec ea ec); try lia;
    try (intros; (discriminate || reflexivity));
    subst;
    destruct (Pos.compare_spec ma mb), (Pos.compare_spec mb mc),
             (Pos.compare_spec ma mc); cbn; try lia;
    intros; (discriminate || reflexivity).
Qed.

Lemma min_is_lower (a b : float) :
  is_nan a = false -> is_nan b = false ->
  is_nan (min a b) = false /\
  leb (min a b) a = true /\ leb (min a b) b = true.
Proof.
  intros Ha Hb. unfold min. destruct (ltb b a) eqn:Hlt.
  - auto using ltb_leb, leb_refl.
  - auto using not_ltb_leb, leb_refl.
Qed.

Lemma max_is_upper (a b : float) :
  is_nan a = false -> is_nan b = false ->
  is_nan (max a b) = false /\
  leb a (max a b) = true /\ leb b (max a b) = true.
Proof.
  intros Ha Hb. unfold max. destruct (ltb a b) eqn:Hlt.
  - auto using ltb_leb, leb_refl.
  - auto using not_ltb_leb, leb_refl.
Qed.

(** The running minimum [if (x < m) m = x;] and the running maximum
    [m = std::max(m, x)] of a number [m], whatever [x] is. *)
Lemma running_min (m x : float) :
  is_nan m = false ->
  let m' := if ltb x m then x else m in
  is_nan m' = false /\ leb m' m = true /\ (is_nan x = true -> m' = m).
Proof.
  intros Hm. cbv zeta. destruct (ltb x m) eqn:Hlt.
  - destruct (ltb_numbers _ _ Hlt) as [Hx _].
    split; [exact Hx|]. split; [now apply ltb_leb | congruence].
  - auto using leb_refl.
Qed.

Lemma running_max (m x : float) :
  is_nan m = false ->
  is_nan (max m x) = false /\ leb m (max m x) = true /\
  (is_nan x = true -> max m x = m).
Proof.
  intros Hm. unfold max. destruct (ltb m x) eqn:Hlt.
  - destruct (ltb_numbers _ _ Hlt) as [_ Hx].
    split; [exact Hx|]. split; [now apply ltb_leb | congruence].
  - auto using leb_refl.
Qed.

End F32Order.

(** ** The evaluation extrema *)

Section Extrema.

Context {C : Collaborators}.
Variable assertions : bool.
Variable retry_fuel : nat.
Variables white_threads black_threads : Z.
Variables training enable_resign : bool.
Variable syzygy_tb : option SyzygyTablebase.

Lemma extrema_widened_refl (g : SelfPlayGame) :
  extrema_are_numbers g -> extrema_widened g g.
Proof.
  intros (H1 & H2 & H3 & H4 & H5).
  repeat split; now apply F32Order.leb_refl.
Qed.

Lemma extrema_widened_trans (g g' g'' : SelfPlayGame) :
  extrema_widened g g' -> extrema_widened g' g'' -> extrema_widened g g''.
Proof.
  intros (H1 & H2 & H3 & H4 & H5) (H1' & H2' & H3' & H4' & H5').
  repeat split; eapply F32Order.leb_trans; eassumption.
Qed.

Lemma extrema_ext (g g' : SelfPlayGame) :
  min_eval_ g' = min_eval_ g -> max_eval_ g' = max_eval_ g ->
  extrema_are_numbers g ->
  extrema_are_numbers g' /\ extrema_widened g g'.
Proof.
  intros Hmin Hmax Hnum. unfold extrema_are_numbers, extrema_widened.
  rewrite Hmin, Hmax. split; [exact Hnum|].
  now apply extrema_widened_refl.
Qed.

Lemma record_evaluation_extrema (s : Search) (st : PlayState) :
  extrema_are_numbers (game st) ->
  extrema_are_numbers (record_evaluation training s st) /\
  extrema_widened (game st) (record_evaluation training s st).
Proof.
  unfold extrema_are_numbers, extrema_widened, record_evaluation.
  set (g0 := if training then set_training_data _ _ else game st).
  assert (Hmin : min_eval_ g0 = min_eval_ (game st))
    by (subst g0; destruct training; reflexivity).
  assert (Hmax : max_eval_ g0 = max_eval_ (game st))
    by (subst g0; destruct training; reflexivity).
  rewrite Hmin, Hmax. clearbody g0.
  destruct (min_eval_ (game st)) as [min0 min1].
  destruct (max_eval_ (game st)) as [[max0 max1] max2].
  cbn [fst snd]. intros (H0 & H1 & H2 & H3 & H4).
  set (eval := normalized_eval (fst (GetBestEval s))).
  pose proof (F32Order.running_min min0 eval H0) as (A0 & B0 & _).
  pose proof (F32Order.running_min min1 eval H1) as (A1 & B1 & _).
  pose proof (fun x => F32Order.running_max max0 x H2) as M0.
  pose proof (fun x => F32Order.running_max max1 x H3) as M1.
  pose proof (fun x => F32Order.running_max max2 x H4) as M2.
  pose proof (F32Order.leb_refl min0 H0).
  pose proof (F32Order.leb_refl min1 H1).
  destruct (blacks_move st); cbn [min_eval_ max_eval_ set_evals fst snd];
    repeat split; auto; apply M0 || apply M1 || apply M2.
Qed.

Lemma after_search_extrema (il : Interleaving) (inBook : bool) (s : Search)
    (st : PlayState) :
  let g' :=
    game (state_of (after_search assertions retry_fuel training enable_resign
                      il inBook s st)) in
  min_eval_ g' = min_eval_ (record_evaluation training s st) /\
  max_eval_ g' = max_eval_ (record_evaluation training s st).
Proof.
  unfold after_search.
  destruct (resign_check _ _ _ _ _ _ _ _); [cbn; auto|].
  destruct (retry_loop _ _ _ _ _) as [[[move s'] evs]|];
    [|cbn [state_of game with_game]; frame; auto].
  unfold commit.
  match goal with
  | |- context [match ?d with Returned _ => _ | Thrown _ => _
                           | AssertionFailed => _ end] =>
      destruct d as [move_| |]
  end; cbn [state_of game with_game emit]; frame; auto.
Qed.

Lemma play_ply_extrema (il : Interleaving) (st : PlayState) :
  extrema_are_numbers (game st) ->
  let g' :=
    game (state_of (play_ply assertions retry_fuel white_threads
                      black_threads training enable_resign syzygy_tb il st)) in
  extrema_are_numbers g' /\ extrema_widened (game st) g'.
Proof.
  intros Hnum. unfold play_ply.
  destruct (begin_ply_effects white_threads black_threads syzygy_tb il st)
    as [[Habort ->]|[(Habort & Hverdict & ->)|(Habort & Hverdict & g1 & Ho
        & Hc & Hmin & Hmax & Hdata & Hshare & Hres & _ & Hcase)]].
  - now apply extrema_ext.
  - now apply extrema_ext.
  - destruct Hcase as [(Hguard & Hab & Hmc & Hnt & ->)
                      |(Hguard & responder & s & Hcb & Hwrap & Hs & Hmc & Hnt
                        & Hab & ->)]; [now apply extrema_ext|].
    destruct (abort_during_search il); [now apply extrema_ext|].
    match goal with
    | |- context [after_search _ _ _ _ il ?ib s ?x] =>
        pose proof (after_search_extrema il ib s x) as [Hmin' Hmax'];
        pose proof (record_evaluation_extrema s x) as Hrec;
        set (step := after_search assertions retry_fuel training
                       enable_resign il ib s x) in *
    end.
    cbn [game with_game] in Hrec.
    destruct (extrema_ext (game st) g1 Hmin Hmax Hnum) as [Hnum1 Hw1].
    destruct (Hrec Hnum1) as [Hnum2 Hw2].
    destruct (extrema_ext _ _ Hmin' Hmax' Hnum2) as [Hnum3 Hw3].
    split; [exact Hnum3|].
    eauto using extrema_widened_trans.
Qed.

Lemma Play_loop_extrema (schedule : list Interleaving) (st0 : PlayState) :
  extrema_are_numbers (game st0) ->
  let g' :=
    game (state_of
            (Play_loop assertions retry_fuel white_threads black_threads
               training enable_resign syzygy_tb schedule st0)) in
  extrema_are_numbers g' /\ extrema_widened (game st0) g'.
Proof.
  intros Hnum.
  apply (Play_loop_rule assertions retry_fuel white_threads black_threads
           training enable_resign syzygy_tb
    (fun st =>
       extrema_are_numbers (game st) /\ extrema_widened (game st0) (game st))
    (fun step =>
       extrema_are_numbers (game (state_of step)) /\
       extrema_widened (game st0) (game (state_of step)))).
  - auto.
  - intros il st [Hn Hw].
    destruct (play_ply_extrema il st Hn) as [Hn' Hw'].
    assert (extrema_widened (game st0)
              (game (state_of (play_ply assertions retry_fuel white_threads
                                 black_threads training enable_resign
                                 syzygy_tb il st))))
      by eauto using extrema_widened_trans.
    destruct (play_ply _ _ _ _ _ _ _ il st); cbn [state_of] in *; auto.
  - split; [exact Hnum | now apply extrema_widened_refl].
Qed.

(** X16.  Along any run of [Play] the evaluation extrema only widen: a
    minimum never goes up and a maximum never goes down, and an extremum
    that is a number stays one whatever the searches return, NaN
    included. *)
Theorem extrema_only_widen (schedule : list Interleaving) (g : SelfPlayGame)
    (opening : option (list PgnMove)) :
  extrema_are_numbers g ->
  let g' :=
    game (state_of
            (Play assertions retry_fuel white_threads black_threads training
               enable_resign syzygy_tb schedule g opening)) in
  extrema_are_numbers g' /\ extrema_widened g g'.
Proof.
  intros Hnum. unfold Play.
  match goal with
  | |- context [Play_loop _ _ _ _ _ _ _ schedule ?st0] =>
      apply (Play_loop_extrema schedule st0 Hnum)
  end.
Qed.

(** X17.  On a game whose extrema are numbers, the worst evaluation is a
    number; in the simple style it is the winner's minimum, or for a game
    without a winner a lower bound of both minima; in the WDL style it is
    an upper bound of the maxima of the two outcomes that did not
    happen. *)
Theorem worst_eval_bounds (g : SelfPlayGame) :
  extrema_are_numbers g ->
  let w := GetWorstEvalForWinnerOrDraw g in
  let min0 := fst (min_eval_ g) in
  let min1 := snd (min_eval_ g) in
  let max0 := fst (fst (max_eval_ g)) in
  let max1 := snd (fst (max_eval_ g)) in
  let max2 := snd (max_eval_ g) in
  is_nan w = false /\
  if ResignWDLStyle (uci_options (fst (options_ g))) then
    match game_result_ g with
    | WHITE_WON => F32.leb max1 w = true /\ F32.leb max2 w = true
    | BLACK_WON => F32.leb max1 w = true /\ F32.leb max0 w = true
    | _ => F32.leb max2 w = true /\ F32.leb max0 w = true
    end
  else
    match game_result_ g with
    | WHITE_WON => w = min0
    | BLACK_WON => w = min1
    | _ => F32.leb w min0 = true /\ F32.leb w min1 = true
    end.
Proof.
  unfold extrema_are_numbers, GetWorstEvalForWinnerOrDraw.
  destruct (min_eval_ g) as [min0 min1].
  destruct (max_eval_ g) as [[max0 max1] max2].
  cbn [fst snd]. intros (H0 & H1 & H2 & H3 & H4).
  pose proof (F32Order.min_is_lower min0 min1 H0 H1).
  pose proof (F32Order.max_is_upper max1 max2 H3 H4).
  pose proof (F32Order.max_is_upper max1 max0 H3 H2).
  pose proof (F32Order.max_is_upper max2 max0 H4 H2).
  destruct (ResignWDLStyle _), (game_result_ g); cbn; tauto.
Qed.

End Extrema.

(** ** The two trees *)

Section Trees.

Context {C : Collaborators}.
Variable assertions : bool.
Variable retry_fuel : nat.
Variables white_threads black_threads : Z.
Variables training enable_resign : bool.
Variable syzygy_tb : option SyzygyTablebase.

Lemma tree_at_ext (g g' : SelfPlayGame) (blacks : bool) :
  tree0 g' = tree0 g -> tree1 g' = tree1 g ->
  tree_at g' blacks = tree_at g blacks.
Proof. unfold tree_at. now intros -> ->. Qed.

Lemma update_tree_other (g : SelfPlayGame) (b : bool) (t : NodeTree) :
  shares_tree g = false ->
  tree_at (update_tree g b t) (negb b) = tree_at g (negb b).
Proof.
  unfold shares_tree, update_tree, tree_at.
  destruct b, (tree1 g); cbn; (discriminate || reflexivity).
Qed.

Lemma tree_at_moved (u g' : SelfPlayGame) (m : Move) (blacks : bool) :
  tree0 g' = MakeMove (tree0 u) m ->
  tree1 g' = option_map (fun t1 => MakeMove t1 m) (tree1 u) ->
  tree_at g' blacks = MakeMove (tree_at u blacks) m.
Proof.
  unfold tree_at. intros -> ->. destruct blacks, (tree1 u); reflexivity.
Qed.

(** X18.  In one iteration of the ply loop the tree of the side to move is
    trimmed and searched and nothing else; the other tree, when there is
    one, is not touched.  When the iteration ends with a move, the move
    is made once on each tree: on the searched tree and, when there is a
    second tree, on it too. *)
Theorem move_is_made_once_on_each_tree (il : Interleaving) (st : PlayState) :
  let step :=
    play_ply assertions retry_fuel white_threads black_threads training
      enable_resign syzygy_tb il st in
  let g := game st in
  let g' := game (state_of step) in
  let b := blacks_move st in
  shares_tree g' = shares_tree g /\
  exists t,
    searched_from (tree_at g b) t /\
    match step with
    | Continue st' =>
      exists m before,
        events st' = before ++ [EvMakeMove m] /\
        tree_at g' b = MakeMove t m /\
        (shares_tree g = false ->
         tree_at g' (negb b) = MakeMove (tree_at g (negb b)) m)
    | _ =>
      tree_at g' b = t /\
      (shares_tree g = false -> tree_at g' (negb b) = tree_at g (negb b))
    end.
Proof.
  intros step g g' b. subst step g g' b.
  destruct (play_ply_effects assertions retry_fuel white_threads
              black_threads training enable_resign syzygy_tb il st)
    as (_ & _ & Hshare & _).
  split; [exact Hshare|].
  destruct (play_ply_trees assertions retry_fuel white_threads black_threads
              training enable_resign syzygy_tb il st) as (t & Hfrom & Htrees).
  exists t. split; [exact Hfrom|].
  destruct (play_ply _ _ _ _ _ _ _ il st) as [st'|st'|msg st'|st'|st'];
    cbn [state_of] in *;
    try (destruct Htrees as [Ht0 Ht1];
         rewrite !(tree_at_ext _ _ _ Ht0 Ht1), update_tree_at;
         split; [reflexivity | apply update_tree_other]).
  destruct Htrees as (m & before & Hev & Ht0 & Ht1).
  exists m, before. split; [exact Hev|].
  rewrite !(tree_at_moved _ _ _ _ Ht0 Ht1), update_tree_at.
  split; [reflexivity|]. intros Hsh. now rewrite update_tree_other.
Qed.

Section Lockstep.

(** What the driver relies on from the tree: trimming and searching do
    not change the position history, and a move changes it in a way
    that depends on the history and the move only. *)
Hypothesis Trim_keeps_history :
  forall t, GetPositionHistory (TrimTreeAtHead t) = GetPositionHistory t.
Hypothesis Search_keeps_history :
  forall s threads t,
    GetPositionHistory (snd (RunBlocking s threads t)) = GetPositionHistory t.
Hypothesis Move_follows_history :
  forall t t' m,
    GetPositionHistory t = GetPositionHistory t' ->
    GetPositionHistory (MakeMove t m) = GetPositionHistory (MakeMove t' m).

Lemma searched_from_history (t t' : NodeTree) :
  searched_from t t' -> GetPositionHistory t' = GetPositionHistory t.
Proof.
  induction 1 as [|t' Hfrom IH|t' s threads Hfrom IH]; [reflexivity| |].
  - now rewrite Trim_keeps_history.
  - now rewrite Search_keeps_history.
Qed.

Lemma update_tree_lockstep (g : SelfPlayGame) (b : bool) (t : NodeTree) :
  GetPositionHistory t = GetPositionHistory (tree_at g b) ->
  in_lockstep g -> in_lockstep (update_tree g b t).
Proof.
  unfold in_lockstep, update_tree, tree_at.
  destruct b, (tree1 g); cbn; congruence.
Qed.

Lemma play_ply_lockstep (il : Interleaving) (st : PlayState) :
  in_lockstep (game st) ->
  in_lockstep
    (game (state_of (play_ply assertions retry_fuel white_threads
                       black_threads training enable_resign syzygy_tb
                       il st))).
Proof.
  intros Hlock.
  destruct (play_ply_trees assertions retry_fuel white_threads black_threads
              training enable_resign syzygy_tb il st) as (t & Hfrom & Htrees).
  apply searched_from_history in Hfrom.
  pose proof (update_tree_lockstep _ _ _ Hfrom Hlock) as Hu.
  unfold in_lockstep in *.
  destruct (play_ply _ _ _ _ _ _ _ il st) as [st'|st'|msg st'|st'|st'];
    cbn [state_of] in *;
    try (destruct Htrees as [-> ->]; exact Hu).
  destruct Htrees as (m & before & _ & -> & ->).
  destruct (tree1 (update_tree _ _ t)); cbn; [|exact I].
  now apply Move_follows_history.
Qed.

(** X19.  When trimming and searching keep the position history of a tree
    and a move extends it as a function of the history, the two trees of
    a game that start from the same history hold the same history however
    far [Play] is followed; and whether the game has one tree or two never
    changes. *)
Theorem trees_stay_in_lockstep (schedule : list Interleaving)
    (g : SelfPlayGame) (opening : option (list PgnMove)) :
  in_lockstep g ->
  let g' :=
    game (state_of
            (Play assertions retry_fuel white_threads black_threads training
               enable_resign syzygy_tb schedule g opening)) in
  in_lockstep g' /\ shares_tree g' = shares_tree g.
Proof.
  intros Hlock. unfold Play.
  match goal with
  | |- context [Play_loop _ _ _ _ _ _ _ schedule ?st0] =>
      assert (Hst0 : in_lockstep (game st0) /\
                     shares_tree (game st0) = shares_tree g)
        by (split; [exact Hlock | reflexivity]);
      generalize dependent st0
  end.
  intros st0 Hst0.
  apply (Play_loop_rule assertions retry_fuel white_threads black_threads
           training enable_resign syzygy_tb
    (fun st => in_lockstep (game st) /\
               shares_tree (game st) = shares_tree g)
    (fun step => in_lockstep (game (state_of step)) /\
                 shares_tree (game (state_of step)) = shares_tree g));
    [auto| |exact Hst0].
  clear st0 Hst0. intros il st [Hl Hs].
  pose proof (play_ply_lockstep il st Hl) as Hl'.
  destruct (play_ply_effects assertions retry_fuel white_threads
              black_threads training enable_resign syzygy_tb il st)
    as (_ & _ & Hshare & _).
  rewrite Hs in Hshare.
  destruct (play_ply _ _ _ _ _ _ _ il st); cbn [state_of] in *; auto.
Qed.

End Lockstep.

Lemma replay_opening_fold (opening : list Move) :
  forall t0 t1,
    replay_opening opening t0 t1 =
    (fold_left MakeMove opening t0,
     option_map (fold_left MakeMove opening) t1).
Proof.
  induction opening as [|m rest IH]; intros t0 t1; cbn [replay_opening].
  - now destruct t1.
  - rewrite IH. now destruct t1.
Qed.

(** X20.  The constructor builds the game tree by resetting a new tree to
    the start position and making the moves of the opening on it in order;
    with [shared_tree] there is no second tree, and without it the second
    tree is built by the same calls, so the two trees of a new game are in
    lockstep.  The start position has the two back ranks as the random
    source shuffled them, white to move and no castling rights. *)
Theorem constructor_builds_equal_trees (rng : Rng)
    (player1 player2 : PlayerOptions) (shared_tree : bool)
    (opening : list Move) :
  let g := SelfPlayGame_new rng player1 player2 shared_tree opening in
  let first := random_shuffle rng "rnbqkbnr" in
  let second := random_shuffle (snd first) "RNBQKBNR" in
  let fen :=
    String.append (fst first)
      (String.append "/pppppppp/8/8/8/8/PPPPPPPP/"
         (String.append (fst second) " w - - 0 1")) in
  let root := ResetToPosition NodeTree_new fen [] in
  tree0 g = fold_left MakeMove opening root /\
  tree1 g = (if shared_tree then None else Some (tree0 g)) /\
  shares_tree g = shared_tree /\ in_lockstep g /\
  options_ g = (player1, player2) /\
  abort_ g = false /\ game_result_ g = UNDECIDED /\
  training_data_ g = [] /\ move_count_ g = 0.
Proof.
  cbv zeta. unfold SelfPlayGame_new.
  destruct (random_shuffle rng _) as [whiteNonPawns rng1]. cbn [fst snd].
  destruct (random_shuffle rng1 _) as [blackNonPawns rng2]. cbn [fst snd].
  rewrite replay_opening_fold. unfold startPosFen, in_lockstep, shares_tree.
  destruct shared_tree; cbn; repeat split.
Qed.

End Trees.

(** ** Evaluations that are no numbers, labels, and the move list *)

Section NotANumber.

Context {C : Collaborators}.

Lemma nan_quantities (q d : F32.float) :
  is_nan q = true ->
  normalized_eval q = S754_nan /\
  win_probability q d = S754_nan /\
  loss_probability q d = S754_nan.
Proof.
  destruct q; try discriminate. intros _.
  unfold normalized_eval, win_probability, loss_probability.
  repeat split.
Qed.

(** X21.  A search whose evaluation [q] is a NaN changes neither minimum and
    neither of the win and loss maxima, and it makes no side resign: the
    simple style does not fire, and the WDL style can only declare a
    draw. *)
Theorem nan_evaluation_is_ignored (training enable_resign : bool)
    (s : Search) (st : PlayState) :
  is_nan (fst (GetBestEval s)) = true ->
  let g := game st in
  let g1 := record_evaluation training s st in
  let q := fst (GetBestEval s) in
  let d := snd (GetBestEval s) in
  min_eval_ g1 = min_eval_ g /\
  fst (fst (max_eval_ g1)) = fst (fst (max_eval_ g)) /\
  snd (max_eval_ g1) = snd (max_eval_ g) /\
  forall o n r,
    resign_check enable_resign o (blacks_move st) n (normalized_eval q)
      (win_probability q d) d (loss_probability q d) = Some r ->
    ResignWDLStyle o = true /\ r = DRAW.
Proof.
  intros Hnan g g1 q d. subst g g1.
  destruct (nan_quantities q d Hnan) as (He & Hw & Hl).
  unfold record_evaluation. fold q d. rewrite He, Hw, Hl.
  set (g0 := if training then set_training_data _ _ else game st).
  assert (Hmin : min_eval_ g0 = min_eval_ (game st))
    by (subst g0; destruct training; reflexivity).
  assert (Hmax : max_eval_ g0 = max_eval_ (game st))
    by (subst g0; destruct training; reflexivity).
  rewrite Hmin, Hmax. clearbody g0.
  destruct (min_eval_ (game st)) as [min0 min1].
  destruct (max_eval_ (game st)) as [[max0 max1] max2].
  assert (Hmaxnan : forall m, F32.max m S754_nan = m).
  { intros m. unfold F32.max, F32.ltb, SFltb. now destruct m. }
  split; [|split; [|split]].
  - destruct (blacks_move st); reflexivity.
  - destruct (blacks_move st); cbn; apply Hmaxnan.
  - destruct (blacks_move st); cbn; apply Hmaxnan.
  - intros o n r. unfold resign_check.
    destruct (enable_resign && _); [|discriminate].
    assert (Hgt : forall x, F32.gtb S754_nan x = false).
    { intros x. unfold F32.gtb, SFltb. now destruct x. }
    destruct (ResignWDLStyle o).
    + rewrite !Hgt. destruct (F32.gtb d _); [|discriminate].
      intros [= <-]. auto.
    + discriminate.
Qed.

End NotANumber.

Section Labels.

Context {C : Collaborators}.

(** X22.  A game that was left undecided, as an aborted game is, is written
    exactly as a drawn game: every record gets the label 0. *)
Theorem undecided_game_is_written_as_draw (g g' : SelfPlayGame)
    (writer : TrainingDataWriter) :
  training_data_ g' = training_data_ g ->
  game_result_ g = UNDECIDED -> game_result_ g' = DRAW ->
  WriteTrainingData g writer = WriteTrainingData g' writer /\
  WriteTrainingData g writer =
  writer ++ map (fun chunk => set_result chunk 0) (training_data_ g).
Proof.
  intros Hdata Hu Hd. unfold WriteTrainingData.
  rewrite Hdata, Hu, Hd, !write_chunks_appends. auto.
Qed.

(** X23.  The labels are zero-sum and depend on nothing but the final result
    and the side of the record: records of opposite sides get opposite
    labels, and the label a record was stored with plays no part in what
    is written. *)
Theorem labels_are_zero_sum (g : SelfPlayGame) (writer : TrainingDataWriter) :
  (forall white black,
      side_to_move white = 0 -> side_to_move black <> 0 ->
      result (patch_chunk (game_result_ g) white) +
      result (patch_chunk (game_result_ g) black) = 0) /\
  (forall relabel : V4TrainingData -> Z,
      WriteTrainingData
        (set_training_data g
           (map (fun chunk => set_result chunk (relabel chunk))
              (training_data_ g))) writer =
      WriteTrainingData g writer).
Proof.
  split.
  - intros white black Hw Hb. unfold patch_chunk.
    apply Z.eqb_eq in Hw. apply Z.eqb_neq in Hb. rewrite Hw, Hb.
    destruct (game_result_ g); reflexivity.
  - intros relabel. unfold WriteTrainingData. cbn.
    rewrite !write_chunks_appends, map_map. reflexivity.
Qed.

End Labels.

Section Moves.

Context {C : Collaborators}.



End Moves.

(** ** The opening line *)

Lemma black_turns_succ (b : bool) (n : nat) :
  black_turns b (S n) =
  (black_turns b n + if Nat.iter n negb b then 1 else 0)%nat.
Proof.
  unfold black_turns. replace (S n) with (n + 1)%nat by lia.
  rewrite alternating_app, filter_app, length_app. cbn.
  now destruct (Nat.iter n negb b).
Qed.

Lemma tl_skipn {A : Type} (k : nat) (l : list A) :
  tl (skipn k l) = skipn (S k) l.
Proof.
  revert l. induction k as [|k IH]; intros [|a l]; try reflexivity.
  cbn [skipn]. rewrite IH. reflexivity.
Qed.

Section Book.

Context {C : Collaborators}.
Variable assertions : bool.
Variable retry_fuel : nat.
Variables white_threads black_threads : Z.
Variables training enable_resign : bool.
Variable syzygy_tb : option SyzygyTablebase.

Lemma Play_loop_cursor (schedule : list Interleaving) (st0 : PlayState) :
  events st0 = [] ->
  match
    Play_loop assertions retry_fuel white_threads black_threads training
      enable_resign syzygy_tb schedule st0
  with
  | Continue st' | Break st' =>
    blacks_move st' =
    Nat.iter (commits (events st')) negb (blacks_move st0) /\
    openingMove st' =
    skipn (black_turns (blacks_move st0) (commits (events st')))
      (openingMove st0)
  | _ => True
  end.
Proof.
  intros Hev0.
  apply (Play_loop_rule assertions retry_fuel white_threads black_threads
           training enable_resign syzygy_tb
    (fun st =>
       blacks_move st =
       Nat.iter (commits (events st)) negb (blacks_move st0) /\
       openingMove st =
       skipn (black_turns (blacks_move st0) (commits (events st)))
         (openingMove st0))
    (fun step =>
       match step with
       | Continue st' | Break st' =>
         blacks_move st' =
         Nat.iter (commits (events st')) negb (blacks_move st0) /\
         openingMove st' =
         skipn (black_turns (blacks_move st0) (commits (events st')))
           (openingMove st0)
       | _ => True
       end)).
  - auto.
  - intros il st [Hb Hom].
    destruct (play_ply_effects assertions retry_fuel white_threads
                black_threads training enable_resign syzygy_tb il st)
      as (_ & _ & _ & new & recs & Hev & _ & _ & _ & _ & _ & Hcase).
    destruct (play_ply _ _ _ _ _ _ _ il st) as [st'|st'|msg st'|st'|st'];
      cbn [state_of] in *; try exact I.
    + destruct Hcase as (Hc & Hb' & Hom' & _).
      rewrite Hev, commits_app, Hc, Nat.add_0_r. split; congruence.
    + destruct Hcase as (_ & _ & _ & _ & _ & Hc & _ & _ & _ & Hb' & Hom').
      rewrite Hev, commits_app, Hc, Nat.add_1_r, black_turns_succ.
      rewrite Hb', Hom', Hb, Hom. split; [reflexivity|].
      destruct (Nat.iter _ negb _).
      * now rewrite tl_skipn, Nat.add_1_r.
      * now rewrite Nat.add_0_r.
  - rewrite Hev0. cbn. auto.
Qed.

(** X25.  The cursor into the opening line moves on by one entry after each
    move committed for Black and stays after a move committed for White:
    after [n] committed moves it has skipped as many entries as Black had
    turns among them, and the side to move has changed [n] times. *)
Theorem book_cursor_follows_black (schedule : list Interleaving)
    (g : SelfPlayGame) (opening : option (list PgnMove)) :
  let book := match opening with Some moves => moves | None => [] end in
  let first := Z.rem (GetPlyCount (tree0 g)) 2 =? 1 in
  match
    Play assertions retry_fuel white_threads black_threads training
      enable_resign syzygy_tb schedule g opening
  with
  | Continue st' | Break st' =>
    blacks_move st' = Nat.iter (commits (events st')) negb first /\
    openingMove st' =
    skipn (black_turns first (commits (events st'))) book
  | _ => True
  end.
Proof.
  intros book first. unfold Play.
  match goal with
  | |- context [Play_loop _ _ _ _ _ _ _ schedule ?st0] =>
      exact (Play_loop_cursor schedule st0 eq_refl)
  end.
Qed.

(** X26.  Before the earliest resign move of the side to move no
    resignation happens: the iteration runs as it does with resignation
    disabled. *)
Theorem no_resignation_before_earliest_move (il : Interleaving)
    (st st1 : PlayState) (inBook : bool) (s : Search) :
  begin_ply white_threads black_threads syzygy_tb il st =
  inr (inBook, s, st1) ->
  move_number_of (game st1) <
  ResignEarliestMove (uci_options (options_at (game st1) (blacks_move st1))) ->
  play_ply assertions retry_fuel white_threads black_threads training true
    syzygy_tb il st =
  play_ply assertions retry_fuel white_threads black_threads training false
    syzygy_tb il st.
Proof.
  intros Hbegin Hearly.
  rewrite !(play_ply_searched _ _ _ _ _ _ _ _ _ _ _ _ Hbegin).
  apply after_search_no_resign. unfold resign_check.
  destruct (Z.geb_spec (move_number_of (game st1))
              (ResignEarliestMove
                 (uci_options (options_at (game st1) (blacks_move st1)))));
    [lia | reflexivity].
Qed.

(** X27.  In book, the move that is made is the one the resolver gives for
    the half-move of the opening line on the board of the mover's tree;
    the best move of the search, on which the retry loop ran, is not
    played. *)
Theorem book_move_overrides_search (il : Interleaving)
    (st st1 st' : PlayState) (s : Search) (ply : Ply) :
  begin_ply white_threads black_threads syzygy_tb il st =
  inr (true, s, st1) ->
  book_ply st = Some ply ->
  play_ply assertions retry_fuel white_threads black_threads training
    enable_resign syzygy_tb il st = Continue st' ->
  exists m before,
    events st' = before ++ [EvMakeMove m] /\
    ply_to_lc0_move assertions ply
      (GetBoard (Last (GetPositionHistory
         (tree_at (game st1) (blacks_move st))))) (blacks_move st) =
    Returned m /\
    tree0 (game st') = MakeMove (tree0 (game st1)) m.
Proof.
  intros Hbegin Hply.
  rewrite (play_ply_searched _ _ _ _ _ _ _ _ _ _ _ _ Hbegin).
  destruct (begin_ply_searched _ _ _ _ _ _ _ _ Hbegin)
    as (Habort & _ & Hb & Hom & _).
  pose proof (after_search_effects assertions retry_fuel training
                enable_resign il true s st1 Habort) as Heff.
  cbv zeta in Heff.
  destruct Heff as (_ & _ & _ & _ & _ & recs & more & _ & _ & Hev & _
                    & Hcases).
  intros Hstep. rewrite Hstep in *. cbn [state_of] in *.
  destruct Hcases as
    [(Hs & _)|[(Hs & _)|[(? & ? & Hs & _)|[(? & Hs & _)
    |(m & retry & s' & _ & Hmore & _ & _ & _ & _ & _ & Ht0 & _ & Hmove)]]]];
    try discriminate Hs.
  assert (Hbook : book_ply st1 = Some ply).
  { unfold book_ply in *. now rewrite Hom, Hb. }
  rewrite Hbook, Hb in Hmove.
  exists m, (events st1 ++ retry).
  split; [rewrite Hev, Hmore, app_assoc; reflexivity|]. auto.
Qed.

End Book.

(** ** The properties of this part on scripted games *)

Section ScriptedGames.

Import Scripted Samples.


Lemma loop_exit_is_abort_or_decided_witness :
  exists st',
    Play (C := collaborators wdl_script) false 5 1 1 true true None [no_abort]
      (new_game wdl_script (player 5 true 0)) None = Break st' /\
    (abort_ (game st') = true \/ game_result_ (game st') <> UNDECIDED).
Proof.
  eexists.
  eassert (Hplay :
    Play (C := collaborators wdl_script) false 5 1 1 true true None [no_abort]
      (new_game wdl_script (player 5 true 0)) None = Break _)
    by (vm_compute; reflexivity).
  split; [exact Hplay|].
  exact (proj1 (loop_exit_is_abort_or_decided (C := collaborators wdl_script)
                  false 5 1 1 true true None _ _ _ _ Hplay)).
Defined.

Lemma abort_stops_the_ply_witness :
  exists st',
    play_ply (C := collaborators wdl_script) false 5 1 1 true true None
      abort_during_the_search (start wdl_script (player 5 true 0)) =
    Break st' /\
    abort_ (game st') = true /\
    game_result_ (game st') = UNDECIDED /\
    training_data_ (game st') = [] /\
    move_count_ (game st') = 1.
Proof.
  destruct (abort_stops_the_ply (C := collaborators wdl_script)
              false 5 1 1 true true None abort_during_the_search
              (start wdl_script (player 5 true 0)) eq_refl eq_refl
              (or_intror eq_refl))
    as (st' & Hplay & Ha & Hr & Hd & _ & _ & Hrest).
  cbn [abort_before_guard abort_during_the_search] in Hrest.
  destruct Hrest as (responder & s & _ & _ & Hmc & _).
  exists st'. repeat split; assumption.
Defined.

Lemma extrema_only_widen_witness :
  let g' :=
    game (state_of
            (Play (C := collaborators simple_script) false 5 1 1 true false
               None [no_abort; no_abort]
               (new_game simple_script (player 0 false 0)) None)) in
  extrema_are_numbers g' /\
  extrema_widened (new_game simple_script (player 0 false 0)) g'.
Proof.
  apply (extrema_only_widen (C := collaborators simple_script)
           false 5 1 1 true false None [no_abort; no_abort]
           (new_game simple_script (player 0 false 0)) None).
  repeat split.
Defined.

Lemma worst_eval_bounds_witness :
  is_nan (GetWorstEvalForWinnerOrDraw
            (new_game simple_script (player 0 false 0))) = false.
Proof.
  apply (worst_eval_bounds (C := collaborators simple_script)
           (new_game simple_script (player 0 false 0))).
  repeat split.
Defined.

Lemma trees_stay_in_lockstep_witness :
  let g' :=
    game (state_of
            (Play (C := collaborators simple_script) false 5 1 1 true false
               None [no_abort; no_abort]
               (two_trees simple_script (player 0 false 0)) None)) in
  in_lockstep g' /\ shares_tree g' = false.
Proof.
  apply (trees_stay_in_lockstep (C := collaborators simple_script)
           false 5 1 1 true false None).
  - intros t. reflexivity.
  - intros s threads t. reflexivity.
  - intros t t' m H. cbn in *. now rewrite H.
  - reflexivity.
Defined.

Lemma nan_evaluation_is_ignored_witness :
  let st := start nan_script (player 20 false 0) in
  min_eval_
    (record_evaluation (C := collaborators nan_script) true O st) =
  (F32.one, F32.one).
Proof.
  apply (nan_evaluation_is_ignored (C := collaborators nan_script)
           true true O (start nan_script (player 20 false 0))).
  reflexivity.
Defined.

Lemma undecided_game_is_written_as_draw_witness :
  let g :=
    set_training_data (new_game wdl_script (player 5 true 0))
      [mkChunk [] 0 0 F32.zero F32.zero; mkChunk [] 1 0 F32.zero F32.zero] in
  WriteTrainingData g [] = WriteTrainingData (set_game_result g DRAW) [].
Proof.
  intros g.
  apply (undecided_game_is_written_as_draw
           (C := collaborators wdl_script) g (set_game_result g DRAW) []);
    reflexivity.
Defined.

Lemma no_resignation_before_earliest_move_witness :
  play_ply (C := collaborators simple_script) false 5 1 1 true true None
    no_abort (start simple_script patient_player) =
  play_ply (C := collaborators simple_script) false 5 1 1 true false None
    no_abort (start simple_script patient_player).
Proof.
  eassert (Hbegin :
    begin_ply (C := collaborators simple_script) 1 1 None no_abort
      (start simple_script patient_player) = inr (_, _, _))
    by (vm_compute; reflexivity).
  apply (no_resignation_before_earliest_move
           (C := collaborators simple_script) false 5 1 1 true None
           _ _ _ _ _ Hbegin).
  vm_compute. reflexivity.
Defined.

Lemma book_move_overrides_search_witness :
  let sc := script two_edges (F32.percent 0, F32.percent 2) in
  let st :=
    @mkPlayState (collaborators sc) (new_game sc (player 0 false 0)) false
      kings_pawn [] in
  GetBestMove (Collaborators := collaborators sc) O = g1f3 /\
  exists st',
    play_ply (C := collaborators sc) false 5 1 1 false false None no_abort st
    = Continue st' /\
    exists before, events st' = before ++ [EvMakeMove e2e4].
Proof.
  intros sc st. split; [reflexivity|].
  eassert (Hbegin :
    begin_ply (C := collaborators sc) 1 1 None no_abort st =
    inr (true, _, _)) by (vm_compute; reflexivity).
  eassert (Hplay :
    play_ply (C := collaborators sc) false 5 1 1 false false None no_abort st
    = Continue _) by (vm_compute; reflexivity).
  eexists. split; [exact Hplay|].
  destruct (book_move_overrides_search (C := collaborators sc)
              false 5 1 1 false false None no_abort st _ _ _ e4
              Hbegin eq_refl Hplay) as (m & before & Hev & Hmove & _).
  exists before. rewrite Hev. do 2 f_equal.
  vm_compute in Hmove. now injection Hmove as <-.
Defined.

(** An opening line whose first half-move no legal move satisfies makes
    [Play] throw, after the search of that ply. *)
Example unresolved_book_move_throws :
  let sc := script two_edges (F32.percent 0, F32.percent 2) in
  exists st',
    Play (C := collaborators sc) false 5 1 1 false false None
      [no_abort; no_abort] (new_game sc (player 0 false 0))
      (Some bishop_first) = Throws "Didn't understood move: Bc4" st' /\
    searches (events st') = 1%nat /\ commits (events st') = O.
Proof. intros sc. eexists. split; [vm_compute; reflexivity|]. split; reflexivity. Qed.

End ScriptedGames.
